(** * parse-and-fix: lexer, parser, arithmetic evaluator and interpreter

    A shallow embedding of [src/lib/parser.ts].

    Conventions of the embedding.
    - A JavaScript string is a Rocq [string]; its characters are the code
      units below 256.
    - The lexer's cursor ([this.input], [this.position]) is the pair of the
      position and the unread suffix [input.slice(position)]: the test
      [this.position < this.input.length] is "the suffix is not empty" and
      [this.input[this.position]] is the head of the suffix.
    - Loops and recursions whose termination is not structural take a
      [fuel] argument and return no result when it runs out. The fuel has
      no counterpart in the source: a run that does not end and a run that
      needs more fuel are not told apart, and the error that an engine
      raises when its call stack overflows (a RangeError, which the [catch]
      of [parse] and of [execute] would catch) is not represented.
    - A JavaScript number is a binary64 floating-point number, with the
      two zeros, the infinities and NaN; the arithmetic rounds to nearest,
      ties to even. Where the language leaves a result to the
      implementation ([Math.pow] off its special cases, the text of a
      number that is not a small integer) the embedding answers
      [Unmodelled]. *)

From Stdlib Require Import String Ascii List Bool Arith ZArith QArith Qround Lia.
From Stdlib Require Import DecimalString SpecFloat.
Import ListNotations.

Local Open Scope string_scope.
Local Open Scope nat_scope.

(* ================================================================== *)
(** * Tokens *)

Inductive TokenType : Type :=
  | NUMBER | OPERATOR | LPAREN | RPAREN | EOF | INVALID | KEYWORD
  | IDENTIFIER | SEMICOLON | LBRACE | RBRACE | COMMA | ASSIGN | COMPARISON
  | LOGICAL | INCREMENT | DECREMENT | COMPOUND_ASSIGN | LBRACKET | RBRACKET
  | STRING | CHAR | PREPROCESSOR | DOT | ARROW | AMPERSAND.

Definition TokenType_eqb (a b : TokenType) : bool :=
  match a, b with
  | NUMBER, NUMBER | OPERATOR, OPERATOR | LPAREN, LPAREN | RPAREN, RPAREN
  | EOF, EOF | INVALID, INVALID | KEYWORD, KEYWORD | IDENTIFIER, IDENTIFIER
  | SEMICOLON, SEMICOLON | LBRACE, LBRACE | RBRACE, RBRACE | COMMA, COMMA
  | ASSIGN, ASSIGN | COMPARISON, COMPARISON | LOGICAL, LOGICAL
  | INCREMENT, INCREMENT | DECREMENT, DECREMENT
  | COMPOUND_ASSIGN, COMPOUND_ASSIGN | LBRACKET, LBRACKET
  | RBRACKET, RBRACKET | STRING, STRING | CHAR, CHAR
  | PREPROCESSOR, PREPROCESSOR | DOT, DOT | ARROW, ARROW
  | AMPERSAND, AMPERSAND => true
  | _, _ => false
  end.

Module Token.
Record t : Type := mk { type : TokenType; value : string; position : nat }.
End Token.

(** [array.push(a)] *)
Definition push {A : Type} (array : list A) (a : A) : list A :=
  (array ++ [a])%list.

(* ================================================================== *)
(** * Lexer *)

Module Lexer.

Definition chr (n : nat) : ascii := ascii_of_nat n.

(** Characters given by code: the double quote is 34, the single quote
    39, the backslash 92 and the line feed 10. *)
Definition dquote : ascii := chr 34.
Definition squote : ascii := chr 39.
Definition backslash : ascii := chr 92.
Definition newline : ascii := chr 10.

(** [/\s/] on code units below 256: tab, line feed, vertical tab, form
    feed, carriage return, space and the no-break space. The same set is
    what [String.prototype.trim] removes. *)
Definition isWhitespace (c : ascii) : bool :=
  let n := nat_of_ascii c in
  ((9 <=? n) && (n <=? 13)) || (n =? 32) || (n =? 160).

(** [/\d/] *)
Definition isDigit (c : ascii) : bool :=
  let n := nat_of_ascii c in (48 <=? n) && (n <=? 57).

(** [/[a-zA-Z_]/] *)
Definition isIdentStart (c : ascii) : bool :=
  let n := nat_of_ascii c in
  ((97 <=? n) && (n <=? 122)) || ((65 <=? n) && (n <=? 90)) || (n =? 95).

(** [/[a-zA-Z0-9_]/] *)
Definition isIdentChar (c : ascii) : bool := isIdentStart c || isDigit c.

Definition keywords : list string :=
  [ "int"; "float"; "char"; "void"; "if"; "else"; "while"; "for";
    "return"; "break"; "continue"; "struct"; "const"; "do"; "switch";
    "case"; "default"; "double"; "long"; "short"; "unsigned"; "signed";
    "sizeof"; "static"; "extern"; "auto"; "register"; "enum"; "union";
    "typedef"; "volatile"; "goto" ].

Definition includes (x : string) (l : list string) : bool :=
  existsb (String.eqb x) l.

(** [String.prototype.trim] *)
Fixpoint trimStart (s : string) : string :=
  match s with
  | String c rest => if isWhitespace c then trimStart rest else s
  | EmptyString => EmptyString
  end.

Fixpoint trimEnd (s : string) : string :=
  match s with
  | EmptyString => EmptyString
  | String c rest =>
      match trimEnd rest with
      | EmptyString =>
          if isWhitespace c then EmptyString else String c EmptyString
      | r => String c r
      end
  end.

Definition trim (s : string) : string := trimEnd (trimStart s).

(** [while (position < length && input[position] !== '\n')]: the
    characters up to the next line feed, and the suffix left. *)
Fixpoint readLine (s : string) : string * string :=
  match s with
  | EmptyString => (EmptyString, EmptyString)
  | String c rest =>
      if Ascii.eqb c newline then (EmptyString, s)
      else let (l, r) := readLine rest in (String c l, r)
  end.

(** The body of the block-comment loop, entered after [position += 2]:
    [while (position < length - 1)], leaving on a star followed by a
    slash. A suffix of one character is left unread. *)
Fixpoint skipBlockComment (s : string) : string :=
  match s with
  | String c1 ((String c2 rest2) as rest1) =>
      if Ascii.eqb c1 "*" && Ascii.eqb c2 "/" then rest2
      else skipBlockComment rest1
  | _ => s
  end.

(** [readIdentifier]: the identifier text and the suffix left. *)
Fixpoint readIdentifierChars (s : string) : string * string :=
  match s with
  | EmptyString => (EmptyString, EmptyString)
  | String c rest =>
      if isIdentChar c
      then let (i, r) := readIdentifierChars rest in (String c i, r)
      else (EmptyString, s)
  end.

Definition readIdentifier (s : string) (start : nat) : Token.t * string :=
  let (identifier, r) := readIdentifierChars s in
  (Token.mk (if includes identifier keywords then KEYWORD else IDENTIFIER)
            identifier start, r).

(** [readNumber]: digits with at most one decimal point. *)
Fixpoint readNumberChars (s : string) (hasDot : bool) : string * string :=
  match s with
  | EmptyString => (EmptyString, EmptyString)
  | String c rest =>
      if isDigit c
      then let (n, r) := readNumberChars rest hasDot in (String c n, r)
      else if Ascii.eqb c "." && negb hasDot
      then let (n, r) := readNumberChars rest true in (String c n, r)
      else (EmptyString, s)
  end.

Definition readNumber (s : string) (start : nat) : Token.t * string :=
  let (numStr, r) := readNumberChars s false in
  (Token.mk NUMBER numStr start, r).

(** [readString], after the opening quote: a backslash keeps the next
    character with it; the closing quote, when there is one, is part of
    the text. *)
Fixpoint readStringChars (s : string) : string * string :=
  match s with
  | EmptyString => (EmptyString, EmptyString)
  | String c rest =>
      if Ascii.eqb c dquote then (String dquote EmptyString, rest)
      else if Ascii.eqb c backslash then
        match rest with
        | String d rest' =>
            let (b, r) := readStringChars rest' in (String c (String d b), r)
        | EmptyString => (String c EmptyString, EmptyString)
        end
      else let (b, r) := readStringChars rest in (String c b, r)
  end.

Definition readString (afterQuote : string) (start : nat)
  : Token.t * string :=
  let (b, r) := readStringChars afterQuote in
  (Token.mk STRING (String dquote b) start, r).

(** [readChar], after the opening quote: no escape handling. *)
Fixpoint readCharChars (s : string) : string * string :=
  match s with
  | EmptyString => (EmptyString, EmptyString)
  | String c rest =>
      if Ascii.eqb c squote then (String squote EmptyString, rest)
      else let (b, r) := readCharChars rest in (String c b, r)
  end.

Definition readChar (afterQuote : string) (start : nat)
  : Token.t * string :=
  let (b, r) := readCharChars afterQuote in
  (Token.mk CHAR (String squote b) start, r).

(** [this.input[this.position + 1] === d] *)
Definition nextIs (rest1 : string) (d : ascii) : bool :=
  match rest1 with
  | String c _ => Ascii.eqb c d
  | EmptyString => false
  end.

Definition tail (s : string) : string :=
  match s with
  | String _ r => r
  | EmptyString => EmptyString
  end.

Definition str1 (c : ascii) : string := String c EmptyString.
Definition str2 (c d : ascii) : string := String c (String d EmptyString).

(** One iteration of the loop of [tokenize] with [input[position] = c]
    and [rest1 = input.slice(position + 1)]: the token pushed, if any, and
    the unread suffix after the iteration. *)
Definition lexStep (c : ascii) (rest1 : string) (pos : nat)
  : option Token.t * string :=
  let one ty := (Some (Token.mk ty (str1 c) pos), rest1) in
  let two ty d := (Some (Token.mk ty (str2 c d) pos), tail rest1) in
  if isWhitespace c then (None, rest1)
  else if Ascii.eqb c "#" then
    let (directive, r) := readLine (String c rest1) in
    (Some (Token.mk PREPROCESSOR directive pos), r)
  else if Ascii.eqb c dquote then
    let (t, r) := readString rest1 pos in (Some t, r)
  else if Ascii.eqb c squote then
    let (t, r) := readChar rest1 pos in (Some t, r)
  else if Ascii.eqb c "/" && nextIs rest1 "/" then
    (None, snd (readLine (String c rest1)))
  else if Ascii.eqb c "/" && nextIs rest1 "*" then
    (None, skipBlockComment (tail rest1))
  else if isDigit c then
    let (t, r) := readNumber (String c rest1) pos in (Some t, r)
  else if isIdentStart c then
    let (t, r) := readIdentifier (String c rest1) pos in (Some t, r)
  else if Ascii.eqb c "+" && nextIs rest1 "+" then two INCREMENT "+"%char
  else if Ascii.eqb c "-" && nextIs rest1 "-" then two DECREMENT "-"%char
  else if Ascii.eqb c "+" && nextIs rest1 "=" then two COMPOUND_ASSIGN "="%char
  else if Ascii.eqb c "-" && nextIs rest1 "=" then two COMPOUND_ASSIGN "="%char
  else if Ascii.eqb c "*" && nextIs rest1 "=" then two COMPOUND_ASSIGN "="%char
  else if Ascii.eqb c "/" && nextIs rest1 "=" then two COMPOUND_ASSIGN "="%char
  else if Ascii.eqb c "%" && nextIs rest1 "=" then two COMPOUND_ASSIGN "="%char
  else if Ascii.eqb c "-" && nextIs rest1 ">" then two ARROW ">"%char
  else if Ascii.eqb c "=" && nextIs rest1 "=" then two COMPARISON "="%char
  else if Ascii.eqb c "!" && nextIs rest1 "=" then two COMPARISON "="%char
  else if Ascii.eqb c "<" && nextIs rest1 "=" then two COMPARISON "="%char
  else if Ascii.eqb c ">" && nextIs rest1 "=" then two COMPARISON "="%char
  else if Ascii.eqb c "&" && nextIs rest1 "&" then two LOGICAL "&"%char
  else if Ascii.eqb c "|" && nextIs rest1 "|" then two LOGICAL "|"%char
  else if Ascii.eqb c "<" then one COMPARISON
  else if Ascii.eqb c ">" then one COMPARISON
  else if Ascii.eqb c "!" then one LOGICAL
  else if Ascii.eqb c "=" then one ASSIGN
  else if Ascii.eqb c "&" then one AMPERSAND
  else if existsb (Ascii.eqb c) ["+"; "-"; "*"; "/"; "%"; "^"]%char
  then one OPERATOR
  else if Ascii.eqb c "(" then one LPAREN
  else if Ascii.eqb c ")" then one RPAREN
  else if Ascii.eqb c "[" then one LBRACKET
  else if Ascii.eqb c "]" then one RBRACKET
  else if Ascii.eqb c "{" then one LBRACE
  else if Ascii.eqb c "}" then one RBRACE
  else if Ascii.eqb c ";" then one SEMICOLON
  else if Ascii.eqb c "," then one COMMA
  else if Ascii.eqb c "." then one DOT
  else one INVALID.

(** The [tokens.push] of an iteration, when it has one. *)
Definition pushToken (tokens : list Token.t) (t : option Token.t)
  : list Token.t :=
  match t with
  | Some tok => push tokens tok
  | None => tokens
  end.

(** The loop of [tokenize]. [rest] is the unread suffix and [pos] the
    position; an iteration moves the position by the number of characters
    it has read. *)
Fixpoint tokenizeLoop (fuel : nat) (rest : string) (pos : nat)
                      (tokens : list Token.t) : option (list Token.t) :=
  match fuel with
  | O => None
  | S fuel' =>
      match rest with
      | EmptyString => Some (push tokens (Token.mk EOF EmptyString pos))
      | String c rest1 =>
          let (t, rest') := lexStep c rest1 pos in
          tokenizeLoop fuel' rest'
                       (pos + (String.length rest - String.length rest'))
                       (pushToken tokens t)
      end
  end.

(** [new Lexer(source).tokenize()]. Every iteration reads at least one
    character, so one more unit of fuel than the input has characters is
    enough, as proved below. *)
Definition tokenize (source : string) : option (list Token.t) :=
  let input := trim source in
  tokenizeLoop (S (String.length input)) input 0 [].

End Lexer.

(* ================================================================== *)
(** * Numbers *)

(** A JavaScript number is a binary64 floating-point number: a signed
    zero, a signed infinity, NaN, or a finite number [(-1)^s * m * 2^e].
    The operations are the ones of the specification of binary64
    arithmetic of the Standard Library ([SpecFloat], precision 53 and
    maximal exponent 1024), which round to nearest, ties to even. *)
Definition number : Type := spec_float.

Abbreviation NaN := S754_nan.
Abbreviation PosInf := (S754_infinity false).
Abbreviation NegInf := (S754_infinity true).

Module Num.

Local Open Scope Z_scope.

Definition prec : Z := 53.
Definition emax : Z := 1024.

(** The number of an integer literal: the integer, rounded when it has
    more than 53 significant bits. *)
Definition ofZ (z : Z) : number := binary_normalize prec emax z 0 false.

Definition zero : number := ofZ 0.
Definition one : number := ofZ 1.

(** [-a], [a + b], [a - b], [a * b], [a / b] *)
Definition neg (a : number) : number := SFopp a.
Definition add (a b : number) : number := SFadd prec emax a b.
Definition sub (a b : number) : number := SFsub prec emax a b.
Definition mul (a b : number) : number := SFmul prec emax a b.
Definition div (a b : number) : number := SFdiv prec emax a b.

(** [a % b]: NaN when [a] is infinite or [b] is zero, [a] when [b] is
    infinite or [a] is zero; otherwise the remainder of the division that
    truncates, which is exact and has the sign of the dividend (also when
    it is zero). *)
Definition rem (a b : number) : number :=
  match a, b with
  | S754_nan, _ | _, S754_nan => NaN
  | S754_infinity _, _ => NaN
  | _, S754_zero _ => NaN
  | _, S754_infinity _ => a
  | S754_zero _, _ => a
  | S754_finite sa ma ea, S754_finite _ mb eb =>
      let e := Z.min ea eb in
      let n := Zpos (fst (shl_align ma ea e)) in
      let d := Zpos (fst (shl_align mb eb e)) in
      binary_normalize prec emax (cond_Zopp sa (Z.rem n d)) e sa
  end.

(** [Math.floor]: the zeros, the infinities and NaN are returned as they
    are; a finite number without fractional bits as well; otherwise the
    greatest integer below it (a zero result has the sign of the
    argument). *)
Definition floor (a : number) : number :=
  match a with
  | S754_finite s m e =>
      if 0 <=? e then a
      else binary_normalize prec emax
             (Z.shiftr (cond_Zopp s (Zpos m)) (- e)) 0 s
  | _ => a
  end.

(** [a === b], [a < b] and [a <= b] on numbers: false when either is NaN;
    the two zeros are equal. *)
Definition eqb (a b : number) : bool := SFeqb a b.
Definition ltb (a b : number) : bool := SFltb a b.
Definition leb (a b : number) : bool := SFleb a b.

(** The truth value of a number: the zeros and NaN are false. *)
Definition toBoolean (a : number) : bool :=
  match a with
  | S754_nan | S754_zero _ => false
  | _ => true
  end.

(** The integer that a number is, when it is one. *)
Definition toInteger (a : number) : option Z :=
  match a with
  | S754_zero _ => Some 0
  | S754_finite s m e =>
      if 0 <=? e then Some (cond_Zopp s (Zpos m * 2 ^ e))
      else if Zpos m mod 2 ^ (- e) =? 0
           then Some (cond_Zopp s (Z.shiftr (Zpos m) (- e)))
           else None
  | _ => None
  end.

Definition isOddInteger (a : number) : bool :=
  match toInteger a with
  | Some z => Z.odd z
  | None => false
  end.

(** The rational that a finite number stands for (0 for the others). *)
Definition toQ (a : number) : Q :=
  match a with
  | S754_finite s m e =>
      if 0 <=? e then inject_Z (cond_Zopp s (Zpos m * 2 ^ e))
      else Qmake (cond_Zopp s (Zpos m)) (Z.to_pos (2 ^ (- e)))
  | _ => 0%Q
  end.

(** [Math.pow]. The language fixes the result when an operand is NaN, a
    zero or an infinity, and on a negative base with a fractional
    exponent; every other result is left to the implementation as an
    approximation of the power. Of those the embedding gives the powers
    that are numbers themselves and small: the power of an integer by an
    integer from 1 to 53, when it has at most 53 bits, is that integer
    (an implementation whose error stays below half a unit in the last
    place before it rounds returns it). The rest is left out ([None]). *)
Definition pow (base exponent : number) : option number :=
  match exponent with
  | S754_nan => Some NaN
  | S754_zero _ => Some one
  | _ =>
      let positive := ltb zero exponent in
      let odd := isOddInteger exponent in
      match base with
      | S754_nan => Some NaN
      | S754_infinity false => Some (if positive then PosInf else zero)
      | S754_infinity true =>
          Some (if positive then (if odd then NegInf else PosInf)
                else (if odd then S754_zero true else zero))
      | S754_zero false => Some (if positive then zero else PosInf)
      | S754_zero true =>
          Some (if positive then (if odd then S754_zero true else zero)
                else (if odd then NegInf else PosInf))
      | S754_finite sb _ _ =>
          match exponent with
          | S754_infinity se =>
              match SFcompare (SFabs base) one with
              | Some Gt => Some (if se then zero else PosInf)
              | Some Lt => Some (if se then PosInf else zero)
              | _ => Some NaN
              end
          | _ =>
              match toInteger exponent with
              | None => if sb then Some NaN else None
              | Some n =>
                  match toInteger base with
                  | Some b =>
                      if (0 <=? n) && (n <=? 53)
                         && (Z.abs (b ^ n) <? 2 ^ 53)
                      then Some (ofZ (b ^ n))
                      else None
                  | None => None
                  end
              end
          end
      end
  end.

(** The quotient [n / d] of two integers, [n] not negative and [d]
    positive, rounded to the nearest number. *)
Definition ofRatio (n d : Z) : number :=
  match n with
  | Z0 => zero
  | _ =>
      let '(q, e, l) := SFdiv_core_binary prec emax n 0 d 0 in
      binary_round_aux prec emax false q e l
  end.

(** Digits of a decimal numeral: the value and the number of digits. *)
Fixpoint digits (s : string) (acc : Z) (count : nat)
  : Z * nat * string :=
  match s with
  | String c rest =>
      if Lexer.isDigit c
      then digits rest (10 * acc + Z.of_nat (nat_of_ascii c - 48))%Z
                  (S count)
      else (acc, count, s)
  | EmptyString => (acc, count, s)
  end.

(** [parseFloat] on the text of a NUMBER token (digits with at most one
    decimal point, as [Lexer.readNumber] produces them): the number
    nearest to the longest prefix that is a decimal numeral (the infinity
    when the numeral is too large), NaN when there is none. Signs,
    exponents and leading blanks, which no NUMBER token has, are not
    read. *)
Definition parseFloat (s : string) : number :=
  let '(i, ni, rest) := digits s 0%Z 0%nat in
  match rest with
  | String "." frac =>
      let '(f, nf, _) := digits frac 0%Z 0%nat in
      if ((ni =? 0) && (nf =? 0))%nat then NaN
      else ofRatio (i * 10 ^ Z.of_nat nf + f) (10 ^ Z.of_nat nf)
  | _ => if (ni =? 0)%nat then NaN else ofRatio i 1
  end.

(** [String(a)] for the integers below 2^53 in absolute value (the
    negative zero prints as 0), the infinities and NaN. The other numbers
    print through the shortest decimal that reads back as the number,
    which is left out ([None]). *)
Definition toString (a : number) : option string :=
  match a with
  | S754_nan => Some "NaN"
  | S754_infinity false => Some "Infinity"
  | S754_infinity true => Some "-Infinity"
  | _ =>
      match toInteger a with
      | Some z =>
          if Z.abs z <? 2 ^ 53
          then Some (NilZero.string_of_int (Z.to_int z))
          else None
      | None => None
      end
  end.

End Num.

(* ================================================================== *)
(** * Syntax trees *)

(** [value?: number | string | ASTNode] *)
Inductive nodeValue (A : Type) : Type :=
  | NumberValue (n : number)
  | StringValue (s : string)
  | NodeValue (node : A).
Arguments NumberValue {A} n.
Arguments StringValue {A} s.
Arguments NodeValue {A} node.

(** [body?: ASTNode | ASTNode[]] *)
Inductive nodeBody (A : Type) : Type :=
  | Single (node : A)
  | Several (nodes : list A).
Arguments Single {A} node.
Arguments Several {A} nodes.

Module Parameter_.
Record t : Type := mk { type : string; name : string }.
End Parameter_.

Module ASTNode.

(** The interface [ASTNode]: an absent optional property is [None]. A
    switch case [{ value; body }] is a pair. *)
#[local] Unset Elimination Schemes.
Inductive t : Type := mk {
  type : string;
  value : option (nodeValue t);
  operator : option string;
  left : option t;
  right : option t;
  dataType : option string;
  identifier : option string;
  init : option t;
  condition : option t;
  body : option (nodeBody t);
  increment : option t;
  elseBranch : option t;
  parameters : option (list Parameter_.t);
  returnType : option string;
  statements : option (list t);
  size : option t;
  isArray : option bool;
  isPointer : option bool;
  arguments : option (list t);
  test : option t;
  cases : option (list (t * list t));
  default : option (list t);
  directive : option string
}.
#[local] Set Elimination Schemes.

(** [{ type: ty }] *)
Definition empty (ty : string) : t :=
  mk ty None None None None None None None None None None None None None
     None None None None None None None None None.

(** A property of an object literal. *)
Inductive property : Type :=
  | Value (v : option (nodeValue t))
  | Operator (v : string)
  | Left (v : t)
  | Right (v : t)
  | DataType (v : string)
  | Identifier (v : string)
  | Init (v : option t)
  | Condition (v : option t)
  | Body (v : nodeBody t)
  | Increment (v : option t)
  | ElseBranch (v : option t)
  | Parameters (v : list Parameter_.t)
  | ReturnType (v : string)
  | Statements (v : list t)
  | Size (v : option t)
  | IsArray (v : bool)
  | IsPointer (v : bool)
  | Arguments_ (v : list t)
  | Test (v : t)
  | Cases (v : list (t * list t))
  | Default (v : option (list t))
  | Directive (v : string).

Definition set (n : t) (p : property) : t :=
  let '(mk ty va op le ri dt id ini co bo inc el pa rt st si ia ip ar te
           ca de di) := n in
  match p with
  | Value v => mk ty v op le ri dt id ini co bo inc el pa rt st si ia ip ar te ca de di
  | Operator v => mk ty va (Some v) le ri dt id ini co bo inc el pa rt st si ia ip ar te ca de di
  | Left v => mk ty va op (Some v) ri dt id ini co bo inc el pa rt st si ia ip ar te ca de di
  | Right v => mk ty va op le (Some v) dt id ini co bo inc el pa rt st si ia ip ar te ca de di
  | DataType v => mk ty va op le ri (Some v) id ini co bo inc el pa rt st si ia ip ar te ca de di
  | Identifier v => mk ty va op le ri dt (Some v) ini co bo inc el pa rt st si ia ip ar te ca de di
  | Init v => mk ty va op le ri dt id v co bo inc el pa rt st si ia ip ar te ca de di
  | Condition v => mk ty va op le ri dt id ini v bo inc el pa rt st si ia ip ar te ca de di
  | Body v => mk ty va op le ri dt id ini co (Some v) inc el pa rt st si ia ip ar te ca de di
  | Increment v => mk ty va op le ri dt id ini co bo v el pa rt st si ia ip ar te ca de di
  | ElseBranch v => mk ty va op le ri dt id ini co bo inc v pa rt st si ia ip ar te ca de di
  | Parameters v => mk ty va op le ri dt id ini co bo inc el (Some v) rt st si ia ip ar te ca de di
  | ReturnType v => mk ty va op le ri dt id ini co bo inc el pa (Some v) st si ia ip ar te ca de di
  | Statements v => mk ty va op le ri dt id ini co bo inc el pa rt (Some v) si ia ip ar te ca de di
  | Size v => mk ty va op le ri dt id ini co bo inc el pa rt st v ia ip ar te ca de di
  | IsArray v => mk ty va op le ri dt id ini co bo inc el pa rt st si (Some v) ip ar te ca de di
  | IsPointer v => mk ty va op le ri dt id ini co bo inc el pa rt st si ia (Some v) ar te ca de di
  | Arguments_ v => mk ty va op le ri dt id ini co bo inc el pa rt st si ia ip (Some v) te ca de di
  | Test v => mk ty va op le ri dt id ini co bo inc el pa rt st si ia ip ar (Some v) ca de di
  | Cases v => mk ty va op le ri dt id ini co bo inc el pa rt st si ia ip ar te (Some v) de di
  | Default v => mk ty va op le ri dt id ini co bo inc el pa rt st si ia ip ar te ca v di
  | Directive v => mk ty va op le ri dt id ini co bo inc el pa rt st si ia ip ar te ca de (Some v)
  end.

(** The object literal [{ type: ty, p1, p2, ... }]. *)
Definition node (ty : string) (props : list property) : t :=
  fold_left set props (empty ty).

(** [{ type: 'number', value: n }] *)
Definition num (n : number) : t :=
  node "number" [Value (Some (NumberValue n))].

End ASTNode.

(** The outcome of a call that can throw. [Unmodelled] marks an input on
    which the source computes a value the embedding does not determine. *)
Inductive completion (A : Type) : Type :=
  | Returns (a : A)
  | Throws (message : string)
  | Unmodelled.
Arguments Returns {A} a.
Arguments Throws {A} message.
Arguments Unmodelled {A}.

(* ================================================================== *)
(** * Evaluator: [evaluateAST] *)

Definition programStructureTypes : list string :=
  [ "program"; "declaration"; "function"; "if_statement"; "while_loop";
    "for_loop"; "do_while"; "switch"; "function_call"; "array_access";
    "assignment"; "break"; "continue"; "return"; "preprocessor";
    "string"; "char"; "postfix"; "prefix"; "address_of"; "dereference" ].


(** The text of an optional string in a template literal. *)
Definition showString (s : option string) : string :=
  match s with
  | Some v => v
  | None => "undefined"
  end.

(** [property === text] for an optional string property. *)
Definition equals (property : option string) (text : string) : bool :=
  match property with
  | Some s => String.eqb s text
  | None => false
  end.

(** The switch on [node.operator] of [evaluateAST]. *)
Definition evaluateOperator (operator : option string) (left right : number)
  : completion number :=
  if equals operator "+" then Returns (Num.add left right)
  else if equals operator "-" then Returns (Num.sub left right)
  else if equals operator "*" then Returns (Num.mul left right)
  else if equals operator "/" then
    if Num.eqb right Num.zero then Throws "Division by zero"
    else Returns (Num.div left right)
  else if equals operator "%" then Returns (Num.rem left right)
  else if equals operator "^" then
    match Num.pow left right with
    | Some r => Returns r
    | None => Unmodelled
    end
  else if equals operator "unary_neg" then Returns (Num.neg right)
  else if equals operator "unary_pos" then Returns right
  else Throws ("Unknown operator: " ++ showString operator).

Fixpoint evaluateAST (node : ASTNode.t) : completion number :=
  if String.eqb (ASTNode.type node) "number" then
    (* node.value as number || 0 *)
    match ASTNode.value node with
    | Some (NumberValue n) =>
        Returns (if Num.toBoolean n then n else Num.zero)
    | None => Returns Num.zero
    | Some (StringValue s) =>
        if String.eqb s EmptyString then Returns Num.zero else Unmodelled
    | Some (NodeValue _) => Unmodelled
    end
  else if String.eqb (ASTNode.type node) "identifier" then
    match ASTNode.value node with
    | Some (StringValue s) =>
        Throws ("Cannot evaluate identifier '" ++ s
                ++ "' without variable context")
    | None =>
        Throws "Cannot evaluate identifier 'undefined' without variable context"
    | Some _ => Unmodelled
    end
  else
    match String.eqb (ASTNode.type node) "binary_op",
          ASTNode.left node, ASTNode.right node with
    | true, Some l, Some r =>
        match evaluateAST l with
        | Returns left_ =>
            match evaluateAST r with
            | Returns right_ =>
                evaluateOperator (ASTNode.operator node) left_ right_
            | other => other
            end
        | other => other
        end
    | _, _, _ =>
        if Lexer.includes (ASTNode.type node) programStructureTypes
        then Throws "Cannot evaluate C program structure - this parser focuses on syntax analysis"
        else Throws ("Invalid AST node type: " ++ ASTNode.type node)
    end.

(* ================================================================== *)
(** * Parser *)

Module ParseError.
Record t : Type :=
  mk { message : string; position : nat; suggestion : string }.
End ParseError.

Module ParseResult.
Record t : Type := mk {
  success : bool;
  tree : option ASTNode.t;
  errors : option (list ParseError.t)
}.
End ParseResult.

(** A number in a template literal. *)
Definition showNat (n : nat) : string := NilZero.string_of_uint (Nat.to_uint n).

Module Parser.

(** The mutable fields of the class: the cursor and the error list. The
    cursor is an integer: [assignmentOrExpression] decrements it. *)
Record state : Type := mkState {
  current : Z;
  errors : list ParseError.t
}.

(** What a production does: return a node, or throw (the state then holds
    the errors recorded before the throw). *)
Inductive result (A : Type) : Type :=
  | Ok (a : A) (s : state)
  | Thrown (s : state)
  | OutOfFuel.
Arguments Ok {A} a s.
Arguments Thrown {A} s.
Arguments OutOfFuel {A}.

Definition M (A : Type) : Type := state -> result A.

Definition ret {A} (a : A) : M A := fun s => Ok a s.

Definition bind {A B} (m : M A) (k : A -> M B) : M B :=
  fun s =>
    match m s with
    | Ok a s' => k a s'
    | Thrown s' => Thrown s'
    | OutOfFuel => OutOfFuel
    end.

Definition throw {A} : M A := fun s => Thrown s.
Definition outOfFuel {A} : M A := fun _ => OutOfFuel.

Notation "x <- m ;; k" := (bind m (fun x => k))
  (at level 61, m at next level, right associativity).
Notation "m ;;; k" := (bind m (fun _ => k))
  (at level 61, right associativity).

(** [this.errors.push({ message, position, suggestion })] *)
Definition pushError (message : string) (position : nat)
                     (suggestion : string) : M unit :=
  fun s => Ok tt (mkState (current s)
                    (errors s ++ [ParseError.mk message position suggestion])).

Definition hasType (tok : Token.t) (ty : TokenType) : bool :=
  TokenType_eqb (Token.type tok) ty.

Definition isValue (tok : Token.t) (ty : TokenType) (v : string) : bool :=
  hasType tok ty && String.eqb (Token.value tok) v.

Section Productions.

Variable tokens : list Token.t.

(** [this.tokens[i]] *)
Definition tokenAt (i : Z) : option Token.t :=
  if (i <? 0)%Z then None else nth_error tokens (Z.to_nat i).

(** [this.tokens[this.current] || this.tokens[this.tokens.length - 1]].
    On an empty token list the source gets [undefined] and throws a
    TypeError at the property read that follows every call. *)
Definition currentToken : M Token.t :=
  fun s =>
    match tokenAt (current s) with
    | Some tok => Ok tok s
    | None =>
        match tokenAt (Z.of_nat (List.length tokens) - 1) with
        | Some tok => Ok tok s
        | None => Thrown s
        end
    end.

Definition advance : M Token.t :=
  token <- currentToken ;;
  fun s =>
    if (current s <? Z.of_nat (List.length tokens) - 1)%Z
    then Ok token (mkState (current s + 1) (errors s))
    else Ok token s.

(** [this.current--] *)
Definition backUp : M unit :=
  fun s => Ok tt (mkState (current s - 1) (errors s)).

(** [if (this.currentToken().type !== ty) { this.errors.push(...);
    throw ... }], the error being at the current token. *)
Definition expect (ty : TokenType) (message suggestion : string)
  : M unit :=
  tok <- currentToken ;;
  if hasType tok ty then ret tt
  else pushError message (Token.position tok) suggestion ;;; throw.

(** [if (this.currentToken().type === 'SEMICOLON') this.advance()] *)
Definition skipSemicolon : M unit :=
  tok <- currentToken ;;
  if hasType tok SEMICOLON then advance ;;; ret tt else ret tt.

Definition binary (operator : string) (l r : ASTNode.t) : ASTNode.t :=
  ASTNode.node "binary_op"
    [ASTNode.Operator operator; ASTNode.Left l; ASTNode.Right r].

(** The loop of a left-associative level: [while (the current token is
    an operator of the level) { operator = advance().value; right =
    next(); left = { binary_op } }]. *)
Fixpoint binaryLoop (fuel : nat) (level : Token.t -> bool)
                    (next : M ASTNode.t) (l : ASTNode.t)
  : M ASTNode.t :=
  match fuel with
  | O => outOfFuel
  | S fuel =>
      tok <- currentToken ;;
      if level tok then
        op <- advance ;;
        r <- next ;;
        binaryLoop fuel level next (binary (Token.value op) l r)
      else ret l
  end.

(** [while (type !== 'RPAREN' && type !== 'EOF') { args.push(
    expression()); if (type === 'COMMA') advance() }] *)
Fixpoint argumentsLoop (fuel : nat) (expression : M ASTNode.t)
                       (args : list ASTNode.t) : M (list ASTNode.t) :=
  match fuel with
  | O => outOfFuel
  | S fuel =>
      tok <- currentToken ;;
      if negb (hasType tok RPAREN) && negb (hasType tok EOF) then
        e <- expression ;;
        tok <- currentToken ;;
        (if hasType tok COMMA then advance ;;; ret tt else ret tt) ;;;
        argumentsLoop fuel expression (push args e)
      else ret args
  end.

(** [while (!stop(currentToken())) statements.push(statement())] *)
Fixpoint statementsLoop (fuel : nat) (stop : Token.t -> bool)
                        (statement : M ASTNode.t)
                        (statements : list ASTNode.t)
  : M (list ASTNode.t) :=
  match fuel with
  | O => outOfFuel
  | S fuel =>
      tok <- currentToken ;;
      if stop tok then ret statements
      else
        st <- statement ;;
        statementsLoop fuel stop statement (push statements st)
  end.

(** The loop of [program]. *)
Fixpoint programLoop (fuel : nat) (statement : M ASTNode.t)
                     (statements : list ASTNode.t)
  : M (list ASTNode.t) :=
  match fuel with
  | O => outOfFuel
  | S fuel =>
      tok <- currentToken ;;
      if hasType tok EOF then ret statements
      else if hasType tok PREPROCESSOR then
        advance ;;;
        programLoop fuel statement
          (push statements
                (ASTNode.node "preprocessor"
                   [ASTNode.Directive (Token.value tok)]))
      else
        st <- statement ;;
        programLoop fuel statement (push statements st)
  end.

(** [while (type === 'OPERATOR' && value === '*') { isPointer = true;
    advance() }] of [declaration]. *)
Fixpoint pointerLoop (fuel : nat) (isPointer : bool) : M bool :=
  match fuel with
  | O => outOfFuel
  | S fuel =>
      tok <- currentToken ;;
      if isValue tok OPERATOR "*"
      then advance ;;; pointerLoop fuel true
      else ret isPointer
  end.

(** The [while (true)] of [functionDeclaration]. *)
Fixpoint parametersLoop (fuel : nat) (parameters : list Parameter_.t)
  : M (list Parameter_.t) :=
  match fuel with
  | O => outOfFuel
  | S fuel =>
      tok <- currentToken ;;
      parameters' <-
        (if hasType tok KEYWORD then
           paramType <- advance ;;
           tok <- currentToken ;;
           paramPointer <-
             (if isValue tok OPERATOR "*"
              then advance ;;; ret true else ret false) ;;
           tok <- currentToken ;;
           if hasType tok IDENTIFIER then
             paramName <- advance ;;
             ret (push parameters
                       (Parameter_.mk
                          (if paramPointer : bool
                           then Token.value paramType ++ "*"
                           else Token.value paramType)
                          (Token.value paramName)))
           else ret parameters
         else ret parameters) ;;
      tok <- currentToken ;;
      if hasType tok COMMA
      then advance ;;; parametersLoop fuel parameters'
      else ret parameters'
  end.

(** The loop of [switchStatement] over its [case] and [default]
    clauses; [None] for [defaultCase] is [undefined]. *)
Fixpoint switchLoop (fuel : nat) (expression statement : M ASTNode.t)
                    (cases : list (ASTNode.t * list ASTNode.t))
                    (defaultCase : option (list ASTNode.t))
  : M (list (ASTNode.t * list ASTNode.t) * option (list ASTNode.t)) :=
  let stop tok := hasType tok KEYWORD || hasType tok RBRACE || hasType tok EOF in
  match fuel with
  | O => outOfFuel
  | S fuel =>
      tok <- currentToken ;;
      if negb (hasType tok RBRACE) && negb (hasType tok EOF) then
        if hasType tok KEYWORD then
          if String.eqb (Token.value tok) "case" then
            advance ;;;
            value <- expression ;;
            tok <- currentToken ;;
            (if negb (hasType tok SEMICOLON)
             then pushError "Expected : after case value"
                            (Token.position tok)
                            "Add : after case value"
             else advance ;;; ret tt) ;;;
            body <- statementsLoop fuel stop statement [] ;;
            switchLoop fuel expression statement
                       (push cases (value, body)) defaultCase
          else if String.eqb (Token.value tok) "default" then
            advance ;;;
            skipSemicolon ;;;
            body <- statementsLoop fuel stop statement [] ;;
            switchLoop fuel expression statement cases (Some body)
          else ret (cases, defaultCase)
        else ret (cases, defaultCase)
      else ret (cases, defaultCase)
  end.

Definition typeKeywords : list string :=
  [ "int"; "float"; "char"; "void"; "double"; "long"; "short";
    "unsigned"; "signed" ].

Definition some {A} (m : M A) : M (option A) := a <- m ;; ret (Some a).

#[local] Set Warnings "-non-full-mutual".
Fixpoint statement (fuel : nat) : M ASTNode.t :=
  match fuel with
  | O => outOfFuel
  | S fuel =>
      token <- currentToken ;;
      if hasType token KEYWORD
         && Lexer.includes (Token.value token) typeKeywords
      then declaration fuel
      else if isValue token KEYWORD "if" then ifStatement fuel
      else if isValue token KEYWORD "while" then whileLoop fuel
      else if isValue token KEYWORD "for" then forLoop fuel
      else if isValue token KEYWORD "do" then doWhileLoop fuel
      else if isValue token KEYWORD "switch" then switchStatement fuel
      else if isValue token KEYWORD "break" then
        advance ;;; skipSemicolon ;;; ret (ASTNode.node "break" [])
      else if isValue token KEYWORD "continue" then
        advance ;;; skipSemicolon ;;; ret (ASTNode.node "continue" [])
      else if isValue token KEYWORD "return" then returnStatement fuel
      else if hasType token LBRACE then block fuel
      else if hasType token IDENTIFIER then assignmentOrExpression fuel
      else
        pushError ("Unexpected token '" ++ Token.value token ++ "'")
                  (Token.position token)
                  "Expected declaration, statement, or expression" ;;;
        throw
  end

with declaration (fuel : nat) : M ASTNode.t :=
  match fuel with
  | O => outOfFuel
  | S fuel =>
      dataType <- advance ;;
      let dataType := Token.value dataType in
      isPointer <- pointerLoop fuel false ;;
      expect IDENTIFIER "Expected identifier after type"
             ("Add variable name after '" ++ dataType ++ "'") ;;;
      identifier <- advance ;;
      let identifier := Token.value identifier in
      tok <- currentToken ;;
      if hasType tok LBRACKET then
        advance ;;;
        tok <- currentToken ;;
        size <-
          (if hasType tok NUMBER
           then advance ;;;
                ret (Some (ASTNode.num (Num.parseFloat (Token.value tok))))
           else ret None) ;;
        expect RBRACKET "Expected ] after array size"
               "Add ] to close array declaration" ;;;
        advance ;;;
        tok <- currentToken ;;
        init <-
          (if hasType tok ASSIGN then advance ;;; some (expression fuel)
           else ret None) ;;
        expect SEMICOLON "Missing semicolon"
               "Add ; after array declaration" ;;;
        advance ;;;
        ret (ASTNode.node "declaration"
               [ASTNode.DataType dataType; ASTNode.Identifier identifier;
                ASTNode.IsArray true; ASTNode.Size size;
                ASTNode.Init init; ASTNode.IsPointer isPointer])
      else if hasType tok LPAREN then
        functionDeclaration fuel dataType identifier isPointer
      else
        init <-
          (if hasType tok ASSIGN then advance ;;; some (expression fuel)
           else ret None) ;;
        expect SEMICOLON "Missing semicolon"
               "Add ';' after declaration" ;;;
        advance ;;;
        ret (ASTNode.node "declaration"
               [ASTNode.DataType dataType; ASTNode.Identifier identifier;
                ASTNode.Init init; ASTNode.IsPointer isPointer])
  end

with functionDeclaration (fuel : nat) (returnType name : string)
                         (isPointer : bool) : M ASTNode.t :=
  match fuel with
  | O => outOfFuel
  | S fuel =>
      advance ;;;
      tok <- currentToken ;;
      parameters <-
        (if negb (hasType tok RPAREN) then parametersLoop fuel []
         else ret []) ;;
      expect RPAREN "Missing closing parenthesis in function declaration"
             "Add ) after parameters" ;;;
      advance ;;;
      body <- block fuel ;;
      ret (ASTNode.node "function"
             [ASTNode.ReturnType
                (if isPointer then returnType ++ "*" else returnType);
              ASTNode.Identifier name; ASTNode.Parameters parameters;
              ASTNode.Body (Single body)])
  end

with block (fuel : nat) : M ASTNode.t :=
  match fuel with
  | O => outOfFuel
  | S fuel =>
      expect LBRACE "Expected {" "Add { to start block" ;;;
      advance ;;;
      statements <-
        statementsLoop fuel (fun tok => hasType tok RBRACE || hasType tok EOF)
                       (statement fuel) [] ;;
      expect RBRACE "Missing closing brace" "Add } to close block" ;;;
      advance ;;;
      ret (ASTNode.node "block" [ASTNode.Statements statements])
  end

with blockOrStatement (fuel : nat) : M ASTNode.t :=
  (* currentToken().type === 'LBRACE' ? block() : statement() *)
  match fuel with
  | O => outOfFuel
  | S fuel =>
      tok <- currentToken ;;
      if hasType tok LBRACE then block fuel else statement fuel
  end

with ifStatement (fuel : nat) : M ASTNode.t :=
  match fuel with
  | O => outOfFuel
  | S fuel =>
      advance ;;;
      expect LPAREN "Expected ( after if" "Add ( before condition" ;;;
      advance ;;;
      condition <- expression fuel ;;
      expect RPAREN "Expected ) after condition"
             "Add ) after if condition" ;;;
      advance ;;;
      body <- blockOrStatement fuel ;;
      tok <- currentToken ;;
      elseBranch <-
        (if isValue tok KEYWORD "else"
         then advance ;;; some (blockOrStatement fuel)
         else ret None) ;;
      ret (ASTNode.node "if_statement"
             [ASTNode.Condition (Some condition);
              ASTNode.Body (Single body);
              ASTNode.ElseBranch elseBranch])
  end

with whileLoop (fuel : nat) : M ASTNode.t :=
  match fuel with
  | O => outOfFuel
  | S fuel =>
      advance ;;;
      expect LPAREN "Expected ( after while" "Add ( before condition" ;;;
      advance ;;;
      condition <- expression fuel ;;
      expect RPAREN "Expected ) after condition"
             "Add ) after while condition" ;;;
      advance ;;;
      body <- blockOrStatement fuel ;;
      ret (ASTNode.node "while_loop"
             [ASTNode.Condition (Some condition);
              ASTNode.Body (Single body)])
  end

with doWhileLoop (fuel : nat) : M ASTNode.t :=
  match fuel with
  | O => outOfFuel
  | S fuel =>
      advance ;;;
      body <- blockOrStatement fuel ;;
      tok <- currentToken ;;
      (if negb (hasType tok KEYWORD)
          || negb (String.eqb (Token.value tok) "while")
       then pushError "Expected 'while' after do body"
                      (Token.position tok)
                      "Add 'while (condition)' after do block" ;;;
            throw
       else ret tt) ;;;
      advance ;;;
      expect LPAREN "Expected ( after while" "Add ( before condition" ;;;
      advance ;;;
      condition <- expression fuel ;;
      expect RPAREN "Expected ) after condition"
             "Add ) after condition" ;;;
      advance ;;;
      skipSemicolon ;;;
      ret (ASTNode.node "do_while"
             [ASTNode.Condition (Some condition);
              ASTNode.Body (Single body)])
  end

with switchStatement (fuel : nat) : M ASTNode.t :=
  match fuel with
  | O => outOfFuel
  | S fuel =>
      advance ;;;
      expect LPAREN "Expected ( after switch"
             "Add ( before expression" ;;;
      advance ;;;
      test <- expression fuel ;;
      expect RPAREN "Expected ) after switch expression"
             "Add ) after expression" ;;;
      advance ;;;
      expect LBRACE "Expected { after switch"
             "Add { to start switch body" ;;;
      advance ;;;
      clauses <- switchLoop fuel (expression fuel) (statement fuel)
                            [] None ;;
      expect RBRACE "Expected } to close switch"
             "Add } to close switch statement" ;;;
      advance ;;;
      ret (ASTNode.node "switch"
             [ASTNode.Test test; ASTNode.Cases (fst clauses);
              ASTNode.Default (snd clauses)])
  end

with forLoop (fuel : nat) : M ASTNode.t :=
  match fuel with
  | O => outOfFuel
  | S fuel =>
      advance ;;;
      expect LPAREN "Expected ( after for" "Add ( before for clauses" ;;;
      advance ;;;
      tok <- currentToken ;;
      init <-
        (if hasType tok SEMICOLON then ret None else some (statement fuel)) ;;
      tok <- currentToken ;;
      condition <-
        (if hasType tok SEMICOLON then ret None
         else some (expression fuel)) ;;
      skipSemicolon ;;;
      tok <- currentToken ;;
      increment <-
        (if hasType tok RPAREN then ret None
         else some (assignmentOrExpression fuel)) ;;
      expect RPAREN "Expected ) after for clauses"
             "Add ) after for loop header" ;;;
      advance ;;;
      body <- blockOrStatement fuel ;;
      ret (ASTNode.node "for_loop"
             [ASTNode.Init init; ASTNode.Condition condition;
              ASTNode.Increment increment; ASTNode.Body (Single body)])
  end

with returnStatement (fuel : nat) : M ASTNode.t :=
  match fuel with
  | O => outOfFuel
  | S fuel =>
      advance ;;;
      tok <- currentToken ;;
      value <-
        (if negb (hasType tok SEMICOLON) then some (expression fuel)
         else ret None) ;;
      expect SEMICOLON "Missing semicolon after return"
             "Add ; after return statement" ;;;
      advance ;;;
      ret (ASTNode.node "return"
             [ASTNode.Value (option_map NodeValue value)])
  end

with assignmentOrExpression (fuel : nat) : M ASTNode.t :=
  match fuel with
  | O => outOfFuel
  | S fuel =>
      identifier <- advance ;;
      let identifier := Token.value identifier in
      tok <- currentToken ;;
      subscript <-
        (if hasType tok LBRACKET then
           advance ;;;
           index <- expression fuel ;;
           expect RBRACKET "Expected ] after array index"
                  "Add ] to close array subscript" ;;;
           advance ;;;
           tok <- currentToken ;;
           if hasType tok ASSIGN || hasType tok COMPOUND_ASSIGN then
             op <- advance ;;
             value <- expression fuel ;;
             skipSemicolon ;;;
             ret (Some
               (ASTNode.node "assignment"
                  [ASTNode.Identifier identifier;
                   ASTNode.Value (Some (NodeValue value));
                   ASTNode.Operator (Token.value op);
                   ASTNode.Left
                     (ASTNode.node "array_access"
                        [ASTNode.Identifier identifier;
                         ASTNode.Value (Some (NodeValue index))])]))
           else ret None
         else ret None) ;;
      match subscript with
      | Some assignment => ret assignment
      | None =>
          tok <- currentToken ;;
          if hasType tok LPAREN then
            advance ;;;
            args <- argumentsLoop fuel (expression fuel) [] ;;
            expect RPAREN "Expected ) after function arguments"
                   "Add ) to close function call" ;;;
            advance ;;;
            skipSemicolon ;;;
            ret (ASTNode.node "function_call"
                   [ASTNode.Identifier identifier;
                    ASTNode.Arguments_ args])
          else if hasType tok INCREMENT || hasType tok DECREMENT then
            op <- advance ;;
            skipSemicolon ;;;
            ret (ASTNode.node "postfix"
                   [ASTNode.Operator (Token.value op);
                    ASTNode.Identifier identifier])
          else if hasType tok ASSIGN || hasType tok COMPOUND_ASSIGN then
            op <- advance ;;
            value <- expression fuel ;;
            skipSemicolon ;;;
            ret (ASTNode.node "assignment"
                   [ASTNode.Identifier identifier;
                    ASTNode.Value (Some (NodeValue value));
                    ASTNode.Operator (Token.value op)])
          else
            backUp ;;;
            expr <- expression fuel ;;
            skipSemicolon ;;;
            ret expr
      end
  end

with expression (fuel : nat) : M ASTNode.t :=
  match fuel with
  | O => outOfFuel
  | S fuel => logicalOr fuel
  end

with logicalOr (fuel : nat) : M ASTNode.t :=
  match fuel with
  | O => outOfFuel
  | S fuel =>
      l <- logicalAnd fuel ;;
      binaryLoop fuel (fun tok => isValue tok LOGICAL "||")
                 (logicalAnd fuel) l
  end

with logicalAnd (fuel : nat) : M ASTNode.t :=
  match fuel with
  | O => outOfFuel
  | S fuel =>
      l <- equality fuel ;;
      binaryLoop fuel (fun tok => isValue tok LOGICAL "&&")
                 (equality fuel) l
  end

with equality (fuel : nat) : M ASTNode.t :=
  match fuel with
  | O => outOfFuel
  | S fuel =>
      l <- relational fuel ;;
      binaryLoop fuel
        (fun tok => hasType tok COMPARISON
                    && Lexer.includes (Token.value tok) ["=="; "!="])
        (relational fuel) l
  end

with relational (fuel : nat) : M ASTNode.t :=
  match fuel with
  | O => outOfFuel
  | S fuel =>
      l <- additive fuel ;;
      binaryLoop fuel
        (fun tok => hasType tok COMPARISON
                    && Lexer.includes (Token.value tok)
                         ["<"; ">"; "<="; ">="])
        (additive fuel) l
  end

with additive (fuel : nat) : M ASTNode.t :=
  match fuel with
  | O => outOfFuel
  | S fuel =>
      l <- multiplicative fuel ;;
      binaryLoop fuel
        (fun tok => hasType tok OPERATOR
                    && Lexer.includes (Token.value tok) ["+"; "-"])
        (multiplicative fuel) l
  end

with multiplicative (fuel : nat) : M ASTNode.t :=
  match fuel with
  | O => outOfFuel
  | S fuel =>
      l <- power fuel ;;
      binaryLoop fuel
        (fun tok => hasType tok OPERATOR
                    && Lexer.includes (Token.value tok) ["*"; "/"; "%"])
        (power fuel) l
  end

with power (fuel : nat) : M ASTNode.t :=
  match fuel with
  | O => outOfFuel
  | S fuel =>
      l <- primary fuel ;;
      tok <- currentToken ;;
      if isValue tok OPERATOR "^" then
        operator <- advance ;;
        r <- power fuel ;;   (* right associative *)
        ret (binary (Token.value operator) l r)
      else ret l
  end

with primary (fuel : nat) : M ASTNode.t :=
  match fuel with
  | O => outOfFuel
  | S fuel =>
      token <- currentToken ;;
      if hasType token NUMBER then
        advance ;;;
        ret (ASTNode.num (Num.parseFloat (Token.value token)))
      else if hasType token STRING then
        advance ;;;
        ret (ASTNode.node "string"
               [ASTNode.Value (Some (StringValue (Token.value token)))])
      else if hasType token CHAR then
        advance ;;;
        ret (ASTNode.node "char"
               [ASTNode.Value (Some (StringValue (Token.value token)))])
      else
        (* prefix increment or decrement; without an identifier the
           production goes on with [token] unchanged *)
        prefix <-
          (if hasType token INCREMENT || hasType token DECREMENT then
             op <- advance ;;
             tok <- currentToken ;;
             if hasType tok IDENTIFIER then
               id <- advance ;;
               ret (Some (ASTNode.node "prefix"
                            [ASTNode.Operator (Token.value op);
                             ASTNode.Identifier (Token.value id)]))
             else ret None
           else ret None) ;;
        match prefix with
        | Some n => ret n
        | None =>
          if isValue token LOGICAL "!" then
            advance ;;;
            r <- primary fuel ;;
            ret (binary "!" (ASTNode.num Num.zero) r)
          else if hasType token AMPERSAND then
            advance ;;;
            r <- primary fuel ;;
            ret (ASTNode.node "address_of" [ASTNode.Right r])
          else if isValue token OPERATOR "*" then
            advance ;;;
            r <- primary fuel ;;
            ret (ASTNode.node "dereference" [ASTNode.Right r])
          else if hasType token IDENTIFIER then
            id <- advance ;;
            let id := Token.value id in
            tok <- currentToken ;;
            if hasType tok LBRACKET then
              advance ;;;
              index <- expression fuel ;;
              expect RBRACKET "Expected ] after array index"
                     "Add ] to close array subscript" ;;;
              advance ;;;
              ret (ASTNode.node "array_access"
                     [ASTNode.Identifier id;
                      ASTNode.Value (Some (NodeValue index))])
            else if hasType tok LPAREN then
              advance ;;;
              args <- argumentsLoop fuel (expression fuel) [] ;;
              expect RPAREN "Expected ) after function arguments"
                     "Add ) to close function call" ;;;
              advance ;;;
              ret (ASTNode.node "function_call"
                     [ASTNode.Identifier id; ASTNode.Arguments_ args])
            else
              ret (ASTNode.node "identifier"
                     [ASTNode.Value (Some (StringValue id))])
          else if hasType token LPAREN then
            advance ;;;
            expr <- expression fuel ;;
            tok <- currentToken ;;
            if negb (hasType tok RPAREN) then
              pushError "Missing closing parenthesis"
                        (Token.position token)
                        ("Add ')' after position "
                         ++ showNat (Token.position tok)) ;;;
              throw
            else advance ;;; ret expr
          else if hasType token RPAREN then
            pushError "Unexpected closing parenthesis"
                      (Token.position token)
                      "Remove extra ) or add matching ( before it" ;;;
            throw
          else if hasType token OPERATOR then
            if Lexer.includes (Token.value token) ["+"; "-"] then
              operator <- advance ;;
              operand <- primary fuel ;;
              ret (binary (if String.eqb (Token.value operator) "-"
                           then "unary_neg" else "unary_pos")
                          (ASTNode.num Num.zero) operand)
            else
              pushError ("Expected number or '(' but got operator '"
                         ++ Token.value token ++ "'")
                        (Token.position token)
                        "Add a number or expression before the operator" ;;;
              throw
          else
            pushError ("Expected number or '(' but got '"
                       ++ Token.value token ++ "'")
                      (Token.position token)
                      "Expression must start with a number or (" ;;;
            throw
        end
  end.

(** [program] *)
Definition program (fuel : nat) : M ASTNode.t :=
  statements <- programLoop fuel (statement fuel) [] ;;
  ret (ASTNode.node "program" [ASTNode.Statements statements]).

(** [hasCFeatures] *)
Definition hasCFeatures : bool :=
  existsb (fun t => hasType t KEYWORD || hasType t SEMICOLON || hasType t LBRACE
                    || hasType t RBRACE || hasType t PREPROCESSOR) tokens.

(** The production [parse] starts from. *)
Definition top (fuel : nat) : M ASTNode.t :=
  if hasCFeatures then program fuel else expression fuel.

Definition initial : state := mkState 0 [].

Definition failure (errs : list ParseError.t) : ParseResult.t :=
  ParseResult.mk false None (Some errs).

Definition unexpectedToken (token : Token.t) : ParseError.t :=
  ParseError.mk ("Unexpected token '" ++ Token.value token ++ "'")
                (Token.position token)
                "Check for missing operators, semicolons, or braces".

(** [parse]: [None] when the fuel does not suffice. The [catch] of the
    source catches every exception; the productions throw after a push on
    the error list, which is the case [Thrown] here. An exception of the
    engine (the overflow of the call stack on a deeply nested input) would
    be caught as well, with the errors recorded until then; it has no
    counterpart here and falls under [None]. *)
Definition parse (fuel : nat) : option ParseResult.t :=
  match find (fun t => hasType t INVALID) tokens with
  | Some invalidToken =>
      Some (failure
              [ParseError.mk
                 ("Invalid character '" ++ Token.value invalidToken ++ "'")
                 (Token.position invalidToken)
                 ("Remove '" ++ Token.value invalidToken
                  ++ "' or use valid characters")])
  | None =>
      match top fuel initial with
      | OutOfFuel => None
      | Thrown s => Some (failure (errors s))
      | Ok tree s =>
          match currentToken s with
          | Ok token _ =>
              let errs :=
                if negb (hasType token EOF)
                then push (errors s) (unexpectedToken token)
                else errors s in
              if (0 <? List.length errs)%nat
              then Some (failure errs)
              else Some (ParseResult.mk true (Some tree) None)
          | _ => Some (failure (errors s))
          end
      end
  end.

End Productions.

End Parser.

(** [parseExpression] *)
Definition parseExpression (fuel : nat) (input : string)
  : option ParseResult.t :=
  if String.eqb (Lexer.trim input) EmptyString then
    Some (ParseResult.mk false None
            (Some [ParseError.mk "Empty expression" 0
                     "Enter an arithmetic expression or C program"]))
  else
    match Lexer.tokenize input with
    | Some tokens => Parser.parse tokens fuel
    | None => None
    end.

(* ================================================================== *)
(** * Interpreter *)

(** The values the interpreter computes with: [undefined], [null] and
    numbers. *)
Inductive value : Type :=
  | VUndefined
  | VNull
  | VNumber (n : number).

Module ExecutionResult.
Record t : Type := mk {
  output : list string;
  returnValue : value;
  variables : list (string * value);
  error : option string
}.
End ExecutionResult.

Module FunctionDef.
(** An entry of [this.functions]; [body] is [node.body!], absent when the
    declaration has none. *)
Record t : Type := mk {
  params : list Parameter_.t;
  body : option (nodeBody ASTNode.t);
  returnType : string
}.
End FunctionDef.

(** A JavaScript [Map] in insertion order; a key is a string or
    [undefined] ([None]). *)
Module JsMap.

Definition key : Type := option string.

Definition key_eqb (a b : key) : bool :=
  match a, b with
  | Some x, Some y => String.eqb x y
  | None, None => true
  | _, _ => false
  end.

Definition t (V : Type) : Type := list (key * V).

Fixpoint get {V} (m : t V) (k : key) : option V :=
  match m with
  | [] => None
  | (k', v) :: rest => if key_eqb k' k then Some v else get rest k
  end.

Definition has {V} (m : t V) (k : key) : bool :=
  match get m k with Some _ => true | None => false end.

(** [m.set(k, v)]: an existing key keeps its place. *)
Fixpoint set {V} (m : t V) (k : key) (v : V) : t V :=
  match m with
  | [] => [(k, v)]
  | (k', v') :: rest =>
      if key_eqb k' k then (k, v) :: rest else (k', v') :: set rest k v
  end.

(** [Object.fromEntries(m)]: the keys become strings, a later entry
    replaces an earlier one of the same name. *)
Fixpoint objectSet {V} (o : list (string * V)) (k : string) (v : V)
  : list (string * V) :=
  match o with
  | [] => [(k, v)]
  | (k', v') :: rest =>
      if String.eqb k' k then (k, v) :: rest
      else (k', v') :: objectSet rest k v
  end.

Definition fromEntries {V} (m : t V) : list (string * V) :=
  fold_left (fun o e => objectSet o (showString (fst e)) (snd e)) m [].

End JsMap.

Module Interpreter.

Record state : Type := mkState {
  variables : JsMap.t value;
  functions : JsMap.t FunctionDef.t;
  output : list string;
  returnValue : value;
  breakFlag : bool;
  continueFlag : bool
}.

(** The fields of a fresh [Interpreter]. *)
Definition initial : state := mkState [] [] [] VNull false false.

Definition setVariables (s : state) (v : JsMap.t value) : state :=
  mkState v (functions s) (output s) (returnValue s) (breakFlag s)
          (continueFlag s).
Definition setFunctions (s : state) (f : JsMap.t FunctionDef.t) : state :=
  mkState (variables s) f (output s) (returnValue s) (breakFlag s)
          (continueFlag s).
Definition setOutput (s : state) (o : list string) : state :=
  mkState (variables s) (functions s) o (returnValue s) (breakFlag s)
          (continueFlag s).
Definition setReturnValue (s : state) (r : value) : state :=
  mkState (variables s) (functions s) (output s) r (breakFlag s)
          (continueFlag s).
Definition setBreakFlag (s : state) (b : bool) : state :=
  mkState (variables s) (functions s) (output s) (returnValue s) b
          (continueFlag s).
Definition setContinueFlag (s : state) (b : bool) : state :=
  mkState (variables s) (functions s) (output s) (returnValue s)
          (breakFlag s) b.

(** What a method does: return a value, throw an [Error] with a
    message (the state is the one the [catch] of [execute] sees), or run
    out of fuel. *)
Inductive result (A : Type) : Type :=
  | Ok (a : A) (s : state)
  | Thrown (message : string) (s : state)
  | OutOfFuel
  | NotModelled.
Arguments Ok {A} a s.
Arguments Thrown {A} message s.
Arguments OutOfFuel {A}.
Arguments NotModelled {A}.

Definition M (A : Type) : Type := state -> result A.

Definition ret {A} (a : A) : M A := fun s => Ok a s.

Definition bind {A B} (m : M A) (k : A -> M B) : M B :=
  fun s =>
    match m s with
    | Ok a s' => k a s'
    | Thrown e s' => Thrown e s'
    | OutOfFuel => OutOfFuel
    | NotModelled => NotModelled
    end.

Definition throw {A} (message : string) : M A := fun s => Thrown message s.
Definition outOfFuel {A} : M A := fun _ => OutOfFuel.
Definition notModelled {A} : M A := fun _ => NotModelled.
Definition get : M state := fun s => Ok s s.
Definition modify (f : state -> state) : M unit := fun s => Ok tt (f s).

Notation "x <- m ;; k" := (bind m (fun x => k))
  (at level 61, m at next level, right associativity).
Notation "m ;;; k" := (bind m (fun _ => k))
  (at level 61, right associativity).

(** The message of the TypeError that reading [node.type] raises when
    [node] is [undefined] (the text is the one of V8). *)
Definition typeErrorUndefined : string :=
  "Cannot read properties of undefined (reading 'type')".

Definition zero : value := VNumber Num.zero.
Definition one : value := VNumber Num.one.
Definition ofBool (b : bool) : value := if b then one else zero.

(** The conversion of a value to a number. *)
Definition toNumber (v : value) : number :=
  match v with
  | VUndefined => NaN
  | VNull => Num.zero
  | VNumber n => n
  end.

(** The truth value of a value, as [&&], [||], [!] and [? :] take it. *)
Definition toBoolean (v : value) : bool :=
  match v with
  | VNumber n => Num.toBoolean n
  | _ => false
  end.

(** [a === b] *)
Definition strictEquals (a b : value) : bool :=
  match a, b with
  | VUndefined, VUndefined | VNull, VNull => true
  | VNumber x, VNumber y => Num.eqb x y
  | _, _ => false
  end.

(** [String(v)] *)
Definition toString (v : value) : option string :=
  match v with
  | VUndefined => Some "undefined"
  | VNull => Some "null"
  | VNumber n => Num.toString n
  end.

(** [strings.join(' ')] *)
Fixpoint join (strings : list string) : string :=
  match strings with
  | [] => EmptyString
  | [x] => x
  | x :: rest => x ++ " " ++ join rest
  end.

(** [values.map(String)]; [None] when one of them has no modelled text. *)
Fixpoint mapString (values : list value) : option (list string) :=
  match values with
  | [] => Some []
  | v :: rest =>
      match toString v, mapString rest with
      | Some x, Some xs => Some (x :: xs)
      | _, _ => None
      end
  end.

(** [isTruthy] *)
Definition isTruthy (v : value) : bool :=
  negb (strictEquals v zero) && negb (strictEquals v VNull)
  && negb (strictEquals v VUndefined).

(** The switch on [node.operator] of [evaluateBinaryOp]. *)
Definition binaryOperator (operator : option string) (l r : value)
  : value :=
  let a := toNumber l in
  let b := toNumber r in
  if equals operator "+" then VNumber (Num.add a b)
  else if equals operator "-" then VNumber (Num.sub a b)
  else if equals operator "*" then VNumber (Num.mul a b)
  else if equals operator "/" then VNumber (Num.floor (Num.div a b))
  else if equals operator "%" then VNumber (Num.rem a b)
  else if equals operator "==" then ofBool (strictEquals l r)
  else if equals operator "!=" then ofBool (negb (strictEquals l r))
  else if equals operator "<" then ofBool (Num.ltb a b)
  else if equals operator ">" then ofBool (Num.ltb b a)
  else if equals operator "<=" then ofBool (Num.leb a b)
  else if equals operator ">=" then ofBool (Num.leb b a)
  else if equals operator "&&" then ofBool (toBoolean l && toBoolean r)
  else if equals operator "||" then ofBool (toBoolean l || toBoolean r)
  else if equals operator "!" then ofBool (negb (toBoolean r))
  else zero.

(** [evaluatedArgs[i] || 0] *)
Definition argumentOrZero (evaluatedArgs : list value) (i : nat) : value :=
  let v := nth i evaluatedArgs VUndefined in
  if toBoolean v then v else zero.

(** [func.params.forEach((param, i) => this.variables.set(param.name,
    evaluatedArgs[i] || 0))], from index [i] on. *)
Fixpoint bindParameters (params : list Parameter_.t)
                        (evaluatedArgs : list value) (i : nat)
                        (vars : JsMap.t value) : JsMap.t value :=
  match params with
  | [] => vars
  | param :: rest =>
      bindParameters rest evaluatedArgs (S i)
        (JsMap.set vars (Some (Parameter_.name param))
                   (argumentOrZero evaluatedArgs i))
  end.

(** The labels of the switch of [evaluateBinaryOp]. *)
Definition handledOperators : list string :=
  [ "+"; "-"; "*"; "/"; "%"; "=="; "!="; "<"; ">"; "<="; ">="; "&&"; "||";
    "!" ].

(** The labels of the switch of [interpretNode]. *)
Definition handledTypes : list string :=
  [ "program"; "function_declaration"; "declaration"; "assignment";
    "if_statement"; "while_loop"; "do_while_loop"; "for_loop";
    "switch_statement"; "return_statement"; "break_statement";
    "continue_statement"; "function_call"; "binary_op"; "unary_op";
    "identifier"; "number"; "preprocessor" ].

Definition exits (s : state) : bool :=
  (* this.returnValue !== null || this.breakFlag *)
  negb (strictEquals (returnValue s) VNull) || breakFlag s.

Definition hasType (node : ASTNode.t) (ty : string) : bool :=
  String.eqb (ASTNode.type node) ty.

#[local] Set Warnings "-non-full-mutual".
Fixpoint interpretNode (fuel : nat) (node : ASTNode.t) : M value :=
  match fuel with
  | O => outOfFuel
  | S fuel =>
    if hasType node "program" then
      interpretArray fuel
        (match ASTNode.statements node with Some l => l | None => [] end)
        VUndefined
    else if hasType node "function_declaration" then
      modify (fun s =>
        setFunctions s
          (JsMap.set (functions s) (ASTNode.identifier node)
             (FunctionDef.mk
                (match ASTNode.parameters node with
                 | Some l => l | None => [] end)
                (ASTNode.body node)
                (match ASTNode.returnType node with
                 | Some r => if String.eqb r EmptyString then "int" else r
                 | None => "int"
                 end)))) ;;;
      (* auto-execute main function if it exists *)
      (if equals (ASTNode.identifier node) "main" then
         r <- callFunction fuel (Some "main") [] ;;
         modify (fun s => setReturnValue s r)
       else ret tt) ;;;
      ret VNull
    else if hasType node "declaration" then
      initValue <-
        (match ASTNode.init node with
         | Some init => interpretNode fuel init
         | None => ret zero
         end) ;;
      modify (fun s =>
        setVariables s
          (JsMap.set (variables s) (ASTNode.identifier node) initValue)) ;;;
      ret VNull
    else if hasType node "assignment" then
      v <- interpretOptional fuel (ASTNode.right node) ;;
      modify (fun s =>
        setVariables s
          (JsMap.set (variables s) (ASTNode.identifier node) v)) ;;;
      ret v
    else if hasType node "if_statement" then
      condition <- interpretOptional fuel (ASTNode.condition node) ;;
      if isTruthy condition then interpretBody fuel (ASTNode.body node)
      else
        match ASTNode.elseBranch node with
        | Some e => interpretNode fuel e
        | None => ret VNull
        end
    else if hasType node "while_loop" then
      whileLoop fuel node ;;;
      modify (fun s => setBreakFlag s false) ;;;
      ret VNull
    else if hasType node "do_while_loop" then
      doWhileLoop fuel node ;;;
      modify (fun s => setBreakFlag s false) ;;;
      ret VNull
    else if hasType node "for_loop" then
      (match ASTNode.init node with
       | Some init => interpretNode fuel init ;;; ret tt
       | None => ret tt
       end) ;;;
      forLoop fuel node ;;;
      modify (fun s => setBreakFlag s false) ;;;
      ret VNull
    else if hasType node "switch_statement" then
      testValue <- interpretOptional fuel (ASTNode.test node) ;;
      executeDefault <-
        switchCases fuel testValue
          (match ASTNode.cases node with Some l => l | None => [] end)
          false true ;;
      (match executeDefault, ASTNode.default node with
       | true, Some d =>
           interpretArray fuel d VUndefined ;;;
           modify (fun s => setBreakFlag s false)
       | _, _ => ret tt
       end) ;;;
      ret VNull
    else if hasType node "return_statement" then
      r <-
        (match ASTNode.value node with
         | Some (NodeValue n) => interpretNode fuel n
         | Some (NumberValue n) =>
             ret (if Num.toBoolean n then VNumber n else zero)
         | Some (StringValue _) | None => ret zero
         end) ;;
      modify (fun s => setReturnValue s r) ;;;
      ret r
    else if hasType node "break_statement" then
      modify (fun s => setBreakFlag s true) ;;; ret VNull
    else if hasType node "continue_statement" then
      modify (fun s => setContinueFlag s true) ;;; ret VNull
    else if hasType node "function_call" then
      callFunction fuel (ASTNode.identifier node)
        (match ASTNode.arguments node with Some l => l | None => [] end)
    else if hasType node "binary_op" then
      evaluateBinaryOp fuel node
    else if hasType node "unary_op" then
      operand <- interpretOptional fuel (ASTNode.right node) ;;
      if equals (ASTNode.operator node) "-"
      then ret (VNumber (Num.neg (toNumber operand)))
      else if equals (ASTNode.operator node) "!"
      then ret (ofBool (negb (toBoolean operand)))
      else ret operand
    else if hasType node "identifier" then
      s <- get ;;
      match JsMap.get (variables s) (ASTNode.identifier node) with
      | Some v => ret v
      | None => ret zero   (* default value for undefined variables *)
      end
    else if hasType node "number" then
      match ASTNode.value node with
      | Some (NumberValue n) => ret (VNumber n)
      | None => ret VUndefined
      | Some _ => notModelled
      end
    else if hasType node "preprocessor" then ret VNull
    else ret VNull
  end

(** [interpretNode(nodes)] on an array; [lastValue] is the value of the
    last statement run. *)
with interpretArray (fuel : nat) (nodes : list ASTNode.t)
                    (lastValue : value) : M value :=
  match fuel with
  | O => outOfFuel
  | S fuel =>
      match nodes with
      | [] => ret lastValue
      | stmt :: rest =>
          s <- get ;;
          if exits s || continueFlag s then ret lastValue
          else
            v <- interpretNode fuel stmt ;;
            interpretArray fuel rest v
      end
  end

(** [interpretNode(n!)] for an optional node: reading the type of
    [undefined] throws. *)
with interpretOptional (fuel : nat) (node : option ASTNode.t) : M value :=
  match fuel with
  | O => outOfFuel
  | S fuel =>
      match node with
      | Some n => interpretNode fuel n
      | None => throw typeErrorUndefined
      end
  end

(** [interpretNode(body!)] for [body?: ASTNode | ASTNode[]]. *)
with interpretBody (fuel : nat) (body : option (nodeBody ASTNode.t))
  : M value :=
  match fuel with
  | O => outOfFuel
  | S fuel =>
      match body with
      | Some (Single n) => interpretNode fuel n
      | Some (Several l) => interpretArray fuel l VUndefined
      | None => throw typeErrorUndefined
      end
  end

(** The [while] statement of the case ['while_loop']. *)
with whileLoop (fuel : nat) (node : ASTNode.t) : M unit :=
  match fuel with
  | O => outOfFuel
  | S fuel =>
      c <- interpretOptional fuel (ASTNode.condition node) ;;
      if isTruthy c then
        interpretBody fuel (ASTNode.body node) ;;;
        s <- get ;;
        if exits s then ret tt
        else
          (if continueFlag s
           then modify (fun s => setContinueFlag s false)
           else ret tt) ;;;
          whileLoop fuel node
      else ret tt
  end

(** The [do ... while] statement of the case ['do_while_loop']. *)
with doWhileLoop (fuel : nat) (node : ASTNode.t) : M unit :=
  match fuel with
  | O => outOfFuel
  | S fuel =>
      interpretBody fuel (ASTNode.body node) ;;;
      s <- get ;;
      if exits s then ret tt
      else
        (if continueFlag s
         then modify (fun s => setContinueFlag s false)
         else ret tt) ;;;
        c <- interpretOptional fuel (ASTNode.condition node) ;;
        if isTruthy c then doWhileLoop fuel node else ret tt
  end

(** The [while] statement of the case ['for_loop']. *)
with forLoop (fuel : nat) (node : ASTNode.t) : M unit :=
  match fuel with
  | O => outOfFuel
  | S fuel =>
      c <-
        (match ASTNode.condition node with
         | Some cond =>
             v <- interpretNode fuel cond ;; ret (isTruthy v)
         | None => ret true
         end) ;;
      if c : bool then
        interpretBody fuel (ASTNode.body node) ;;;
        s <- get ;;
        if exits s then ret tt
        else
          (if continueFlag s
           then modify (fun s => setContinueFlag s false)
           else ret tt) ;;;
          (match ASTNode.increment node with
           | Some inc => interpretNode fuel inc ;;; ret tt
           | None => ret tt
           end) ;;;
          forLoop fuel node
      else ret tt
  end

(** The [for ... of] over the cases of a switch; the result is
    [executeDefault]. *)
with switchCases (fuel : nat) (testValue : value)
                 (cases : list (ASTNode.t * list ASTNode.t))
                 (matched executeDefault : bool) : M bool :=
  match fuel with
  | O => outOfFuel
  | S fuel =>
      match cases with
      | [] => ret executeDefault
      | (caseValueNode, caseBody) :: rest =>
          caseValue <- interpretNode fuel caseValueNode ;;
          if strictEquals testValue caseValue || matched then
            interpretArray fuel caseBody VUndefined ;;;
            s <- get ;;
            if breakFlag s
            then modify (fun s => setBreakFlag s false) ;;; ret false
            else switchCases fuel testValue rest true false
          else switchCases fuel testValue rest matched executeDefault
      end
  end

(** [args.map(arg => this.interpretNode(arg))] *)
with evaluateArguments (fuel : nat) (args : list ASTNode.t)
  : M (list value) :=
  match fuel with
  | O => outOfFuel
  | S fuel =>
      match args with
      | [] => ret []
      | arg :: rest =>
          v <- interpretNode fuel arg ;;
          vs <- evaluateArguments fuel rest ;;
          ret (v :: vs)
      end
  end

with callFunction (fuel : nat) (name : option string)
                  (args : list ASTNode.t) : M value :=
  match fuel with
  | O => outOfFuel
  | S fuel =>
      if equals name "printf" then
        evaluatedArgs <- evaluateArguments fuel args ;;
        match mapString evaluatedArgs with
        | Some strings =>
            modify (fun s => setOutput s (push (output s) (join strings))) ;;;
            ret zero
        | None => notModelled
        end
      else
        s0 <- get ;;
        match JsMap.get (functions s0) name with
        | None =>
            throw ("Function " ++ showString name ++ " not defined")
        | Some func =>
            (* create new scope for function parameters *)
            let previousVars := variables s0 in
            evaluatedArgs <- evaluateArguments fuel args ;;
            modify (fun s =>
              setVariables s
                (bindParameters (FunctionDef.params func) evaluatedArgs 0
                                (variables s))) ;;;
            s1 <- get ;;
            let previousReturn := returnValue s1 in
            modify (fun s => setReturnValue s VNull) ;;;
            interpretBody fuel (FunctionDef.body func) ;;;
            s2 <- get ;;
            let result := if strictEquals (returnValue s2) VNull
                          then zero else returnValue s2 in
            (* restore previous scope *)
            modify (fun s => setReturnValue s previousReturn) ;;;
            modify (fun s => setVariables s previousVars) ;;;
            ret result
        end
  end

with evaluateBinaryOp (fuel : nat) (node : ASTNode.t) : M value :=
  match fuel with
  | O => outOfFuel
  | S fuel =>
      l <- interpretOptional fuel (ASTNode.left node) ;;
      r <- interpretOptional fuel (ASTNode.right node) ;;
      ret (binaryOperator (ASTNode.operator node) l r)
  end.

(** What [execute] gives within the fuel. [Exhausted] stands for a run that
    needs more fuel: one that does not end, or one whose calls nest deeper
    than the fuel. The error that an engine raises when its call stack
    overflows, which the [catch] of [execute] would report, has no
    counterpart here and falls under [Exhausted]. *)
Inductive execution : Type :=
  | Result (r : ExecutionResult.t)
  | Exhausted
  | OutsideModel.

Definition execute (fuel : nat) (node : ASTNode.t) : execution :=
  match interpretNode fuel node initial with
  | Ok _ s =>
      Result (ExecutionResult.mk (output s) (returnValue s)
                (JsMap.fromEntries (variables s)) None)
  | Thrown message s =>
      Result (ExecutionResult.mk (output s) VNull
                (JsMap.fromEntries (variables s)) (Some message))
  | OutOfFuel => Exhausted
  | NotModelled => OutsideModel
  end.

End Interpreter.

(** [executeProgram] *)
Definition executeProgram (fuel : nat) (ast : ASTNode.t)
  : Interpreter.execution :=
  Interpreter.execute fuel ast.

(** Parse a text and execute its tree, as the page does. *)
Definition run (fuel : nat) (input : string) : option Interpreter.execution :=
  match parseExpression fuel input with
  | Some (ParseResult.mk true (Some tree) _) => Some (executeProgram fuel tree)
  | _ => None
  end.

(* ================================================================== *)
(** * Vocabulary of the statements, sample inputs *)

Definition notEOF (t : Token.t) : Prop := Token.type t <> EOF.

Definition eofToken (pos : nat) : Token.t := Token.mk EOF EmptyString pos.

(** An operator that is no label of a switch falls to its [default]. *)
Definition unhandled (operator : option string) (labels : list string)
  : Prop :=
  match operator with
  | Some op => Lexer.includes op labels = false
  | None => True
  end.

(** The statement types the parser produces and the interpreter has no
    case for. *)
Definition skippedParserTypes : list string :=
  [ "block"; "switch"; "do_while"; "return"; "break"; "continue";
    "postfix"; "prefix"; "function" ].

(** A state a loop goes on from: no return value is set and the break flag
    is down. *)
Definition running (s : Interpreter.state) : Prop :=
  Interpreter.exits s = false.

(** From a state of [Inv] the computation [m] never throws: within the
    fuel it returns a value of [P] in a state of [Inv]. *)
Definition staysIn {A : Type} (Inv : Interpreter.state -> Prop)
                   (P : A -> Prop) (m : nat -> Interpreter.M A) : Prop :=
  forall fuel s, Inv s ->
    match m fuel s with
    | Interpreter.Ok a s' => P a /\ Inv s'
    | Interpreter.OutOfFuel => True
    | _ => False
    end.

(** A variable reference in the shape the interpreter reads. *)
Definition variableNode (name : string) : ASTNode.t :=
  ASTNode.node "identifier" [ASTNode.Identifier name].

(** A function in the shape the interpreter reads:
    [f(a, b) { c = a; return a + b; }], and a state in which it is defined
    and [x] is 1. *)
Definition sampleFunction : FunctionDef.t :=
  FunctionDef.mk
    [Parameter_.mk "int" "a"; Parameter_.mk "int" "b"]
    (Some (Several
       [ ASTNode.node "declaration"
           [ASTNode.Identifier "c"; ASTNode.Init (Some (variableNode "a"))];
         ASTNode.node "return_statement"
           [ASTNode.Value
              (Some (NodeValue
                 (Parser.binary "+" (variableNode "a") (variableNode "b"))))]
       ]))
    "int".

Definition sampleState : Interpreter.state :=
  Interpreter.mkState [(Some "x", VNumber (Num.ofZ 1))]
                      [(Some "f", sampleFunction)] [] VNull false false.

(** The tree of the text [while (1) { }]. *)
Definition loopForever : ASTNode.t :=
  ASTNode.node "program"
    [ASTNode.Statements
       [ASTNode.node "while_loop"
          [ASTNode.Condition (Some (ASTNode.num (Num.ofZ 1)));
           ASTNode.Body
             (Single (ASTNode.node "block" [ASTNode.Statements []]))]]].

(** The tree of the text [for (int i = 0; i < 3; i++) { }]. *)
Definition countingLoopText : string := "for (int i = 0; i < 3; i++) { }".

Definition countingLoop : ASTNode.t :=
  ASTNode.node "program"
    [ASTNode.Statements
       [ASTNode.node "for_loop"
          [ASTNode.Init
             (Some (ASTNode.node "declaration"
                      [ASTNode.DataType "int"; ASTNode.Identifier "i";
                       ASTNode.Init (Some (ASTNode.num (Num.ofZ 0)));
                       ASTNode.IsPointer false]));
           ASTNode.Condition
             (Some (Parser.binary "<"
                      (ASTNode.node "identifier"
                         [ASTNode.Value (Some (StringValue "i"))])
                      (ASTNode.num (Num.ofZ 3))));
           ASTNode.Increment
             (Some (ASTNode.node "postfix"
                      [ASTNode.Operator "++"; ASTNode.Identifier "i"]));
           ASTNode.Body
             (Single (ASTNode.node "block" [ASTNode.Statements []]))]]].

(** The states in which the key [undefined] has no variable. *)
Definition noUndefinedKey (s : Interpreter.state) : Prop :=
  running s /\ JsMap.get (Interpreter.variables s) None = None.

(** The node [-7 / 2] with literal operands. *)
Definition minusSevenByTwo : ASTNode.t :=
  Parser.binary "/" (ASTNode.num (Num.ofZ (-7))) (ASTNode.num (Num.ofZ 2)).



(** The tokens of the text [1 2]. *)
Definition oneTwoTokens : list Token.t :=
  [ Token.mk NUMBER "1" 0; Token.mk NUMBER "2" 2; Token.mk EOF EmptyString 3 ].

(** The tree that groups [2 ^ 3 ^ 2] to the right. *)
Definition twoPowerThreePowerTwo : ASTNode.t :=
  Parser.binary "^" (ASTNode.num (Num.ofZ 2))
    (Parser.binary "^" (ASTNode.num (Num.ofZ 3)) (ASTNode.num (Num.ofZ 2))).

Definition mainProgramText : string :=
  "int main() { int x = 5; int y = 3; printf(x + y); return x * y; }".

(** The result of a run that wrote nothing, returned nothing, left no
    variable and raised no error. *)
Definition nothingDone : ExecutionResult.t :=
  ExecutionResult.mk [] VNull [] None.

(** The same program in the shape the interpreter reads: a
    'function_declaration' whose body is a statement list, variables read
    through [identifier], a 'return_statement'. *)
Definition mainInterpreterShape : ASTNode.t :=
  ASTNode.node "program"
    [ASTNode.Statements
       [ASTNode.node "function_declaration"
          [ASTNode.ReturnType "int"; ASTNode.Identifier "main";
           ASTNode.Parameters [];
           ASTNode.Body
             (Several
                [ ASTNode.node "declaration"
                    [ASTNode.DataType "int"; ASTNode.Identifier "x";
                     ASTNode.Init (Some (ASTNode.num (Num.ofZ 5)))];
                  ASTNode.node "declaration"
                    [ASTNode.DataType "int"; ASTNode.Identifier "y";
                     ASTNode.Init (Some (ASTNode.num (Num.ofZ 3)))];
                  ASTNode.node "function_call"
                    [ASTNode.Identifier "printf";
                     ASTNode.Arguments_
                       [Parser.binary "+" (variableNode "x")
                                      (variableNode "y")]];
                  ASTNode.node "return_statement"
                    [ASTNode.Value
                       (Some (NodeValue
                          (Parser.binary "*" (variableNode "x")
                                         (variableNode "y"))))] ])]]].


(** The tokens of [l] lie in [input] from the offset [lo] on, in order and
    without overlap, and the text of each one is the text of the input at
    its position. Only the last token may have an empty text. *)
Fixpoint wellPlaced (input : string) (lo : nat) (l : list Token.t) : Prop :=
  match l with
  | [] => True
  | t :: rest =>
      lo <= Token.position t
      /\ substring (Token.position t) (String.length (Token.value t)) input
         = Token.value t
      /\ Token.position t + String.length (Token.value t)
         <= String.length input
      /\ (rest <> [] -> Token.value t <> EmptyString)
      /\ wellPlaced input
           (Token.position t + String.length (Token.value t)) rest
  end.

(** A text made of blanks only (the empty text is one). *)
Fixpoint allWhitespace (s : string) : bool :=
  match s with
  | EmptyString => true
  | String c rest => Lexer.isWhitespace c && allWhitespace rest
  end.

Definition startsWithDigit (s : string) : bool :=
  match s with
  | String c _ => Lexer.isDigit c
  | EmptyString => false
  end.

(** What the type of a token says of its text. *)
Definition classified (t : Token.t) : Prop :=
  match Token.type t with
  | NUMBER => startsWithDigit (Token.value t) = true
  | KEYWORD => Lexer.includes (Token.value t) Lexer.keywords = true
  | IDENTIFIER => Lexer.includes (Token.value t) Lexer.keywords = false
  | INVALID => String.length (Token.value t) = 1
  | _ => True
  end.

(** Whenever the production [m] throws, an error has been recorded. *)
Definition throwsWithError {A : Type} (m : Parser.M A) : Prop :=
  forall s,
    match m s with
    | Parser.Thrown s' => Parser.errors s' <> []
    | _ => True
    end.

(** The trees of depth at most [d] made of literals that are neither NaN
    nor the negative zero (so of every literal that [parseFloat] gives)
    and of the operators the evaluator and the interpreter compute
    alike. *)
Inductive arithmeticTree : nat -> ASTNode.t -> Prop :=
  | arithmetic_literal (d : nat) (node : ASTNode.t) (n : number) :
      ASTNode.type node = "number" ->
      ASTNode.value node = Some (NumberValue n) ->
      n <> NaN ->
      n <> S754_zero true ->
      arithmeticTree d node
  | arithmetic_binary (d : nat) (node l r : ASTNode.t) (op : string) :
      ASTNode.type node = "binary_op" ->
      ASTNode.operator node = Some op ->
      In op ["+"; "-"; "*"; "%"] ->
      ASTNode.left node = Some l ->
      ASTNode.right node = Some r ->
      arithmeticTree d l ->
      arithmeticTree d r ->
      arithmeticTree (S d) node.

(** The tree of [2 + 3 * 4]. *)
Definition twoPlusThreeTimesFour : ASTNode.t :=
  Parser.binary "+" (ASTNode.num (Num.ofZ 2))
    (Parser.binary "*" (ASTNode.num (Num.ofZ 3)) (ASTNode.num (Num.ofZ 4))).

(** The node [5 / 0] with literal operands. *)
Definition fiveByZero : ASTNode.t :=
  Parser.binary "/" (ASTNode.num (Num.ofZ 5)) (ASTNode.num (Num.ofZ 0)).

(** The operators of the interpreter that compare or combine truth
    values. *)
Definition booleanOperators : list string :=
  [ "=="; "!="; "<"; ">"; "<="; ">="; "&&"; "||"; "!" ].

(** A call of [g], which no state defines. *)
Definition callOfG : ASTNode.t :=
  ASTNode.node "function_call"
    [ASTNode.Identifier "g"; ASTNode.Arguments_ [ASTNode.num (Num.ofZ 1)]].

(** [s'] has the output lines of [s] and possibly more after them. *)
Definition outputGrows (s s' : Interpreter.state) : Prop :=
  exists more,
    Interpreter.output s' = (Interpreter.output s ++ more)%list.

(** The computation [m] relates the state it ends in (returning or
    throwing) to the one it starts from by [R], and throws messages of [P]
    only. *)
Definition keeps {A : Type}
    (R : Interpreter.state -> Interpreter.state -> Prop)
    (P : string -> Prop) (m : Interpreter.M A) : Prop :=
  forall s,
    match m s with
    | Interpreter.Ok _ s' => R s s'
    | Interpreter.Thrown e s' => R s s' /\ P e
    | _ => True
    end.

(** The state a computation ends in, returning or throwing. *)
Definition endsIn {A : Type} (r : Interpreter.result A)
                  (s' : Interpreter.state) : Prop :=
  match r with
  | Interpreter.Ok _ s | Interpreter.Thrown _ s => s = s'
  | _ => False
  end.

(** A call of the output primitive on the literal 1, and the state it
    leaves [sampleState] in. *)
Definition printOne : ASTNode.t :=
  ASTNode.node "function_call"
    [ASTNode.Identifier "printf";
     ASTNode.Arguments_ [ASTNode.num (Num.ofZ 1)]].

Definition onePrinted : Interpreter.state :=
  Interpreter.setOutput sampleState ["1"].

(** [o] is set, [o] is [undefined]. *)
Definition present {A : Type} (o : option A) : bool :=
  match o with Some _ => true | None => false end.

Definition absent {A : Type} (o : option A) : bool := negb (present o).

(** The shape of the nodes the productions of the parser return, by type:
    the properties that are set of those the interpreter reads. *)
Definition parserShape (node : ASTNode.t) : bool :=
  let ty := ASTNode.type node in
  if String.eqb ty "number" then
    match ASTNode.value node with
    | Some (NumberValue _) => true
    | _ => false
    end
  else if String.eqb ty "identifier" then
    absent (ASTNode.identifier node)
    && match ASTNode.value node with
       | Some (StringValue _) => true
       | _ => false
       end
  else if String.eqb ty "binary_op" then
    present (ASTNode.operator node) && present (ASTNode.left node)
    && present (ASTNode.right node)
  else if String.eqb ty "assignment" then
    present (ASTNode.identifier node) && absent (ASTNode.right node)
  else if String.eqb ty "declaration" then
    present (ASTNode.identifier node)
  else if String.eqb ty "function_call" then
    present (ASTNode.identifier node) && present (ASTNode.arguments node)
  else if String.eqb ty "if_statement" then
    present (ASTNode.condition node) && present (ASTNode.body node)
  else if String.eqb ty "while_loop" then
    present (ASTNode.condition node) && present (ASTNode.body node)
  else if String.eqb ty "for_loop" then present (ASTNode.body node)
  else
    Lexer.includes ty
      [ "program"; "function"; "block"; "do_while"; "switch"; "return";
        "break"; "continue"; "postfix"; "prefix"; "string"; "char";
        "address_of"; "dereference"; "array_access" ].

Definition shaped (node : ASTNode.t) : Prop := parserShape node = true.

Definition shapedOption (o : option ASTNode.t) : Prop :=
  match o with
  | Some node => shaped node
  | None => True
  end.

(** The cases of the interpreter for which the parser makes no node. *)
Definition interpreterOnlyTypes : list string :=
  [ "function_declaration"; "do_while_loop"; "switch_statement";
    "return_statement"; "break_statement"; "continue_statement";
    "unary_op" ].

(** Whatever the production [m] returns is in [Q]. *)
Definition yields {A : Type} (Q : A -> Prop) (m : Parser.M A) : Prop :=
  forall s,
    match m s with
    | Parser.Ok a _ => Q a
    | _ => True
    end.

(** The tokens of the text [x]: one identifier. *)
Definition oneIdentifier : list Token.t :=
  [ Token.mk IDENTIFIER "x" 0; Token.mk EOF EmptyString 1 ].

(** The nodes the parser makes of the texts [x = 5;], [x] and [-5]. *)
Definition assignFive : ASTNode.t :=
  ASTNode.node "assignment"
    [ASTNode.Identifier "x";
     ASTNode.Value (Some (NodeValue (ASTNode.num (Num.ofZ 5))));
     ASTNode.Operator "="].

Definition parsedX : ASTNode.t :=
  ASTNode.node "identifier" [ASTNode.Value (Some (StringValue "x"))].

Definition minusFive : ASTNode.t :=
  Parser.binary "unary_neg" (ASTNode.num Num.zero) (ASTNode.num (Num.ofZ 5)).

(** The result of a run that stopped at once on the TypeError of a missing
    node. *)
Definition typeErrorResult : ExecutionResult.t :=
  ExecutionResult.mk [] VNull [] (Some Interpreter.typeErrorUndefined).

(** The statement [return e;] in the shape the interpreter reads. *)
Definition returnOf (e : ASTNode.t) : ASTNode.t :=
  ASTNode.node "return_statement" [ASTNode.Value (Some (NodeValue e))].

(** The function [getX(a) { return x; }] and a state in which it is
    defined and [x] is 1. *)
Definition getX : FunctionDef.t :=
  FunctionDef.mk [Parameter_.mk "int" "a"]
    (Some (Single (returnOf (variableNode "x")))) "int".

Definition stateWithGetX : Interpreter.state :=
  Interpreter.mkState [(Some "x", VNumber (Num.ofZ 1))]
                      [(Some "getX", getX)] [] VNull false false.

(** A loop [while (1) { break; }] in the shape the interpreter reads, with
    the break flag up before it. *)
Definition breakingLoop : ASTNode.t :=
  ASTNode.node "while_loop"
    [ASTNode.Condition (Some (ASTNode.num (Num.ofZ 1)));
     ASTNode.Body (Several [ASTNode.node "break_statement" []])].

(** A declaration of [main] with the body [return 0;], in the shape the
    interpreter reads. *)
Definition mainReturningZero : ASTNode.t :=
  ASTNode.node "function_declaration"
    [ASTNode.Identifier "main"; ASTNode.Parameters [];
     ASTNode.Body (Single (returnOf (ASTNode.num (Num.ofZ 0))))].

Definition isNaN (v : value) : bool :=
  match v with
  | VNumber NaN => true
  | _ => false
  end.

(** The state after the declaration [mainReturningZero] has been run
    from the initial state. *)
Definition mainDone : Interpreter.state :=
  Interpreter.mkState []
    [(Some "main",
      FunctionDef.mk [] (Some (Single (returnOf (ASTNode.num (Num.ofZ 0)))))
                     "int")]
    [] Interpreter.zero false false.

(** A number of the sign [s] that is not NaN, with a mantissa of at most
    53 bits when it is finite. *)
Definition signed (s : bool) (a : number) : Prop :=
  match a with
  | S754_zero s' | S754_infinity s' => s' = s
  | S754_finite s' m _ => s' = s /\ (Zpos m < 2 ^ 53)%Z
  | S754_nan => False
  end.

(** A number whose mantissa, when it is finite, has at most 53 bits. *)
Definition fits (a : number) : Prop :=
  match a with
  | S754_finite _ m _ => (Zpos m < 2 ^ 53)%Z
  | _ => True
  end.

(** The integer part of a rational, rounding toward zero. *)
Definition truncate (q : Q) : Z :=
  if (Qnum q <? 0)%Z then Qceiling q else Qfloor q.

(** The node [18014398509481982 / 3] with literal operands. *)
Definition bigByThree : ASTNode.t :=
  Parser.binary "/" (ASTNode.num (Num.ofZ 18014398509481982))
                (ASTNode.num (Num.ofZ 3)).


(** The node [3 ^ 40] with literal operands. *)
Definition threePowerForty : ASTNode.t :=
  Parser.binary "^" (ASTNode.num (Num.ofZ 3)) (ASTNode.num (Num.ofZ 40)).

(** The numeral made of a 1 and 309 zeros. *)
Definition longLiteral : string :=
  String "1" (string_of_list_ascii (repeat "0"%char 309)).

(** The tokens of the text [(2 + 3]. *)
Definition unclosedTokens : list Token.t :=
  [ Token.mk LPAREN "(" 0; Token.mk NUMBER "2" 1; Token.mk OPERATOR "+" 3;
    Token.mk NUMBER "3" 5; Token.mk EOF EmptyString 6 ].

(* ================================================================== *)
(** * Properties of the lexer *)

Section LexerFacts.

Import Lexer.

Lemma readLine_length (s : string) :
  String.length (snd (readLine s)) <= String.length s.
Proof.
  induction s as [|c rest IH]; simpl; [lia|].
  destruct (Ascii.eqb c newline); simpl; [lia|].
  destruct (readLine rest); simpl in *; lia.
Qed.

Lemma skipBlockComment_length (s : string) :
  String.length (skipBlockComment s) <= String.length s.
Proof.
  induction s as [|c1 rest IH]; simpl; [lia|].
  destruct rest as [|c2 rest2]; simpl in *; [lia|].
  destruct (Ascii.eqb c1 "*" && Ascii.eqb c2 "/"); simpl; lia.
Qed.

Lemma readIdentifierChars_length (s : string) :
  String.length (snd (readIdentifierChars s)) <= String.length s.
Proof.
  induction s as [|c rest IH]; simpl; [lia|].
  destruct (isIdentChar c); simpl; [|lia].
  destruct (readIdentifierChars rest); simpl in *; lia.
Qed.

Lemma readNumberChars_length (s : string) (hasDot : bool) :
  String.length (snd (readNumberChars s hasDot)) <= String.length s.
Proof.
  revert hasDot; induction s as [|c rest IH]; intros hasDot; simpl; [lia|].
  destruct (isDigit c).
  - specialize (IH hasDot). destruct (readNumberChars rest hasDot);
      simpl in *; lia.
  - destruct (Ascii.eqb c "." && negb hasDot); simpl; [|lia].
    specialize (IH true). destruct (readNumberChars rest true);
      simpl in *; lia.
Qed.

Lemma readStringChars_length (s : string) :
  String.length (snd (readStringChars s)) <= String.length s.
Proof.
  assert (H : forall n s, String.length s <= n ->
              String.length (snd (readStringChars s)) <= String.length s).
  { clear s. induction n as [|n IH]; intros s Hn.
    - destruct s; simpl in *; lia.
    - destruct s as [|c rest]; simpl in *; [lia|].
      destruct (Ascii.eqb c dquote); simpl; [lia|].
      destruct (Ascii.eqb c backslash).
      + destruct rest as [|d rest']; simpl in *; [lia|].
        specialize (IH rest'). destruct (readStringChars rest');
          simpl in *; lia.
      + specialize (IH rest). destruct (readStringChars rest);
          simpl in *; lia. }
  apply (H (String.length s)); lia.
Qed.

Lemma readCharChars_length (s : string) :
  String.length (snd (readCharChars s)) <= String.length s.
Proof.
  induction s as [|c rest IH]; simpl; [lia|].
  destruct (Ascii.eqb c squote); simpl; [lia|].
  destruct (readCharChars rest); simpl in *; lia.
Qed.

Lemma tail_length (s : string) :
  String.length (tail s) <= String.length s.
Proof. destruct s; simpl; lia. Qed.

(** An iteration reads the character at the cursor, and never pushes an
    EOF token. *)
Lemma lexStep_progress (c : ascii) (rest1 : string) (pos : nat)
                       (t : option Token.t) (rest' : string) :
  lexStep c rest1 pos = (t, rest') ->
  String.length rest' <= String.length rest1
  /\ (forall tok, t = Some tok -> notEOF tok).
Proof.
  unfold lexStep, notEOF. cbv zeta.
  pose proof (tail_length rest1) as Htail.
  pose proof (skipBlockComment_length (tail rest1)) as Hblock.
  intros H.
  repeat match type of H with
         | (if ?b then _ else _) = _ => destruct b eqn:?
         end;
    try (injection H as <- <-; split;
         [lia | intros tok [= <-]; simpl; discriminate]);
    try (injection H as <- <-; split; [lia | discriminate]).
  - (* preprocessor line *)
    apply Ascii.eqb_eq in Heqb0; subst c.
    change (readLine (String "#" rest1))
      with (let (l, r) := readLine rest1 in (String "#"%char l, r)) in H.
    pose proof (readLine_length rest1) as Hl.
    destruct (readLine rest1) as [l r]; simpl in *.
    injection H as <- <-; split; [lia | intros tok [= <-]; discriminate].
  - (* string literal *)
    unfold readString in H.
    pose proof (readStringChars_length rest1) as Hl.
    destruct (readStringChars rest1) as [b r]; simpl in *.
    injection H as <- <-; split; [lia | intros tok [= <-]; discriminate].
  - (* character literal *)
    unfold readChar in H.
    pose proof (readCharChars_length rest1) as Hl.
    destruct (readCharChars rest1) as [b r]; simpl in *.
    injection H as <- <-; split; [lia | intros tok [= <-]; discriminate].
  - (* line comment *)
    apply andb_true_iff in Heqb3 as [Hc _].
    apply Ascii.eqb_eq in Hc; subst c.
    change (readLine (String "/" rest1))
      with (let (l, r) := readLine rest1 in (String "/"%char l, r)) in H.
    pose proof (readLine_length rest1) as Hl.
    destruct (readLine rest1) as [l r]; simpl in *.
    injection H as <- <-; split; [lia | discriminate].
  - (* number *)
    unfold readNumber in H. simpl in H. rewrite Heqb5 in H.
    pose proof (readNumberChars_length rest1 false) as Hl.
    destruct (readNumberChars rest1 false) as [n r]; simpl in *.
    injection H as <- <-; split; [lia | intros tok [= <-]; discriminate].
  - (* identifier or keyword *)
    unfold readIdentifier in H. simpl in H.
    unfold isIdentChar in H. rewrite Heqb6 in H. simpl in H.
    pose proof (readIdentifierChars_length rest1) as Hl.
    destruct (readIdentifierChars rest1) as [i r]; cbn [snd] in *.
    injection H as <- <-; split; [lia|].
    intros tok [= <-]; cbn [Token.type].
    match goal with
    | |- (if ?b then _ else _) <> _ => destruct b; discriminate
    end.
Qed.

Lemma Forall_push {A} (P : A -> Prop) (l : list A) (a : A) :
  Forall P l -> P a -> Forall P (push l a).
Proof.
  intros Hl Ha. unfold push. apply Forall_app. split; [exact Hl|].
  constructor; [exact Ha | constructor].
Qed.

(** With more fuel than unread characters the loop ends, on an EOF token
    at the end of the input. *)
Lemma tokenizeLoop_total (fuel : nat) :
  forall (rest : string) (pos : nat) (tokens : list Token.t),
    String.length rest < fuel ->
    Forall notEOF tokens ->
    exists toks,
      tokenizeLoop fuel rest pos tokens
      = Some (push toks (eofToken (pos + String.length rest)))
      /\ Forall notEOF toks.
Proof.
  induction fuel as [|fuel IH]; intros rest pos tokens Hfuel Htok; [lia|].
  destruct rest as [|c rest1]; cbn [tokenizeLoop].
  - exists tokens. rewrite Nat.add_0_r. split; [reflexivity | exact Htok].
  - destruct (lexStep c rest1 pos) as [t rest'] eqn:Hstep.
    apply lexStep_progress in Hstep as [Hlen Ht].
    cbn [String.length] in *.
    destruct (IH rest' (pos + (S (String.length rest1) - String.length rest'))
                 (pushToken tokens t)) as [toks [Heq Hall]].
    + lia.
    + destruct t as [tok|]; cbn [pushToken]; [|exact Htok].
      apply Forall_push; [exact Htok | apply Ht; reflexivity].
    + exists toks. rewrite Heq. split; [|exact Hall].
      do 3 f_equal. lia.
Qed.

End LexerFacts.

(** C4. For every input string [tokenize] returns, and its output is a list
    of tokens none of which is an EOF token, followed by exactly one EOF
    token whose position is the length of the trimmed input. This covers
    the inputs that end inside a block comment, a string or character
    literal, or a preprocessor line. *)
Theorem tokenize_total (source : string) :
  exists toks,
    Lexer.tokenize source
    = Some (toks ++ [Token.mk EOF EmptyString
                       (String.length (Lexer.trim source))])%list
    /\ Forall (fun t => Token.type t <> EOF) toks.
Proof.
  unfold Lexer.tokenize.
  destruct (tokenizeLoop_total (S (String.length (Lexer.trim source)))
              (Lexer.trim source) 0 []) as [toks [Heq Hall]].
  - lia.
  - constructor.
  - exists toks. split; [exact Heq | exact Hall].
Qed.

(** Inputs that end inside a block comment, a string literal, a character
    literal and a preprocessor line. The loop of the block comment stops
    one character before the end, so the last character of an unterminated
    comment is read as a token of its own. *)
Lemma tokenize_unterminated :
  Lexer.tokenize "x /* abc"
  = Some [Token.mk IDENTIFIER "x" 0; Token.mk IDENTIFIER "c" 7;
          Token.mk EOF EmptyString 8]
  /\ Lexer.tokenize (String Lexer.dquote "ab")
     = Some [Token.mk STRING (String Lexer.dquote "ab") 0;
             Token.mk EOF EmptyString 3]
  /\ Lexer.tokenize "'ab"
     = Some [Token.mk CHAR "'ab" 0; Token.mk EOF EmptyString 3]
  /\ Lexer.tokenize "#define N"
     = Some [Token.mk PREPROCESSOR "#define N" 0; Token.mk EOF EmptyString 9].
Proof. repeat split; vm_compute; reflexivity. Qed.

(* ================================================================== *)
(** * Properties of the interpreter *)

Section InterpreterFacts.

Import Interpreter.

(** A node whose type is no label of the switch takes the [default]
    branch. *)
Lemma interpretNode_default (node : ASTNode.t) (fuel : nat) (s : state) :
  Lexer.includes (ASTNode.type node) handledTypes = false ->
  interpretNode (S fuel) node s = Ok VNull s.
Proof.
  intros H. unfold Lexer.includes, handledTypes in H. cbn [existsb] in H.
  repeat (apply orb_false_iff in H as [? H]).
  cbn [interpretNode]. unfold hasType.
  repeat match goal with
         | E : String.eqb _ _ = false |- _ => rewrite E; clear E
         end.
  reflexivity.
Qed.

Lemma interpretNode_binary (node : ASTNode.t) (fuel : nat) (s : state) :
  ASTNode.type node = "binary_op" ->
  interpretNode (S fuel) node s = evaluateBinaryOp fuel node s.
Proof.
  intros H. cbn [interpretNode]. unfold hasType. rewrite H. reflexivity.
Qed.

Lemma interpretNode_identifier (node : ASTNode.t) (fuel : nat) (s : state) :
  ASTNode.type node = "identifier" ->
  interpretNode (S fuel) node s
  = Ok (match JsMap.get (variables s) (ASTNode.identifier node) with
        | Some v => v
        | None => zero
        end) s.
Proof.
  intros H. cbn [interpretNode]. unfold hasType. rewrite H.
  cbn [String.eqb Ascii.eqb Bool.eqb]. unfold bind, get, ret.
  destruct (JsMap.get (variables s) (ASTNode.identifier node)); reflexivity.
Qed.

(** [evaluateBinaryOp], unfolded on operands that evaluate. *)
Lemma evaluateBinaryOp_operands (fuel : nat) (node : ASTNode.t)
                                (s s1 s2 : state) (l r : value) :
  interpretOptional fuel (ASTNode.left node) s = Ok l s1 ->
  interpretOptional fuel (ASTNode.right node) s1 = Ok r s2 ->
  evaluateBinaryOp (S fuel) node s
  = Ok (binaryOperator (ASTNode.operator node) l r) s2.
Proof.
  intros Hl Hr. cbn [evaluateBinaryOp]. unfold bind, ret.
  now rewrite Hl, Hr.
Qed.

Lemma equals_false (name : option string) (text : string) :
  name <> Some text -> equals name text = false.
Proof.
  intros H. destruct name as [n|]; simpl; [|reflexivity].
  destruct (String.eqb n text) eqn:E; [|reflexivity].
  apply String.eqb_eq in E. subst n. contradiction.
Qed.

(** [callFunction] on a name other than the output primitive, unfolded:
    the body runs in the state with the parameters bound and the return
    slot cleared; afterwards the return slot and the variables are the
    ones saved. *)
Lemma callFunction_unfold (fuel : nat) (name : option string)
                          (args : list ASTNode.t) (s : state) :
  equals name "printf" = false ->
  callFunction (S fuel) name args s =
  match JsMap.get (functions s) name with
  | None => Thrown ("Function " ++ showString name ++ " not defined") s
  | Some func =>
      match evaluateArguments fuel args s with
      | Ok evaluatedArgs s1 =>
          match interpretBody fuel (FunctionDef.body func)
                  (setReturnValue
                     (setVariables s1
                        (bindParameters (FunctionDef.params func)
                           evaluatedArgs 0 (variables s1)))
                     VNull) with
          | Ok _ s2 =>
              Ok (if strictEquals (returnValue s2) VNull
                  then zero else returnValue s2)
                 (setVariables (setReturnValue s2 (returnValue s1))
                               (variables s))
          | Thrown e s' => Thrown e s'
          | OutOfFuel => OutOfFuel
          | NotModelled => NotModelled
          end
      | Thrown e s' => Thrown e s'
      | OutOfFuel => OutOfFuel
      | NotModelled => NotModelled
      end
  end.
Proof.
  intros Hname. cbn [callFunction]. rewrite Hname.
  unfold bind, get, modify, ret, throw.
  destruct (JsMap.get (functions s) name) as [func|]; [|reflexivity].
  destruct (evaluateArguments fuel args s) as [vs s1| | |]; reflexivity.
Qed.

(** ** Maps *)

Lemma key_eqb_refl (k : JsMap.key) : JsMap.key_eqb k k = true.
Proof. destruct k; simpl; [apply String.eqb_refl | reflexivity]. Qed.

Lemma key_eqb_eq (a b : JsMap.key) : JsMap.key_eqb a b = true <-> a = b.
Proof.
  destruct a, b; simpl; split; intros H;
    try discriminate; try reflexivity.
  - apply String.eqb_eq in H. now subst.
  - injection H as ->. apply String.eqb_refl.
Qed.

Lemma get_set_same {V} (m : JsMap.t V) (k : JsMap.key) (v : V) :
  JsMap.get (JsMap.set m k v) k = Some v.
Proof.
  induction m as [|[k' v'] m IH]; simpl.
  - now rewrite key_eqb_refl.
  - destruct (JsMap.key_eqb k' k) eqn:E; simpl.
    + now rewrite key_eqb_refl.
    + now rewrite E.
Qed.

Lemma get_set_other {V} (m : JsMap.t V) (k k' : JsMap.key) (v : V) :
  k' <> k -> JsMap.get (JsMap.set m k' v) k = JsMap.get m k.
Proof.
  intros Hne.
  assert (Hk : JsMap.key_eqb k' k = false).
  { destruct (JsMap.key_eqb k' k) eqn:E; [|reflexivity].
    apply key_eqb_eq in E. contradiction. }
  induction m as [|[k0 v0] m IH]; simpl.
  - now rewrite Hk.
  - destruct (JsMap.key_eqb k0 k') eqn:E; simpl.
    + apply key_eqb_eq in E. subst k0. now rewrite Hk.
    + destruct (JsMap.key_eqb k0 k); [reflexivity | exact IH].
Qed.

(** ** Parameter binding *)

Lemma argumentOrZero_missing (evaluatedArgs : list value) (i : nat) :
  List.length evaluatedArgs <= i -> argumentOrZero evaluatedArgs i = zero.
Proof.
  intros H. unfold argumentOrZero. now rewrite nth_overflow.
Qed.

Lemma argumentOrZero_falsy (evaluatedArgs : list value) (i : nat) :
  toBoolean (nth i evaluatedArgs VUndefined) = false ->
  argumentOrZero evaluatedArgs i = zero.
Proof. intros H. unfold argumentOrZero. now rewrite H. Qed.

Lemma bindParameters_other (params : list Parameter_.t) :
  forall (vs : list value) (i : nat) (vars : JsMap.t value) (n : string),
    (forall q, In q params -> Parameter_.name q <> n) ->
    JsMap.get (bindParameters params vs i vars) (Some n)
    = JsMap.get vars (Some n).
Proof.
  induction params as [|param rest IH]; intros vs i vars n Hn; simpl;
    [reflexivity|].
  rewrite IH by (intros q Hq; apply Hn; now right).
  apply get_set_other. intros [= E]. apply (Hn param); [now left | exact E].
Qed.

(** The value a parameter name has after the binding is the one of its
    last occurrence in the parameter list. *)
Lemma bindParameters_get (params : list Parameter_.t) :
  forall (vs : list value) (i k : nat) (vars : JsMap.t value)
         (p : Parameter_.t),
    nth_error params k = Some p ->
    (forall j q, k < j -> nth_error params j = Some q ->
                 Parameter_.name q <> Parameter_.name p) ->
    JsMap.get (bindParameters params vs i vars) (Some (Parameter_.name p))
    = Some (argumentOrZero vs (i + k)).
Proof.
  induction params as [|param rest IH]; intros vs i k vars p Hk Hlater.
  - destruct k; discriminate.
  - destruct k as [|k]; simpl in *.
    + injection Hk as ->. rewrite Nat.add_0_r.
      rewrite bindParameters_other.
      * apply get_set_same.
      * intros q Hq. apply In_nth_error in Hq as [j Hj].
        apply (Hlater (S j)); [lia | exact Hj].
    + rewrite (IH vs (S i) k _ p Hk).
      * f_equal. f_equal. lia.
      * intros j q Hj Hq. apply (Hlater (S j)); [lia | exact Hq].
Qed.

Lemma bindParameters_all_missing (params : list Parameter_.t) :
  forall (vs : list value) (i : nat) (vars : JsMap.t value) (n : string),
    List.length vs <= i ->
    (exists q, In q params /\ Parameter_.name q = n)
    \/ JsMap.get vars (Some n) = Some zero ->
    JsMap.get (bindParameters params vs i vars) (Some n) = Some zero.
Proof.
  induction params as [|param rest IH]; intros vs i vars n Hi H; simpl.
  - destruct H as [[q [[] _]]|H]. exact H.
  - apply IH; [lia|].
    rewrite (argumentOrZero_missing vs i Hi).
    destruct (String.eqb (Parameter_.name param) n) eqn:E.
    + apply String.eqb_eq in E. subst n. right. apply get_set_same.
    + apply String.eqb_neq in E.
      destruct H as [[q [[->|Hq] Hn]]|H].
      * contradiction.
      * left. now exists q.
      * right. rewrite get_set_other; [exact H|]. now intros [= E'].
Qed.

Lemma bindParameters_missing (params : list Parameter_.t) :
  forall (vs : list value) (i k : nat) (vars : JsMap.t value)
         (p : Parameter_.t),
    nth_error params k = Some p ->
    List.length vs <= i + k ->
    JsMap.get (bindParameters params vs i vars) (Some (Parameter_.name p))
    = Some zero.
Proof.
  induction params as [|param rest IH]; intros vs i k vars p Hk Hlen.
  - destruct k; discriminate.
  - destruct k as [|k].
    + apply bindParameters_all_missing; [lia|].
      left. exists p. split; [|reflexivity].
      injection Hk as ->. now left.
    + simpl in *. apply (IH vs (S i) k); [exact Hk | lia].
Qed.

End InterpreterFacts.



(** C6. When a call of a user-defined function (any name but the output
    primitive) completes, the variable mapping is the one that existed when
    the call began: what the callee bound, created or changed is gone, and
    the caller's variables are as they were. *)
Theorem callFunction_restores_variables
    (fuel : nat) (name : option string) (args : list ASTNode.t)
    (s s' : Interpreter.state) (result : value) :
  name <> Some "printf" ->
  Interpreter.callFunction fuel name args s = Interpreter.Ok result s' ->
  Interpreter.variables s' = Interpreter.variables s.
Proof.
  intros Hname Hcall.
  destruct fuel as [|fuel]; [discriminate|].
  rewrite callFunction_unfold in Hcall by (apply equals_false; exact Hname).
  destruct (JsMap.get (Interpreter.functions s) name) as [func|];
    [|discriminate].
  destruct (Interpreter.evaluateArguments fuel args s) as [vs s1| | |];
    try discriminate.
  destruct (Interpreter.interpretBody fuel (FunctionDef.body func) _)
    as [u s2| | |]; try discriminate.
  injection Hcall as _ <-. reflexivity.
Qed.

Lemma callFunction_restores_variables_witness :
  Some "f" <> Some "printf"
  /\ Interpreter.callFunction 10 (Some "f")
       [ASTNode.num (Num.ofZ 7); ASTNode.num (Num.ofZ 2)] sampleState
     = Interpreter.Ok (VNumber (Num.ofZ 9)) sampleState
  /\ Interpreter.variables sampleState = Interpreter.variables sampleState.
Proof.
  split; [discriminate|]. split; [vm_compute; reflexivity|].
  apply (callFunction_restores_variables 10 (Some "f")
           [ASTNode.num (Num.ofZ 7); ASTNode.num (Num.ofZ 2)]
           sampleState sampleState (VNumber (Num.ofZ 9))).
  - discriminate.
  - vm_compute; reflexivity.
Defined.

(** C8. A node whose type is no label of the switch of [interpretNode] is
    interpreted to [null] with the state unchanged; as the root of
    [execute] it gives a result with no error; as a statement of a sequence
    it is skipped and the rest of the sequence runs. The parser's types
    block, switch, do_while, return, break, continue, postfix, prefix and
    function are such types. *)
Theorem unhandled_node_is_skipped (node : ASTNode.t) :
  (In (ASTNode.type node) skippedParserTypes
   \/ Lexer.includes (ASTNode.type node) Interpreter.handledTypes = false) ->
  (forall fuel s,
      Interpreter.interpretNode (S fuel) node s = Interpreter.Ok VNull s)
  /\ (forall fuel,
        executeProgram (S fuel) node
        = Interpreter.Result (ExecutionResult.mk [] VNull [] None))
  /\ (forall fuel rest lastValue s,
        Interpreter.exits s || Interpreter.continueFlag s = false ->
        Interpreter.interpretArray (S (S fuel)) (node :: rest) lastValue s
        = Interpreter.interpretArray (S fuel) rest VNull s).
Proof.
  intros H.
  assert (Hun : Lexer.includes (ASTNode.type node) Interpreter.handledTypes
                = false).
  { destruct H as [H|H]; [|exact H].
    unfold skippedParserTypes in H. cbn [In] in H.
    repeat (destruct H as [<-|H]; [reflexivity|]). contradiction. }
  split; [|split].
  - intros fuel s. apply interpretNode_default. exact Hun.
  - intros fuel. unfold executeProgram, Interpreter.execute.
    rewrite interpretNode_default by exact Hun. reflexivity.
  - intros fuel rest lastValue s Hflags.
    cbn [Interpreter.interpretArray].
    unfold Interpreter.bind at 1, Interpreter.get at 1. rewrite Hflags.
    unfold Interpreter.bind at 1.
    rewrite interpretNode_default by exact Hun. reflexivity.
Qed.

Lemma unhandled_node_is_skipped_witness :
  (In "block" skippedParserTypes
   \/ Lexer.includes "block" Interpreter.handledTypes = false)
  /\ executeProgram 1 (ASTNode.node "block" [ASTNode.Statements []])
     = Interpreter.Result (ExecutionResult.mk [] VNull [] None).
Proof.
  split; [right; reflexivity|].
  apply (unhandled_node_is_skipped
           (ASTNode.node "block" [ASTNode.Statements []])).
  right; reflexivity.
Defined.

(** C9. In a call of a defined user function, the value bound to a
    parameter that has no argument, or whose argument is falsy, is 0. The
    parameter is 0 in the state the body runs in when it has no argument,
    and when its argument is falsy and no later parameter has its name (a
    later parameter of the same name is bound over it). The number of
    arguments raises no error: the outcome of the call is the outcome of the
    body. *)
Theorem missing_or_falsy_argument_is_zero
    (fuel : nat) (name : option string) (func : FunctionDef.t)
    (args : list ASTNode.t) (s s1 : Interpreter.state)
    (evaluatedArgs : list value) (k : nat) (p : Parameter_.t) :
  name <> Some "printf" ->
  JsMap.get (Interpreter.functions s) name = Some func ->
  Interpreter.evaluateArguments fuel args s
  = Interpreter.Ok evaluatedArgs s1 ->
  nth_error (FunctionDef.params func) k = Some p ->
  (List.length evaluatedArgs <= k
   \/ Interpreter.toBoolean (nth k evaluatedArgs VUndefined) = false) ->
  let bound :=
    Interpreter.bindParameters (FunctionDef.params func) evaluatedArgs 0
                               (Interpreter.variables s1) in
  Interpreter.argumentOrZero evaluatedArgs k = Interpreter.zero
  /\ ((List.length evaluatedArgs <= k
       \/ forall j q, k < j ->
                      nth_error (FunctionDef.params func) j = Some q ->
                      Parameter_.name q <> Parameter_.name p) ->
      JsMap.get bound (Some (Parameter_.name p)) = Some Interpreter.zero)
  /\ Interpreter.callFunction (S fuel) name args s
     = match Interpreter.interpretBody fuel (FunctionDef.body func)
               (Interpreter.setReturnValue
                  (Interpreter.setVariables s1 bound) VNull) with
       | Interpreter.Ok _ s2 =>
           Interpreter.Ok
             (if Interpreter.strictEquals (Interpreter.returnValue s2) VNull
              then Interpreter.zero else Interpreter.returnValue s2)
             (Interpreter.setVariables
                (Interpreter.setReturnValue s2 (Interpreter.returnValue s1))
                (Interpreter.variables s))
       | Interpreter.Thrown e s' => Interpreter.Thrown e s'
       | Interpreter.OutOfFuel => Interpreter.OutOfFuel
       | Interpreter.NotModelled => Interpreter.NotModelled
       end.
Proof.
  intros Hname Hfunc Hargs Hp Hk bound.
  assert (Hzero : Interpreter.argumentOrZero evaluatedArgs k
                  = Interpreter.zero).
  { destruct Hk as [Hmissing|Hfalsy].
    - apply argumentOrZero_missing. exact Hmissing.
    - apply argumentOrZero_falsy. exact Hfalsy. }
  split; [exact Hzero|]. split.
  - intros [Hmissing|Hlast].
    + apply (bindParameters_missing _ _ 0 k); [exact Hp | exact Hmissing].
    + unfold bound.
      rewrite (bindParameters_get _ _ 0 k _ p Hp Hlast).
      f_equal. exact Hzero.
  - rewrite callFunction_unfold by (apply equals_false; exact Hname).
    rewrite Hfunc, Hargs. reflexivity.
Qed.

Lemma missing_or_falsy_argument_is_zero_witness :
  Some "f" <> Some "printf"
  /\ Interpreter.callFunction 10 (Some "f") [ASTNode.num (Num.ofZ 5)]
       sampleState
     = Interpreter.Ok (VNumber (Num.ofZ 5)) sampleState
  /\ JsMap.get
       (Interpreter.bindParameters (FunctionDef.params sampleFunction)
          [VNumber (Num.ofZ 5)] 0 (Interpreter.variables sampleState))
       (Some "b")
     = Some Interpreter.zero.
Proof.
  split; [discriminate|].
  destruct (missing_or_falsy_argument_is_zero 9 (Some "f") sampleFunction
              [ASTNode.num (Num.ofZ 5)] sampleState sampleState
              [VNumber (Num.ofZ 5)] 1 (Parameter_.mk "int" "b"))
    as (_ & Hbound & Hcall).
  - discriminate.
  - reflexivity.
  - vm_compute; reflexivity.
  - reflexivity.
  - left. simpl. lia.
  - split; [|apply Hbound; left; simpl; lia].
    rewrite Hcall. vm_compute; reflexivity.
Defined.

(* ================================================================== *)
(** * Loops *)

Section Loops.

Import Interpreter.

(** An invariant of the states the loop goes through: such a state is
    running, and lowering the continue flag keeps it. *)
Variable Inv : state -> Prop.
Hypothesis Inv_running : forall s, Inv s -> running s.
Hypothesis Inv_continue : forall s, Inv s -> Inv (setContinueFlag s false).

(** The [while] statement has no bound of its own: with a condition that
    stays truthy and a body that neither returns, breaks nor throws, no
    amount of fuel is enough. *)
Lemma whileLoop_diverges (node : ASTNode.t) :
  staysIn Inv (fun c => isTruthy c = true)
          (fun fuel => interpretOptional fuel (ASTNode.condition node)) ->
  staysIn Inv (fun _ => True)
          (fun fuel => interpretBody fuel (ASTNode.body node)) ->
  forall fuel s, Inv s -> whileLoop fuel node s = OutOfFuel.
Proof.
  intros Hcond Hbody.
  induction fuel as [|fuel IH]; intros s Hs; [reflexivity|].
  cbn [whileLoop]. unfold bind at 1.
  specialize (Hcond fuel s Hs). cbv beta in Hcond.
  destruct (interpretOptional fuel (ASTNode.condition node) s)
    as [c s1| | |]; try contradiction; [|reflexivity].
  destruct Hcond as [Hc Hs1]. rewrite Hc.
  unfold bind at 1.
  specialize (Hbody fuel s1 Hs1). cbv beta in Hbody.
  destruct (interpretBody fuel (ASTNode.body node) s1)
    as [u s2| | |]; try contradiction; [|reflexivity].
  destruct Hbody as [_ Hs2].
  unfold bind at 1, get at 1.
  rewrite (Inv_running s2 Hs2).
  destruct (continueFlag s2); unfold bind, modify, ret.
  - apply IH. apply Inv_continue. exact Hs2.
  - apply IH. exact Hs2.
Qed.

Lemma interpretNode_while_diverges (node : ASTNode.t) :
  ASTNode.type node = "while_loop" ->
  staysIn Inv (fun c => isTruthy c = true)
          (fun fuel => interpretOptional fuel (ASTNode.condition node)) ->
  staysIn Inv (fun _ => True)
          (fun fuel => interpretBody fuel (ASTNode.body node)) ->
  forall fuel s, Inv s -> interpretNode fuel node s = OutOfFuel.
Proof.
  intros Hty Hcond Hbody fuel s Hs.
  destruct fuel as [|fuel]; [reflexivity|].
  cbn [interpretNode]. unfold hasType. rewrite Hty.
  cbn [String.eqb Ascii.eqb Bool.eqb].
  unfold bind at 1.
  now rewrite (whileLoop_diverges node Hcond Hbody fuel s Hs).
Qed.

(** The same for the [while] statement of a for loop, whose condition
    and increment may be absent. *)
Lemma forLoop_diverges (node : ASTNode.t) :
  match ASTNode.condition node with
  | Some cond => staysIn Inv (fun c => isTruthy c = true)
                         (fun fuel => interpretNode fuel cond)
  | None => True
  end ->
  staysIn Inv (fun _ => True)
          (fun fuel => interpretBody fuel (ASTNode.body node)) ->
  match ASTNode.increment node with
  | Some inc => staysIn Inv (fun _ => True)
                        (fun fuel => interpretNode fuel inc)
  | None => True
  end ->
  forall fuel s, Inv s -> forLoop fuel node s = OutOfFuel.
Proof.
  intros Hcond Hbody Hinc.
  induction fuel as [|fuel IH]; intros s Hs; [reflexivity|].
  assert (Hrest : forall s1, Inv s1 ->
    (interpretBody fuel (ASTNode.body node) ;;;
     s <- get ;;
     if exits s then ret tt
     else
       (if continueFlag s
        then modify (fun s => setContinueFlag s false)
        else ret tt) ;;;
       (match ASTNode.increment node with
        | Some inc => interpretNode fuel inc ;;; ret tt
        | None => ret tt
        end) ;;;
       forLoop fuel node) s1 = OutOfFuel).
  { intros s1 Hs1. unfold bind at 1.
    specialize (Hbody fuel s1 Hs1). cbv beta in Hbody.
    destruct (interpretBody fuel (ASTNode.body node) s1)
      as [u s2| | |]; try contradiction; [|reflexivity].
    destruct Hbody as [_ Hs2].
    unfold bind at 1, get at 1.
    rewrite (Inv_running s2 Hs2).
    assert (Hs3 : exists s3,
               (if continueFlag s2
                then modify (fun s => setContinueFlag s false)
                else ret tt) s2 = Ok tt s3 /\ Inv s3).
    { destruct (continueFlag s2); eexists; (split; [reflexivity|]);
        [apply Inv_continue|]; exact Hs2. }
    destruct Hs3 as [s3 [E3 Hs3]].
    unfold bind at 1. rewrite E3.
    unfold bind at 1.
    destruct (ASTNode.increment node) as [inc|].
    - unfold bind at 1.
      specialize (Hinc fuel s3 Hs3). cbv beta in Hinc.
      destruct (interpretNode fuel inc s3) as [w s4| | |];
        try contradiction; [|reflexivity].
      unfold ret. apply IH. apply Hinc.
    - unfold ret. apply IH. exact Hs3. }
  cbn [forLoop]. unfold bind at 1.
  destruct (ASTNode.condition node) as [cond|].
  - unfold bind at 1.
    specialize (Hcond fuel s Hs). cbv beta in Hcond.
    destruct (interpretNode fuel cond s) as [c s1| | |];
      try contradiction; [|reflexivity].
    destruct Hcond as [Hc Hs1]. unfold ret. rewrite Hc.
    apply Hrest. exact Hs1.
  - unfold ret. apply Hrest. exact Hs.
Qed.

Lemma interpretNode_for_diverges (node : ASTNode.t) :
  ASTNode.type node = "for_loop" ->
  match ASTNode.init node with
  | Some init => staysIn Inv (fun _ => True)
                         (fun fuel => interpretNode fuel init)
  | None => True
  end ->
  match ASTNode.condition node with
  | Some cond => staysIn Inv (fun c => isTruthy c = true)
                         (fun fuel => interpretNode fuel cond)
  | None => True
  end ->
  staysIn Inv (fun _ => True)
          (fun fuel => interpretBody fuel (ASTNode.body node)) ->
  match ASTNode.increment node with
  | Some inc => staysIn Inv (fun _ => True)
                        (fun fuel => interpretNode fuel inc)
  | None => True
  end ->
  forall fuel s, Inv s -> interpretNode fuel node s = OutOfFuel.
Proof.
  intros Hty Hinit Hcond Hbody Hinc fuel s Hs.
  destruct fuel as [|fuel]; [reflexivity|].
  cbn [interpretNode]. unfold hasType. rewrite Hty.
  cbn [String.eqb Ascii.eqb Bool.eqb].
  unfold bind at 1.
  destruct (ASTNode.init node) as [init|].
  - unfold bind at 1.
    specialize (Hinit fuel s Hs). cbv beta in Hinit.
    destruct (interpretNode fuel init s) as [u s1| | |];
      try contradiction; [|reflexivity].
    unfold ret. unfold bind at 1.
    now rewrite (forLoop_diverges node Hcond Hbody Hinc fuel s1 (proj2 Hinit)).
  - unfold ret. unfold bind at 1.
    now rewrite (forLoop_diverges node Hcond Hbody Hinc fuel s Hs).
Qed.

End Loops.

(** The literal 1 is always truthy and the empty block never exits. *)
Lemma one_staysIn :
  staysIn running (fun c => Interpreter.isTruthy c = true)
    (fun fuel =>
       Interpreter.interpretOptional fuel (Some (ASTNode.num (Num.ofZ 1)))).
Proof.
  intros fuel s Hs.
  destruct fuel as [|[|fuel]]; [exact I | exact I |].
  split; [reflexivity | exact Hs].
Qed.

Lemma emptyBlock_staysIn (Inv : Interpreter.state -> Prop) :
  staysIn Inv (fun _ => True)
    (fun fuel =>
       Interpreter.interpretBody fuel
         (Some (Single (ASTNode.node "block" [ASTNode.Statements []])))).
Proof.
  intros fuel s Hs.
  destruct fuel as [|[|fuel]]; [exact I | exact I |].
  split; [exact I | exact Hs].
Qed.

(** The counting loop of the specification's example, as the parser gives
    it: the condition reads the variable through the property [identifier],
    which the parser does not set, so it compares 0 with 3 at every turn;
    the increment has the type 'postfix', which the interpreter skips. The
    loop never ends. *)
Lemma counting_loop_never_returns :
  parseExpression 100 countingLoopText
  = Some (ParseResult.mk true (Some countingLoop) None)
  /\ forall fuel, executeProgram fuel countingLoop = Interpreter.Exhausted.
Proof.
  split; [vm_compute; reflexivity|].
  intros fuel. unfold executeProgram, Interpreter.execute.
  assert (H : Interpreter.interpretNode fuel countingLoop Interpreter.initial
              = Interpreter.OutOfFuel).
  { destruct fuel as [|[|fuel]]; [reflexivity | reflexivity |].
    match goal with
    | |- Interpreter.interpretNode _ _ ?s0 = _ =>
        change (Interpreter.bind
                  (Interpreter.interpretNode fuel
                     (nth 0 (match ASTNode.statements countingLoop with
                             | Some l => l | None => [] end)
                          countingLoop))
                  (fun v => Interpreter.interpretArray fuel [] v) s0
                = Interpreter.OutOfFuel)
    end.
    unfold Interpreter.bind.
    rewrite (interpretNode_for_diverges noUndefinedKey); try reflexivity.
    - intros s [H _]. exact H.
    - intros s H. exact H.
    - (* the declaration of i *)
      intros f s [Hrun Hkey].
      destruct f as [|[|f]]; [exact I | exact I |].
      split; [exact I|]. split; [exact Hrun|].
      cbn [Interpreter.variables Interpreter.setVariables].
      rewrite get_set_other by discriminate. exact Hkey.
    - (* the condition i < 3 *)
      intros f s [Hrun Hkey].
      destruct f as [|[|[|[|f]]]]; [exact I | exact I | exact I | exact I |].
      rewrite interpretNode_binary by reflexivity.
      rewrite (evaluateBinaryOp_operands _ _ s s s
                 Interpreter.zero (VNumber (Num.ofZ 3))).
      + split; [reflexivity|]. split; [exact Hrun | exact Hkey].
      + change (Interpreter.interpretNode (S f)
                  (ASTNode.node "identifier"
                     [ASTNode.Value (Some (StringValue "i"))]) s
                = Interpreter.Ok Interpreter.zero s).
        rewrite interpretNode_identifier by reflexivity.
        change (ASTNode.identifier _) with (@None string).
        now rewrite Hkey.
      + reflexivity.
    - exact (emptyBlock_staysIn noUndefinedKey).
    - (* the increment i++ *)
      intros f s Hs.
      destruct f as [|f]; [exact I|].
      split; [exact I | exact Hs].
    - split; reflexivity. }
  now rewrite H.
Qed.

(** C1. The interpreter counts no steps and has no ceiling: on the tree of
    [while (1) { }], a loop whose condition never becomes false, [execute]
    gives no result (and so no error) whatever the fuel. *)
Theorem infinite_loop_never_returns :
  parseExpression 100 "while (1) { }"
  = Some (ParseResult.mk true (Some loopForever) None)
  /\ forall fuel, executeProgram fuel loopForever = Interpreter.Exhausted.
Proof.
  split; [vm_compute; reflexivity|].
  intros fuel. unfold executeProgram, Interpreter.execute.
  assert (H : Interpreter.interpretNode fuel loopForever Interpreter.initial
              = Interpreter.OutOfFuel).
  { destruct fuel as [|[|fuel]]; [reflexivity | reflexivity |].
    change (Interpreter.interpretNode (S (S fuel)) loopForever
              Interpreter.initial)
      with (Interpreter.bind
              (Interpreter.interpretNode fuel
                 (ASTNode.node "while_loop"
                    [ASTNode.Condition (Some (ASTNode.num (Num.ofZ 1)));
                     ASTNode.Body
                       (Single (ASTNode.node "block"
                                  [ASTNode.Statements []]))]))
              (fun v => Interpreter.interpretArray fuel [] v)
              Interpreter.initial).
    unfold Interpreter.bind.
    rewrite (interpretNode_while_diverges running); try reflexivity.
    - intros s H; exact H.
    - intros s H; exact H.
    - exact one_staysIn.
    - exact (emptyBlock_staysIn running). }
  now rewrite H.
Qed.

(* ================================================================== *)
(** * Binary64 arithmetic *)

Section Floats.

Local Open Scope Z_scope.

Lemma digits2_pos_size (p : positive) : digits2_pos p = Pos.size p.
Proof. induction p as [p IH|p IH|]; simpl; now rewrite ?IH. Qed.

Lemma Zdigits2_bound (m : Z) : 0 <= m -> m < 2 ^ Zdigits2 m.
Proof.
  intros H. destruct m as [|p|p]; [reflexivity| |lia].
  cbn [Zdigits2]. rewrite digits2_pos_size.
  pose proof (Pos.size_gt p) as Hs.
  apply Pos2Z.pos_lt_pos in Hs. rewrite Pos2Z.inj_pow in Hs. exact Hs.
Qed.

Lemma shr_1_m (mrs : shr_record) :
  0 <= shr_m mrs -> shr_m (shr_1 mrs) = shr_m mrs / 2.
Proof.
  destruct mrs as [m r s]. cbn [shr_m]. intros H.
  destruct m as [|[p|p|]|p]; cbn [shr_1 shr_m]; try lia; try reflexivity.
  - rewrite Pos2Z.inj_xI. apply Z.div_unique with 1; lia.
  - rewrite Pos2Z.inj_xO. apply Z.div_unique with 0; lia.
Qed.

Lemma iter_shr_1 (p : positive) :
  forall mrs, 0 <= shr_m mrs ->
    shr_m (iter_pos shr_1 p mrs) = shr_m mrs / 2 ^ Zpos p.
Proof.
  assert (Hdiv : forall m a b, 0 <= a -> 0 <= b ->
            m / 2 ^ a / 2 ^ b = m / 2 ^ (a + b)).
  { intros m a b Ha Hb. rewrite Z.pow_add_r by assumption.
    pose proof (Z.pow_pos_nonneg 2 a). pose proof (Z.pow_pos_nonneg 2 b).
    apply Z.div_div; lia. }
  assert (Hpos : forall m a, 0 <= m -> 0 <= a -> 0 <= m / 2 ^ a).
  { intros m a Hm Ha. apply Z.div_pos; [exact Hm|].
    apply Z.pow_pos_nonneg; lia. }
  induction p as [p IH|p IH|]; intros mrs H; cbn [iter_pos].
  - rewrite IH, IH, shr_1_m by
      (rewrite ?IH, ?shr_1_m; auto; try apply Hpos;
       rewrite ?shr_1_m; auto; try apply Z.div_pos; lia).
    change (shr_m mrs / 2) with (shr_m mrs / 2 ^ 1).
    rewrite !Hdiv by lia. f_equal. f_equal. lia.
  - rewrite IH, IH by (rewrite ?IH; auto; apply Hpos; lia).
    rewrite Hdiv by lia. f_equal. f_equal. lia.
  - now apply shr_1_m.
Qed.

Lemma shr_record_of_loc_m (m : Z) (l : location) :
  shr_m (shr_record_of_loc m l) = m.
Proof. destruct l as [|[]]; reflexivity. Qed.

Lemma fexp_ge (k : Z) : k - 53 <= fexp Num.prec Num.emax k.
Proof. unfold fexp, Num.prec. lia. Qed.

(** Whatever is shifted, the mantissa that is left has at most 53 bits. *)
Lemma shr_fexp_bound (m e : Z) (l : location) :
  0 <= m ->
  0 <= shr_m (fst (shr_fexp Num.prec Num.emax m e l)) < 2 ^ 53.
Proof.
  intros Hm. unfold shr_fexp, shr.
  pose proof (fexp_ge (Zdigits2 m + e)) as Hn.
  pose proof (Zdigits2_bound m Hm) as Hd.
  assert (H0 : 0 <= Zdigits2 m) by (destruct m; simpl; lia).
  destruct (fexp Num.prec Num.emax (Zdigits2 m + e) - e) as [|p|p] eqn:En;
    cbn [fst].
  - rewrite shr_record_of_loc_m. split; [exact Hm|].
    eapply Z.lt_le_trans; [exact Hd|]. apply Z.pow_le_mono_r; lia.
  - rewrite iter_shr_1 by (rewrite shr_record_of_loc_m; exact Hm).
    rewrite shr_record_of_loc_m. split.
    + apply Z.div_pos; [exact Hm | apply Z.pow_pos_nonneg; lia].
    + apply Z.div_lt_upper_bound; [apply Z.pow_pos_nonneg; lia|].
      rewrite <- Z.pow_add_r by lia.
      eapply Z.lt_le_trans; [exact Hd|]. apply Z.pow_le_mono_r; lia.
  - rewrite shr_record_of_loc_m. split; [exact Hm|].
    eapply Z.lt_le_trans; [exact Hd|]. apply Z.pow_le_mono_r; lia.
Qed.

(** Rounding gives a zero, an infinity or a finite number of the sign
    asked for, never NaN. *)
Lemma binary_round_aux_signed (s : bool) (mx ex : Z) (lx : location) :
  0 <= mx -> signed s (binary_round_aux Num.prec Num.emax s mx ex lx).
Proof.
  intros Hm. unfold binary_round_aux.
  pose proof (shr_fexp_bound mx ex lx Hm) as H1.
  destruct (shr_fexp Num.prec Num.emax mx ex lx) as [mrs' e'].
  cbn [fst] in H1.
  assert (Hr : 0 <= round_nearest_even (shr_m mrs') (loc_of_shr_record mrs')).
  { unfold round_nearest_even.
    destruct (loc_of_shr_record mrs') as [|[]]; try lia.
    destruct (Z.even (shr_m mrs')); lia. }
  pose proof (shr_fexp_bound _ e' loc_Exact Hr) as H2.
  destruct (shr_fexp Num.prec Num.emax _ e' loc_Exact) as [mrs'' e''].
  cbn [fst] in H2.
  destruct (shr_m mrs'') as [|m|m]; [reflexivity| |lia].
  destruct (e'' <=? Num.emax - Num.prec); [split; [reflexivity|lia]|].
  reflexivity.
Qed.

Lemma signed_fits (s : bool) (a : number) : signed s a -> fits a.
Proof. destruct a; simpl; tauto. Qed.

Lemma SFdiv_core_nonneg (m1 e1 m2 e2 : Z) :
  0 <= m1 -> 0 < m2 ->
  0 <= fst (fst (SFdiv_core_binary Num.prec Num.emax m1 e1 m2 e2)).
Proof.
  intros H1 H2. unfold SFdiv_core_binary.
  set (s := _ - _ - Z.min _ _).
  set (m' := match s with Z0 => m1 | Zpos _ => Z.shiftl m1 s | Zneg _ => 0 end).
  assert (Hm' : 0 <= m').
  { unfold m'. destruct s; [exact H1| |lia]. now apply Z.shiftl_nonneg. }
  pose proof (Z.div_pos m' m2 Hm' H2) as Hq. unfold Z.div in Hq.
  destruct (Z.div_eucl m' m2) as [q r]. exact Hq.
Qed.

(** A quotient that is finite has a mantissa of at most 53 bits. *)
Lemma div_fits (a b : number) : fits (Num.div a b).
Proof.
  destruct a as [sa|sa| |sa ma ea], b as [sb|sb| |sb mb eb]; try exact I.
  unfold Num.div, SFdiv.
  pose proof (SFdiv_core_nonneg (Zpos ma) ea (Zpos mb) eb) as Hq.
  destruct (SFdiv_core_binary Num.prec Num.emax (Zpos ma) ea (Zpos mb) eb)
    as [[mz ez] lz].
  cbn [fst] in Hq. eapply signed_fits. apply binary_round_aux_signed.
  apply Hq; lia.
Qed.


Lemma iter_xO_digits (p k : positive) :
  Zpos (digits2_pos (Pos.iter xO p k)) = Zpos (digits2_pos p) + Zpos k.
Proof.
  induction k as [|k IH] using Pos.peano_ind.
  - cbn [Pos.iter digits2_pos]. lia.
  - rewrite Pos.iter_succ. cbn [digits2_pos]. lia.
Qed.

Lemma iter_xO_value (p k : positive) :
  Zpos (Pos.iter xO p k) = Zpos p * 2 ^ Zpos k.
Proof.
  induction k as [|k IH] using Pos.peano_ind.
  - cbn [Pos.iter]. lia.
  - rewrite Pos.iter_succ, Pos2Z.inj_xO, IH, Pos2Z.inj_succ.
    rewrite Z.pow_succ_r by lia. lia.
Qed.

Lemma digits_le (p : positive) :
  Zpos p < 2 ^ 53 -> 1 <= Zpos (digits2_pos p) <= 53.
Proof.
  intros H. rewrite digits2_pos_size. split; [lia|].
  pose proof (Pos.size_le p) as Hs.
  apply Pos2Z.pos_le_pos in Hs. rewrite Pos2Z.inj_pow in Hs.
  change (Zpos p~0) with (2 * Zpos p) in Hs.
  destruct (Z.le_gt_cases (Zpos (Pos.size p)) 53) as [Hle|Hgt]; [exact Hle|].
  exfalso.
  assert (2 ^ 54 <= 2 ^ Zpos (Pos.size p)) by (apply Z.pow_le_mono_r; lia).
  change (2 ^ 54) with (2 * 2 ^ 53) in *. lia.
Qed.

Lemma shr_fexp_canonical (mz : positive) (ez : Z) :
  Zpos (digits2_pos mz) = 53 -> -1074 <= ez ->
  shr_fexp Num.prec Num.emax (Zpos mz) ez loc_Exact
  = (Build_shr_record (Zpos mz) false false, ez).
Proof.
  intros Hd He. unfold shr_fexp. cbn [Zdigits2]. rewrite Hd.
  replace (fexp Num.prec Num.emax (53 + ez) - ez) with 0
    by (unfold fexp, emin, Num.prec, Num.emax; lia).
  reflexivity.
Qed.

(** A mantissa of 53 bits with an exponent in range is kept as it is. *)
Lemma binary_round_aux_canonical (s : bool) (mz : positive) (ez : Z) :
  Zpos (digits2_pos mz) = 53 -> -1074 <= ez <= 971 ->
  binary_round_aux Num.prec Num.emax s (Zpos mz) ez loc_Exact
  = S754_finite s mz ez.
Proof.
  intros Hd He. unfold binary_round_aux.
  rewrite shr_fexp_canonical by (assumption || lia).
  cbn [shr_m loc_of_shr_record round_nearest_even].
  rewrite shr_fexp_canonical by (assumption || lia).
  cbn [shr_m].
  replace (ez <=? Num.emax - Num.prec) with true; [reflexivity|].
  symmetry. apply Z.leb_le. unfold Num.emax, Num.prec. lia.
Qed.

(** An integer of at most 53 bits is a number: its mantissa is the
    integer shifted to 53 bits. *)
Lemma binary_round_small (s : bool) (p : positive) :
  Zpos p < 2 ^ 53 ->
  exists m e,
    binary_round Num.prec Num.emax s p 0 = S754_finite s m e
    /\ -52 <= e <= 0
    /\ Zpos m = Zpos p * 2 ^ (- e).
Proof.
  intros Hp. pose proof (digits_le p Hp) as Hd.
  unfold binary_round, shl_align.
  replace (fexp Num.prec Num.emax (Zpos (digits2_pos p) + 0))
    with (Zpos (digits2_pos p) - 53)
    by (unfold fexp, emin, Num.prec, Num.emax; lia).
  destruct (Zpos (digits2_pos p) - 53 - 0) as [|k|k] eqn:Ek; try lia.
  - exists p, 0. split; [|split; [lia|]].
    + apply binary_round_aux_canonical; lia.
    + cbn. lia.
  - exists (Pos.iter xO p k), (Zpos (digits2_pos p) - 53).
    split; [|split; [lia|]].
    + apply binary_round_aux_canonical; [|lia].
      rewrite iter_xO_digits. lia.
    + rewrite iter_xO_value. f_equal. f_equal. lia.
Qed.

Lemma toInteger_scaled (s : bool) (m p : positive) (e : Z) :
  e <= 0 -> Zpos m = Zpos p * 2 ^ (- e) ->
  Num.toInteger (S754_finite s m e) = Some (cond_Zopp s (Zpos p)).
Proof.
  intros He Hm. unfold Num.toInteger.
  destruct (0 <=? e) eqn:E.
  - apply Z.leb_le in E. assert (e = 0) by lia. subst e.
    cbn in Hm. rewrite Z.pow_0_r. f_equal. f_equal. lia.
  - apply Z.leb_gt in E.
    assert (Hpow : 0 < 2 ^ (- e)) by (apply Z.pow_pos_nonneg; lia).
    rewrite Hm, Z.mod_mul by lia. cbn [Z.eqb].
    rewrite Z.shiftr_div_pow2 by lia. rewrite Z.div_mul by lia.
    reflexivity.
Qed.

Lemma toInteger_normalize (z : Z) (sz : bool) :
  Z.abs z < 2 ^ 53 ->
  Num.toInteger (binary_normalize Num.prec Num.emax z 0 sz) = Some z.
Proof.
  intros Hz. destruct z as [|p|p]; cbn [binary_normalize].
  - reflexivity.
  - destruct (binary_round_small false p Hz) as (m & e & -> & He & Hm).
    apply (toInteger_scaled false m p e); [lia | exact Hm].
  - destruct (binary_round_small true p Hz) as (m & e & -> & He & Hm).
    apply (toInteger_scaled true m p e); [lia | exact Hm].
Qed.


(** [Math.floor] of a zero or of a finite number whose mantissa has at
    most 53 bits is the integer below the number. *)
Lemma floor_integer (a : number) :
  fits a ->
  match a with
  | S754_zero _ | S754_finite _ _ _ =>
      Num.toInteger (Num.floor a) = Some (Qfloor (Num.toQ a))
  | _ => Num.floor a = a
  end.
Proof.
  intros Hfit. destruct a as [s|s| |s m e]; try reflexivity.
  cbn [fits] in Hfit. unfold Num.floor, Num.toQ.
  destruct (0 <=? e) eqn:E.
  - unfold Num.toInteger. rewrite E. now rewrite Qfloor_Z.
  - apply Z.leb_gt in E.
    assert (Hpow : 0 < 2 ^ (- e)) by (apply Z.pow_pos_nonneg; lia).
    assert (Hone : 1 <= 2 ^ (- e)) by lia.
    cbn [Qfloor]. rewrite Z2Pos.id by exact Hpow.
    rewrite Z.shiftr_div_pow2 by lia.
    apply toInteger_normalize.
    destruct s; cbn [cond_Zopp].
    + assert (- Zpos m <= - Zpos m / 2 ^ (- e))
        by (apply Z.div_le_lower_bound; nia).
      assert (- Zpos m / 2 ^ (- e) < 0)
        by (apply Z.div_lt_upper_bound; lia).
      lia.
    + assert (0 <= Zpos m / 2 ^ (- e)) by (apply Z.div_pos; lia).
      assert (Zpos m / 2 ^ (- e) <= Zpos m)
        by (apply Z.div_le_upper_bound; nia).
      lia.
Qed.


End Floats.

(* ================================================================== *)
(** * Operators *)

Section Operators.

Import Interpreter.
Local Open Scope Q_scope.

Lemma truncate_nonneg (q : Q) : 0 <= q -> truncate q = Qfloor q.
Proof.
  intros H. unfold truncate.
  destruct (Qnum q <? 0)%Z eqn:E; [|reflexivity].
  apply Z.ltb_lt in E. unfold Qle in H. simpl in H. lia.
Qed.

Lemma truncate_negative (q : Q) : q < 0 -> truncate q = Qceiling q.
Proof.
  intros H. unfold truncate.
  destruct (Qnum q <? 0)%Z eqn:E; [reflexivity|].
  apply Z.ltb_ge in E. unfold Qlt in H. simpl in H. lia.
Qed.

(** Off the integers the ceiling is one above the floor. *)
Lemma Qceiling_floor (q : Q) :
  ~ inject_Z (Qfloor q) == q -> Qceiling q = (Qfloor q + 1)%Z.
Proof.
  intros Hne.
  pose proof (Qfloor_le q) as Hf.
  pose proof (Qlt_floor q) as Hf1.
  pose proof (Qle_ceiling q) as Hc.
  pose proof (Qceiling_lt q) as Hc1.
  apply Qle_lteq in Hf as [Hf|Hf]; [|contradiction].
  assert (H1 : (Qfloor q < Qceiling q)%Z).
  { rewrite Zlt_Qlt. eapply Qlt_le_trans; eassumption. }
  assert (H2 : (Qceiling q - 1 < Qfloor q + 1)%Z).
  { rewrite Zlt_Qlt. eapply Qlt_trans; eassumption. }
  lia.
Qed.

Lemma binaryOperator_divide (a b : number) :
  binaryOperator (Some "/"%string) (VNumber a) (VNumber b)
  = VNumber (Num.floor (Num.div a b)).
Proof. reflexivity. Qed.

Lemma binaryOperator_default (operator : option string) (l r : value) :
  unhandled operator handledOperators ->
  binaryOperator operator l r = zero.
Proof.
  intros H. destruct operator as [op|]; [|reflexivity].
  unfold unhandled, Lexer.includes, handledOperators in H.
  cbn [existsb] in H.
  repeat (apply orb_false_iff in H as [? H]).
  unfold binaryOperator, equals.
  repeat match goal with
         | E : String.eqb _ _ = false |- _ => rewrite E; clear E
         end.
  reflexivity.
Qed.


(** [evaluateAST] on a binary node whose operands evaluate. *)
Lemma evaluateAST_binary (node l r : ASTNode.t) (a b : number) :
  ASTNode.type node = "binary_op"%string ->
  ASTNode.left node = Some l ->
  ASTNode.right node = Some r ->
  evaluateAST l = Returns a ->
  evaluateAST r = Returns b ->
  evaluateAST node = evaluateOperator (ASTNode.operator node) a b.
Proof.
  intros Hty Hl Hr Ha Hb.
  destruct node; cbn [ASTNode.type ASTNode.left ASTNode.right
                      ASTNode.operator] in *.
  subst. cbn [evaluateAST ASTNode.type ASTNode.left ASTNode.right
              ASTNode.operator ASTNode.value String.eqb Ascii.eqb Bool.eqb].
  now rewrite Ha, Hb.
Qed.

End Operators.

(** C3, as stated, fails: on the operands -7 and 2 the interpreter's [/]
    gives -4, while the quotient truncated toward zero is -3. *)
Lemma division_truncates_counterexample :
  Interpreter.evaluateBinaryOp 3 minusSevenByTwo Interpreter.initial
  = Interpreter.Ok (VNumber (Num.ofZ (-4))) Interpreter.initial
  /\ truncate (inject_Z (-7) / inject_Z 2) = (-3)%Z
  /\ Interpreter.evaluateBinaryOp 3 minusSevenByTwo Interpreter.initial
     <> Interpreter.Ok
          (VNumber (Num.ofZ (truncate (inject_Z (-7) / inject_Z 2))))
          Interpreter.initial.
Proof.
  split; [vm_compute; reflexivity|]. split; [reflexivity|].
  intros H. vm_compute in H. discriminate H.
Qed.

(** The floor is taken of the binary64 quotient, which is rounded: the
    quotient of 18014398509481982 by 3 is 6004799503160660 and two thirds,
    the nearest number is 6004799503160661, and that is the result. *)
Lemma division_rounds_before_floor :
  Interpreter.evaluateBinaryOp 3 bigByThree Interpreter.initial
  = Interpreter.Ok (VNumber (Num.ofZ 6004799503160661)) Interpreter.initial
  /\ (18014398509481982 / 3 = 6004799503160660)%Z.
Proof. split; vm_compute; reflexivity. Qed.

(** C3, amended. For numbers [a] and [b] the interpreter's [/] gives
    [Math.floor] of the binary64 quotient [a / b]. When that quotient is a
    zero or finite, the result is the integer below it (the quotient
    rounded toward minus infinity): the quotient truncated toward zero when
    the quotient is not negative, and one less than it when the quotient is
    negative and not an integer. When the quotient is NaN or an infinity,
    as on a zero divisor, the result is the quotient. *)
Theorem division_floors
    (fuel : nat) (node : ASTNode.t) (s s1 s2 : Interpreter.state)
    (a b : number) :
  ASTNode.operator node = Some "/" ->
  Interpreter.interpretOptional fuel (ASTNode.left node) s
  = Interpreter.Ok (VNumber a) s1 ->
  Interpreter.interpretOptional fuel (ASTNode.right node) s1
  = Interpreter.Ok (VNumber b) s2 ->
  Interpreter.evaluateBinaryOp (S fuel) node s
  = Interpreter.Ok (VNumber (Num.floor (Num.div a b))) s2
  /\ match Num.div a b with
     | S754_zero _ | S754_finite _ _ _ =>
         Num.toInteger (Num.floor (Num.div a b))
         = Some (Qfloor (Num.toQ (Num.div a b)))
     | _ => Num.floor (Num.div a b) = Num.div a b
     end
  /\ ((0 <= Num.toQ (Num.div a b))%Q ->
      Qfloor (Num.toQ (Num.div a b)) = truncate (Num.toQ (Num.div a b)))
  /\ ((Num.toQ (Num.div a b) < 0)%Q ->
      ~ (inject_Z (Qfloor (Num.toQ (Num.div a b)))
         == Num.toQ (Num.div a b))%Q ->
      Qfloor (Num.toQ (Num.div a b))
      = (truncate (Num.toQ (Num.div a b)) - 1)%Z).
Proof.
  intros Hop Hl Hr. split; [|split; [|split]].
  - rewrite (evaluateBinaryOp_operands fuel node s s1 s2 _ _ Hl Hr).
    now rewrite Hop.
  - apply floor_integer. apply div_fits.
  - intros H. symmetry. now apply truncate_nonneg.
  - intros Hneg Hint.
    rewrite (truncate_negative _ Hneg), (Qceiling_floor _ Hint). lia.
Qed.

Lemma division_floors_witness :
  Interpreter.evaluateBinaryOp 3 minusSevenByTwo Interpreter.initial
  = Interpreter.Ok
      (VNumber (Num.floor (Num.div (Num.ofZ (-7)) (Num.ofZ 2))))
      Interpreter.initial
  /\ Num.toInteger (Num.floor (Num.div (Num.ofZ (-7)) (Num.ofZ 2)))
     = Some (-4)%Z
  /\ truncate (Num.toQ (Num.div (Num.ofZ (-7)) (Num.ofZ 2))) = (-3)%Z.
Proof.
  destruct (division_floors 2 minusSevenByTwo Interpreter.initial
              Interpreter.initial Interpreter.initial
              (Num.ofZ (-7)) (Num.ofZ 2) eq_refl eq_refl eq_refl)
    as (Hrun & Hfloor & _ & _).
  split; [exact Hrun|]. split; [|vm_compute; reflexivity].
  exact Hfloor.
Defined.


(** [Math.pow] rounds: the power 3^40 is 12157665459056928801, the
    evaluator returns the nearest number, 12157665459056928768 (the model
    leaves this result out, as the power has more than 53 bits). *)
Lemma power_of_53_bits_or_more :
  Num.ofZ (3 ^ 40) = Num.ofZ 12157665459056928768
  /\ evaluateAST threePowerForty = Unmodelled.
Proof. split; vm_compute; reflexivity. Qed.



(* ================================================================== *)
(** * Parsing *)

(** C5, as stated, fails: on the tokens of [1 2] the top production
    completes with the tree of the literal 1 and the cursor on the token 2;
    [parse] records the unexpected token, and its result carries no tree. *)
Lemma trailing_token_counterexample :
  Lexer.tokenize "1 2" = Some oneTwoTokens
  /\ Parser.top oneTwoTokens 100 Parser.initial
     = Parser.Ok (ASTNode.num (Num.ofZ 1)) (Parser.mkState 1 [])
  /\ Parser.currentToken oneTwoTokens (Parser.mkState 1 [])
     = Parser.Ok (Token.mk NUMBER "2" 2) (Parser.mkState 1 [])
  /\ Parser.parse oneTwoTokens 100
     = Some (ParseResult.mk false None
               (Some [ParseError.mk "Unexpected token '2'" 2
                        "Check for missing operators, semicolons, or braces"]))
  /\ forall r, Parser.parse oneTwoTokens 100 = Some r ->
               ParseResult.tree r <> Some (ASTNode.num (Num.ofZ 1)).
Proof.
  repeat split; try (vm_compute; reflexivity).
  intros r H. vm_compute in H. injection H as <-. discriminate.
Qed.

(** C5, amended. When the top production completes with a tree and the
    cursor is not on the EOF token, [parse] appends an unexpected-token
    error for the token under the cursor and returns a failure: the error
    list, and no tree. *)
Theorem trailing_token_fails_parse
    (tokens : list Token.t) (fuel : nat) (tree : ASTNode.t)
    (s : Parser.state) (token : Token.t) :
  find (fun t => Parser.hasType t INVALID) tokens = None ->
  Parser.top tokens fuel Parser.initial = Parser.Ok tree s ->
  Parser.currentToken tokens s = Parser.Ok token s ->
  Token.type token <> EOF ->
  Parser.parse tokens fuel
  = Some (ParseResult.mk false None
            (Some (push (Parser.errors s) (Parser.unexpectedToken token)))).
Proof.
  intros Hinvalid Htop Hcur Heof.
  unfold Parser.parse. rewrite Hinvalid, Htop, Hcur.
  assert (E : Parser.hasType token EOF = false).
  { unfold Parser.hasType. destruct (Token.type token); try reflexivity.
    contradiction. }
  rewrite E. cbn [negb].
  unfold push at 1. rewrite length_app. cbn [List.length].
  replace (0 <? List.length (Parser.errors s) + 1) with true
    by (symmetry; apply Nat.ltb_lt; lia).
  reflexivity.
Qed.

Lemma trailing_token_fails_parse_witness :
  find (fun t => Parser.hasType t INVALID) oneTwoTokens = None
  /\ Token.type (Token.mk NUMBER "2" 2) <> EOF
  /\ Parser.parse oneTwoTokens 100
     = Some (ParseResult.mk false None
               (Some (push [] (Parser.unexpectedToken
                                 (Token.mk NUMBER "2" 2))))).
Proof.
  split; [reflexivity|]. split; [discriminate|].
  apply (trailing_token_fails_parse oneTwoTokens 100
           (ASTNode.num (Num.ofZ 1)) (Parser.mkState 1 [])
           (Token.mk NUMBER "2" 2)).
  - reflexivity.
  - vm_compute; reflexivity.
  - reflexivity.
  - discriminate.
Defined.

(** C7. Parsing [2 ^ 3 ^ 2] succeeds; the tree is 2 to the power (3 to the
    power 2); the arithmetic evaluator gives 512 on it. *)
Theorem power_is_right_associative :
  parseExpression 100 "2 ^ 3 ^ 2"
  = Some (ParseResult.mk true (Some twoPowerThreePowerTwo) None)
  /\ evaluateAST twoPowerThreePowerTwo = Returns (Num.ofZ 512).
Proof. split; vm_compute; reflexivity. Qed.

(* ================================================================== *)
(** * The main function *)

(** C2. The parser gives the definition of [main] the type 'function';
    the interpreter registers and runs [main] under the type
    'function_declaration' only. On the parsed program nothing is run: the
    output is empty and the return value is [null], not the line 8 and
    the value 15. *)
Theorem main_is_not_executed :
  exists tree main,
    parseExpression 100 mainProgramText
    = Some (ParseResult.mk true (Some tree) None)
    /\ ASTNode.type tree = "program"
    /\ ASTNode.statements tree = Some [main]
    /\ ASTNode.type main = "function"
    /\ forall fuel, executeProgram (S (S (S fuel))) tree
                    = Interpreter.Result nothingDone.
Proof.
  eexists. eexists. split; [vm_compute; reflexivity|].
  split; [reflexivity|]. split; [reflexivity|]. split; [reflexivity|].
  intros fuel. reflexivity.
Qed.

(** On that shape [main] is run when its declaration is visited: the output
    is the line 8 and the return value 15. *)
Lemma main_in_interpreter_shape :
  executeProgram 20 mainInterpreterShape
  = Interpreter.Result
      (ExecutionResult.mk ["8"] (VNumber (Num.ofZ 15)) [] None).
Proof. vm_compute; reflexivity. Qed.

(** The documented test [int main() { return 42; }]: nothing is run. *)
Lemma main_returning_42 :
  run 100 "int main() { return 42; }" = Some (Interpreter.Result nothingDone).
Proof. vm_compute; reflexivity. Qed.

(* ================================================================== *)
(** * The text and the place of the tokens *)

Section TokenText.

Import Lexer.

Lemma append_assoc (a b c : string) : ((a ++ b) ++ c = a ++ (b ++ c))%string.
Proof. induction a as [|x a IH]; simpl; [reflexivity | now rewrite IH]. Qed.

Lemma append_empty_r (a : string) : (a ++ EmptyString)%string = a.
Proof. induction a as [|x a IH]; simpl; [reflexivity | now rewrite IH]. Qed.

Lemma length_append (a b : string) :
  String.length (a ++ b) = String.length a + String.length b.
Proof. induction a as [|x a IH]; simpl; [reflexivity | now rewrite IH]. Qed.

Lemma substring_empty (n : nat) (s : string) : substring n 0 s = EmptyString.
Proof.
  revert n; induction s as [|c s IH]; intros [|n]; simpl; try reflexivity.
  apply IH.
Qed.

Lemma substring_prefix (a b : string) :
  substring 0 (String.length a) (a ++ b) = a.
Proof.
  induction a as [|x a IH]; simpl; [apply substring_empty|].
  now rewrite IH.
Qed.

(** The text between a prefix and a suffix is found at the length of the
    prefix. *)
Lemma substring_middle (pre mid post : string) :
  substring (String.length pre) (String.length mid) (pre ++ mid ++ post)
  = mid.
Proof.
  induction pre as [|x pre IH]; simpl; [apply substring_prefix | exact IH].
Qed.

Lemma readLine_append (s : string) :
  (fst (readLine s) ++ snd (readLine s))%string = s.
Proof.
  induction s as [|c rest IH]; simpl; [reflexivity|].
  destruct (Ascii.eqb c newline); simpl; [reflexivity|].
  destruct (readLine rest); simpl in *. now rewrite IH.
Qed.

Lemma skipBlockComment_append (s : string) :
  exists skipped, s = (skipped ++ skipBlockComment s)%string.
Proof.
  assert (H : forall n s, String.length s <= n ->
              exists skipped, s = (skipped ++ skipBlockComment s)%string).
  { clear s. induction n as [|n IH]; intros s Hn.
    - destruct s; simpl in Hn; [|lia]. now exists EmptyString.
    - destruct s as [|c1 [|c2 rest2]]; simpl.
      + now exists EmptyString.
      + now exists EmptyString.
      + destruct (Ascii.eqb c1 "*" && Ascii.eqb c2 "/").
        * now exists (str2 c1 c2).
        * destruct (IH (String c2 rest2)) as [k Hk]; [simpl in *; lia|].
          exists (String c1 k).
          change (String c1 (String c2 rest2)
                  = String c1 (k ++ skipBlockComment (String c2 rest2))).
          now rewrite <- Hk. }
  apply (H (String.length s)); lia.
Qed.

Lemma readIdentifierChars_append (s : string) :
  (fst (readIdentifierChars s) ++ snd (readIdentifierChars s))%string = s.
Proof.
  induction s as [|c rest IH]; simpl; [reflexivity|].
  destruct (isIdentChar c); simpl; [|reflexivity].
  destruct (readIdentifierChars rest); simpl in *. now rewrite IH.
Qed.

Lemma readNumberChars_append (s : string) (hasDot : bool) :
  (fst (readNumberChars s hasDot) ++ snd (readNumberChars s hasDot))%string
  = s.
Proof.
  revert hasDot; induction s as [|c rest IH]; intros hasDot; simpl;
    [reflexivity|].
  destruct (isDigit c).
  - specialize (IH hasDot). destruct (readNumberChars rest hasDot);
      simpl in *. now rewrite IH.
  - destruct (Ascii.eqb c "." && negb hasDot); simpl; [|reflexivity].
    specialize (IH true). destruct (readNumberChars rest true);
      simpl in *. now rewrite IH.
Qed.

Lemma readStringChars_append (s : string) :
  (fst (readStringChars s) ++ snd (readStringChars s))%string = s.
Proof.
  assert (H : forall n s, String.length s <= n ->
              (fst (readStringChars s) ++ snd (readStringChars s))%string
              = s).
  { clear s. induction n as [|n IH]; intros s Hn.
    - destruct s; simpl in *; [reflexivity | lia].
    - destruct s as [|c rest]; simpl in *; [reflexivity|].
      destruct (Ascii.eqb c dquote) eqn:Eq; simpl.
      + apply Ascii.eqb_eq in Eq. now subst c.
      + destruct (Ascii.eqb c backslash).
        * destruct rest as [|d rest']; simpl in *; [reflexivity|].
          specialize (IH rest'). destruct (readStringChars rest');
            simpl in *. rewrite IH by lia. reflexivity.
        * specialize (IH rest). destruct (readStringChars rest);
            simpl in *. rewrite IH by lia. reflexivity. }
  apply (H (String.length s)); lia.
Qed.

Lemma readCharChars_append (s : string) :
  (fst (readCharChars s) ++ snd (readCharChars s))%string = s.
Proof.
  induction s as [|c rest IH]; simpl; [reflexivity|].
  destruct (Ascii.eqb c squote) eqn:Eq; simpl.
  - apply Ascii.eqb_eq in Eq. now subst c.
  - destruct (readCharChars rest); simpl in *. now rewrite IH.
Qed.

Lemma nextIs_true (rest1 : string) (d : ascii) :
  nextIs rest1 d = true -> rest1 = String d (tail rest1).
Proof.
  destruct rest1 as [|d' r]; simpl; [discriminate|].
  intros H. apply Ascii.eqb_eq in H. now subst.
Qed.

(** An iteration reads a nonempty text at the cursor; the token it pushes,
    if any, has that text and the position of the cursor. *)
Lemma lexStep_consumes (c : ascii) (rest1 : string) (pos : nat)
                       (t : option Token.t) (rest' : string) :
  lexStep c rest1 pos = (t, rest') ->
  exists consumed,
    String c rest1 = (consumed ++ rest')%string
    /\ consumed <> EmptyString
    /\ forall tok, t = Some tok ->
         Token.position tok = pos /\ Token.value tok = consumed.
Proof.
  unfold lexStep. cbv zeta. intros H.
  repeat match type of H with
         | (if ?b then _ else _) = _ => destruct b eqn:?
         end;
    try (injection H as <- <-; exists (str1 c);
         split; [reflexivity|]; split; [discriminate|];
         intros tok Ht; first [discriminate Ht
                              | injection Ht as <-; split; reflexivity]);
    try (match goal with
         | Hn : (_ && nextIs rest1 ?d)%bool = true |- _ =>
             apply andb_true_iff in Hn as [_ Hn];
             apply nextIs_true in Hn;
             injection H as <- <-; exists (str2 c d);
             split; [rewrite Hn at 1; reflexivity|];
             split; [discriminate|];
             intros tok Ht; injection Ht as <-; split; reflexivity
         end).
  - (* preprocessor line *)
    apply Ascii.eqb_eq in Heqb0; subst c.
    change (readLine (String "#" rest1))
      with (let (l, r) := readLine rest1 in (String "#"%char l, r)) in H.
    pose proof (readLine_append rest1) as Hl.
    destruct (readLine rest1) as [l r]; cbn [fst snd] in *.
    injection H as <- <-. exists (String "#"%char l).
    split; [simpl; now rewrite Hl|]. split; [discriminate|].
    intros tok [= <-]. split; reflexivity.
  - (* string literal *)
    unfold readString in H.
    pose proof (readStringChars_append rest1) as Hl.
    destruct (readStringChars rest1) as [b r]; cbn [fst snd] in *.
    injection H as <- <-. exists (String dquote b).
    apply Ascii.eqb_eq in Heqb1; subst c.
    split; [simpl; now rewrite Hl|]. split; [discriminate|].
    intros tok [= <-]. split; reflexivity.
  - (* character literal *)
    unfold readChar in H.
    pose proof (readCharChars_append rest1) as Hl.
    destruct (readCharChars rest1) as [b r]; cbn [fst snd] in *.
    injection H as <- <-. exists (String squote b).
    apply Ascii.eqb_eq in Heqb2; subst c.
    split; [simpl; now rewrite Hl|]. split; [discriminate|].
    intros tok [= <-]. split; reflexivity.
  - (* line comment *)
    apply andb_true_iff in Heqb3 as [Hc _].
    apply Ascii.eqb_eq in Hc; subst c.
    change (readLine (String "/" rest1))
      with (let (l, r) := readLine rest1 in (String "/"%char l, r)) in H.
    pose proof (readLine_append rest1) as Hl.
    destruct (readLine rest1) as [l r]; cbn [fst snd] in *.
    injection H as <- <-. exists (String "/"%char l).
    split; [simpl; now rewrite Hl|]. split; [discriminate|].
    intros tok Ht; discriminate Ht.
  - (* block comment *)
    apply andb_true_iff in Heqb4 as [Hc Hn].
    apply Ascii.eqb_eq in Hc; subst c.
    apply nextIs_true in Hn.
    destruct (skipBlockComment_append (tail rest1)) as [k Hk].
    injection H as <- <-. exists (String "/"%char (String "*"%char k)).
    split; [simpl; rewrite Hn at 1; now rewrite Hk at 1|].
    split; [discriminate|]. intros tok Ht; discriminate Ht.
  - (* number *)
    unfold readNumber in H. simpl in H. rewrite Heqb5 in H.
    pose proof (readNumberChars_append rest1 false) as Hl.
    destruct (readNumberChars rest1 false) as [n r]; cbn [fst snd] in *.
    injection H as <- <-. exists (String c n).
    split; [simpl; now rewrite Hl|]. split; [discriminate|].
    intros tok [= <-]. split; reflexivity.
  - (* identifier or keyword *)
    unfold readIdentifier in H. simpl in H.
    unfold isIdentChar in H. rewrite Heqb6 in H. simpl in H.
    pose proof (readIdentifierChars_append rest1) as Hl.
    destruct (readIdentifierChars rest1) as [i r]; cbn [fst snd] in *.
    injection H as <- <-. exists (String c i).
    split; [simpl; now rewrite Hl|]. split; [discriminate|].
    intros tok [= <-]. split; reflexivity.
Qed.

Lemma wellPlaced_lower (input : string) (lo lo' : nat) (l : list Token.t) :
  lo <= lo' -> wellPlaced input lo' l -> wellPlaced input lo l.
Proof.
  intros Hlo. destruct l as [|t rest]; simpl; [trivial|].
  intros (H1 & H2). split; [lia | exact H2].
Qed.

(** The loop keeps its tokens well placed: with [pre] the text read so far,
    the tokens it adds lie in [pre ++ rest] from the cursor on. *)
Lemma tokenizeLoop_wellPlaced (fuel : nat) :
  forall (pre rest : string) (tokens out : list Token.t),
    tokenizeLoop fuel rest (String.length pre) tokens = Some out ->
    exists new,
      out = (tokens ++ new)%list
      /\ wellPlaced (pre ++ rest) (String.length pre) new.
Proof.
  induction fuel as [|fuel IH]; intros pre rest tokens out H; [discriminate|].
  destruct rest as [|c rest1]; cbn [tokenizeLoop] in H.
  - injection H as <-. exists [eofToken (String.length pre)].
    split; [reflexivity|]. simpl.
    rewrite append_empty_r, substring_empty.
    repeat split; try lia. intros Hne; now contradiction Hne.
  - destruct (lexStep c rest1 (String.length pre)) as [t rest'] eqn:Hstep.
    apply lexStep_consumes in Hstep as (consumed & Htext & Hne & Htok).
    assert (Hlen : String.length pre
                   + (String.length (String c rest1) - String.length rest')
                   = String.length (pre ++ consumed)).
    { rewrite Htext, !length_append. lia. }
    rewrite Hlen in H.
    apply IH in H as (new & Hout & Hnew).
    rewrite append_assoc, <- Htext in Hnew.
    destruct t as [tok|]; cbn [pushToken] in Hout.
    + destruct (Htok tok eq_refl) as [Hpos Hval].
      exists (tok :: new). split.
      * rewrite Hout. unfold push. now rewrite <- app_assoc.
      * cbn [wellPlaced]. rewrite Hpos, Hval.
        rewrite length_append in Hnew.
        repeat split.
        -- lia.
        -- rewrite Htext. apply substring_middle.
        -- rewrite Htext, !length_append. lia.
        -- intros _. exact Hne.
        -- exact Hnew.
    + exists new. split; [exact Hout|].
      rewrite length_append in Hnew.
      exact (wellPlaced_lower _ _ _ _ (Nat.le_add_r _ _) Hnew).
Qed.

Lemma wellPlaced_Forall (input : string) (l : list Token.t) :
  forall lo, wellPlaced input lo l ->
    Forall (fun t =>
              substring (Token.position t) (String.length (Token.value t))
                        input = Token.value t
              /\ Token.position t + String.length (Token.value t)
                 <= String.length input) l.
Proof.
  induction l as [|t rest IH]; intros lo H; constructor.
  - destruct H as (_ & H1 & H2 & _). split; assumption.
  - destruct H as (_ & _ & _ & _ & H). exact (IH _ H).
Qed.

Lemma wellPlaced_consecutive (input : string) (l : list Token.t) :
  forall lo i a b,
    wellPlaced input lo l ->
    nth_error l i = Some a ->
    nth_error l (S i) = Some b ->
    Token.position a + String.length (Token.value a) <= Token.position b
    /\ Token.position a < Token.position b.
Proof.
  induction l as [|t rest IH]; intros lo i a b H Ha Hb;
    [destruct i; discriminate|].
  destruct H as (_ & _ & _ & Hne & Hrest).
  destruct i as [|i]; simpl in Ha, Hb.
  - injection Ha as ->.
    destruct rest as [|t' rest']; [discriminate|].
    injection Hb as ->. destruct Hrest as (Hlo & _).
    assert (Token.value a <> EmptyString) by (apply Hne; discriminate).
    destruct (Token.value a); [contradiction|]. simpl in *. lia.
  - exact (IH _ i a b Hrest Ha Hb).
Qed.

End TokenText.

(** X1. The text of every token of [tokenize] is the text of the trimmed
    input at the token's position, and lies within the input. *)
Theorem token_text_at_position (source : string) (tokens : list Token.t) :
  Lexer.tokenize source = Some tokens ->
  Forall (fun t =>
            substring (Token.position t) (String.length (Token.value t))
                      (Lexer.trim source) = Token.value t
            /\ Token.position t + String.length (Token.value t)
               <= String.length (Lexer.trim source)) tokens.
Proof.
  unfold Lexer.tokenize. intros H.
  apply (tokenizeLoop_wellPlaced _ EmptyString) in H as (new & -> & Hnew).
  exact (wellPlaced_Forall _ _ _ Hnew).
Qed.

Lemma token_text_at_position_witness :
  Lexer.tokenize "a  +=b1"
  = Some [Token.mk IDENTIFIER "a" 0; Token.mk COMPOUND_ASSIGN "+=" 3;
          Token.mk IDENTIFIER "b1" 5; Token.mk EOF EmptyString 7]
  /\ Forall (fun t =>
               substring (Token.position t) (String.length (Token.value t))
                         (Lexer.trim "a  +=b1") = Token.value t
               /\ Token.position t + String.length (Token.value t)
                  <= String.length (Lexer.trim "a  +=b1"))
       [Token.mk IDENTIFIER "a" 0; Token.mk COMPOUND_ASSIGN "+=" 3;
        Token.mk IDENTIFIER "b1" 5; Token.mk EOF EmptyString 7].
Proof.
  split; [vm_compute; reflexivity|].
  apply (token_text_at_position "a  +=b1"). vm_compute; reflexivity.
Defined.

(** X2. The tokens of [tokenize] come in the order of the input and do not
    overlap: a token ends at or before the position of the next one, and
    the positions increase strictly. *)
Theorem token_positions_increase
    (source : string) (tokens : list Token.t) (i : nat) (a b : Token.t) :
  Lexer.tokenize source = Some tokens ->
  nth_error tokens i = Some a ->
  nth_error tokens (S i) = Some b ->
  Token.position a + String.length (Token.value a) <= Token.position b
  /\ Token.position a < Token.position b.
Proof.
  unfold Lexer.tokenize. intros H.
  apply (tokenizeLoop_wellPlaced _ EmptyString) in H as (new & -> & Hnew).
  exact (wellPlaced_consecutive _ _ _ i a b Hnew).
Qed.

Lemma token_positions_increase_witness :
  Lexer.tokenize "a  +=b1"
  = Some [Token.mk IDENTIFIER "a" 0; Token.mk COMPOUND_ASSIGN "+=" 3;
          Token.mk IDENTIFIER "b1" 5; Token.mk EOF EmptyString 7]
  /\ 3 + 2 <= 5 /\ 3 < 5.
Proof.
  split; [vm_compute; reflexivity|].
  apply (token_positions_increase "a  +=b1"
           [Token.mk IDENTIFIER "a" 0; Token.mk COMPOUND_ASSIGN "+=" 3;
            Token.mk IDENTIFIER "b1" 5; Token.mk EOF EmptyString 7]
           1 (Token.mk COMPOUND_ASSIGN "+=" 3) (Token.mk IDENTIFIER "b1" 5)).
  - vm_compute; reflexivity.
  - reflexivity.
  - reflexivity.
Defined.

(* ================================================================== *)
(** * The classes of the tokens *)

Section TokenClasses.

Import Lexer.

Lemma lexStep_classified (c : ascii) (rest1 : string) (pos : nat)
                         (tok : Token.t) (rest' : string) :
  lexStep c rest1 pos = (Some tok, rest') -> classified tok.
Proof.
  unfold lexStep. cbv zeta. intros H.
  repeat match type of H with
         | (if ?b then _ else _) = _ => destruct b eqn:?
         end;
    try discriminate H;
    try (injection H as <- <-; first [exact I | reflexivity]).
  - (* preprocessor line *)
    destruct (readLine (String c rest1)). injection H as <- <-. exact I.
  - (* string literal *)
    unfold readString in H. destruct (readStringChars rest1).
    injection H as <- <-. exact I.
  - (* character literal *)
    unfold readChar in H. destruct (readCharChars rest1).
    injection H as <- <-. exact I.
  - (* number *)
    unfold readNumber in H. simpl in H. rewrite Heqb5 in H.
    destruct (readNumberChars rest1 false).
    injection H as <- <-. exact Heqb5.
  - (* identifier or keyword *)
    unfold readIdentifier in H.
    destruct (readIdentifierChars (String c rest1)) as [i r].
    destruct (includes i keywords) eqn:E; injection H as <- <-;
      exact E.
Qed.

(** A property of the tokens an iteration pushes, and of the EOF token, is
    a property of all the tokens of the loop. *)
Lemma tokenizeLoop_Forall (P : Token.t -> Prop) :
  (forall c rest1 pos tok rest',
      lexStep c rest1 pos = (Some tok, rest') -> P tok) ->
  (forall pos, P (eofToken pos)) ->
  forall fuel rest pos tokens out,
    Forall P tokens ->
    tokenizeLoop fuel rest pos tokens = Some out ->
    Forall P out.
Proof.
  intros Hstep Heof.
  induction fuel as [|fuel IH]; intros rest pos tokens out Htok H;
    [discriminate|].
  destruct rest as [|c rest1]; cbn [tokenizeLoop] in H.
  - injection H as <-. apply Forall_push; [exact Htok | apply Heof].
  - destruct (lexStep c rest1 pos) as [t rest'] eqn:E.
    apply IH in H; [exact H|].
    destruct t as [tok|]; cbn [pushToken]; [|exact Htok].
    apply Forall_push; [exact Htok | exact (Hstep _ _ _ _ _ E)].
Qed.

Lemma tokenize_classified (source : string) (tokens : list Token.t) :
  tokenize source = Some tokens -> Forall classified tokens.
Proof.
  unfold tokenize. apply (tokenizeLoop_Forall classified).
  - exact lexStep_classified.
  - intros pos. exact I.
  - constructor.
Qed.

Lemma digits_count (s : string) :
  forall acc count,
    count <= snd (fst (Num.digits s acc count)).
Proof.
  induction s as [|c rest IH]; intros acc count; cbn [Num.digits];
    [simpl; lia|].
  destruct (isDigit c); [|simpl; lia].
  eapply Nat.le_trans; [|apply IH]. lia.
Qed.

Lemma digits_nonneg (s : string) :
  forall acc count,
    (0 <= acc)%Z -> (0 <= fst (fst (Num.digits s acc count)))%Z.
Proof.
  induction s as [|c rest IH]; intros acc count Hacc; cbn [Num.digits];
    [exact Hacc|].
  destruct (isDigit c); [|exact Hacc].
  apply IH. lia.
Qed.

Lemma ofRatio_signed (n d : Z) :
  (0 <= n)%Z -> (0 < d)%Z -> signed false (Num.ofRatio n d).
Proof.
  intros Hn Hd. unfold Num.ofRatio. destruct n as [|p|p]; [reflexivity| |lia].
  pose proof (SFdiv_core_nonneg (Zpos p) 0 d 0) as Hq.
  destruct (SFdiv_core_binary Num.prec Num.emax (Zpos p) 0 d 0)
    as [[q e] l].
  cbn [fst] in Hq. apply binary_round_aux_signed. apply Hq; lia.
Qed.

(** [parseFloat] on a text that starts with a digit is not NaN and not
    negative. *)
Lemma parseFloat_digit (s : string) :
  startsWithDigit s = true -> signed false (Num.parseFloat s).
Proof.
  destruct s as [|c rest]; [discriminate|]. cbn [startsWithDigit]. intros Hc.
  unfold Num.parseFloat. cbn [Num.digits]. rewrite Hc.
  pose proof (digits_count rest (10 * 0 + Z.of_nat (nat_of_ascii c - 48))%Z 1)
    as Hcount.
  pose proof (digits_nonneg rest
                (10 * 0 + Z.of_nat (nat_of_ascii c - 48))%Z 1) as Hpos.
  destruct (Num.digits rest _ 1) as [[i ni] r]. cbn [fst snd] in *.
  assert (Hi : (0 <= i)%Z) by (apply Hpos; lia).
  assert (Hni : (ni =? 0) = false) by (apply Nat.eqb_neq; lia).
  assert (Hint : signed false (Num.ofRatio i 1))
    by (apply ofRatio_signed; lia).
  destruct r as [|d frac].
  - rewrite Hni. exact Hint.
  - destruct d as [[] [] [] [] [] [] [] []];
      try (rewrite Hni; exact Hint).
    pose proof (digits_nonneg frac 0%Z 0) as Hf.
    destruct (Num.digits frac 0%Z 0) as [[f nf] r']. cbn [fst snd] in *.
    rewrite Hni. cbn [andb].
    assert (Hten : (0 < 10 ^ Z.of_nat nf)%Z)
      by (apply Z.pow_pos_nonneg; lia).
    apply ofRatio_signed; [|exact Hten].
    specialize (Hf ltac:(lia)). nia.
Qed.

End TokenClasses.

(** X3. The text of every NUMBER token of [tokenize] starts with a digit,
    so [parseFloat], which the parser applies to it, gives a number that is
    not NaN and not negative: the positive zero, a positive finite number
    or, on a numeral too large for one, plus infinity. *)
Theorem number_tokens_are_never_NaN
    (source : string) (tokens : list Token.t) (t : Token.t) :
  Lexer.tokenize source = Some tokens ->
  In t tokens ->
  Token.type t = NUMBER ->
  signed false (Num.parseFloat (Token.value t)).
Proof.
  intros Htok Hin Hty.
  pose proof (tokenize_classified source tokens Htok) as Hall.
  rewrite Forall_forall in Hall. specialize (Hall t Hin).
  unfold classified in Hall. rewrite Hty in Hall.
  now apply parseFloat_digit.
Qed.

Lemma number_tokens_are_never_NaN_witness :
  Lexer.tokenize "x = 3.25"
  = Some [Token.mk IDENTIFIER "x" 0; Token.mk ASSIGN "=" 2;
          Token.mk NUMBER "3.25" 4; Token.mk EOF EmptyString 8]
  /\ Num.parseFloat "3.25" = S754_finite false 7318349394477056 (-51)
  /\ signed false (Num.parseFloat "3.25").
Proof.
  split; [vm_compute; reflexivity|]. split; [vm_compute; reflexivity|].
  apply (number_tokens_are_never_NaN "x = 3.25"
           [Token.mk IDENTIFIER "x" 0; Token.mk ASSIGN "=" 2;
            Token.mk NUMBER "3.25" 4; Token.mk EOF EmptyString 8]
           (Token.mk NUMBER "3.25" 4)).
  - vm_compute; reflexivity.
  - right; right; left; reflexivity.
  - reflexivity.
Defined.

(** A numeral of 310 digits is a NUMBER token, and its number is plus
    infinity. *)
Lemma long_literal_is_infinite :
  Lexer.tokenize longLiteral
  = Some [Token.mk NUMBER longLiteral 0; Token.mk EOF EmptyString 310]
  /\ Num.parseFloat longLiteral = PosInf.
Proof. split; vm_compute; reflexivity. Qed.

(** X4. In the output of [tokenize] a KEYWORD token carries a reserved
    word, an IDENTIFIER token never does, and an INVALID token carries one
    character. *)
Theorem token_classes
    (source : string) (tokens : list Token.t) (t : Token.t) :
  Lexer.tokenize source = Some tokens ->
  In t tokens ->
  (Token.type t = KEYWORD -> In (Token.value t) Lexer.keywords)
  /\ (Token.type t = IDENTIFIER -> ~ In (Token.value t) Lexer.keywords)
  /\ (Token.type t = INVALID -> String.length (Token.value t) = 1).
Proof.
  intros Htok Hin.
  pose proof (tokenize_classified source tokens Htok) as Hall.
  rewrite Forall_forall in Hall. specialize (Hall t Hin).
  unfold classified in Hall.
  split; [|split]; intros Hty; rewrite Hty in Hall.
  - unfold Lexer.includes in Hall. apply existsb_exists in Hall as (k & Hk & E).
    apply String.eqb_eq in E. now subst.
  - intros Hk. unfold Lexer.includes in Hall.
    assert (E : existsb (String.eqb (Token.value t)) Lexer.keywords = true).
    { apply existsb_exists. exists (Token.value t).
      split; [exact Hk | apply String.eqb_refl]. }
    rewrite E in Hall. discriminate.
  - exact Hall.
Qed.

Lemma token_classes_witness :
  Lexer.tokenize "int intx @"
  = Some [Token.mk KEYWORD "int" 0; Token.mk IDENTIFIER "intx" 4;
          Token.mk INVALID "@" 9; Token.mk EOF EmptyString 10]
  /\ ~ In "intx" Lexer.keywords.
Proof.
  split; [vm_compute; reflexivity|].
  apply (token_classes "int intx @"
           [Token.mk KEYWORD "int" 0; Token.mk IDENTIFIER "intx" 4;
            Token.mk INVALID "@" 9; Token.mk EOF EmptyString 10]
           (Token.mk IDENTIFIER "intx" 4)).
  - vm_compute; reflexivity.
  - right; left; reflexivity.
  - reflexivity.
Defined.

(* ================================================================== *)
(** * Blank input and invalid characters *)

Lemma trimStart_blank (s : string) :
  Lexer.trimStart s = EmptyString <-> allWhitespace s = true.
Proof.
  induction s as [|c rest IH]; simpl; [tauto|].
  destruct (Lexer.isWhitespace c); simpl; [exact IH|].
  split; discriminate.
Qed.

Lemma trimEnd_empty (s : string) :
  Lexer.trimEnd s = EmptyString -> allWhitespace s = true.
Proof.
  induction s as [|c rest IH]; simpl; [reflexivity|].
  destruct (Lexer.trimEnd rest) eqn:E; [|discriminate].
  destruct (Lexer.isWhitespace c); [|discriminate].
  intros _. now apply IH.
Qed.

Lemma trimStart_head (s : string) :
  match Lexer.trimStart s with
  | EmptyString => True
  | String c _ => Lexer.isWhitespace c = false
  end.
Proof.
  induction s as [|c rest IH]; simpl; [exact I|].
  destruct (Lexer.isWhitespace c) eqn:E; [exact IH | exact E].
Qed.

Lemma trim_blank (s : string) :
  Lexer.trim s = EmptyString <-> allWhitespace s = true.
Proof.
  unfold Lexer.trim. split.
  - intros H. apply trimStart_blank.
    pose proof (trimStart_head s) as Hhead.
    apply trimEnd_empty in H.
    destruct (Lexer.trimStart s) as [|c r]; [reflexivity|].
    simpl in H. rewrite Hhead in H. discriminate.
  - intros H. apply trimStart_blank in H. now rewrite H.
Qed.

(** X5. An input is rejected as empty exactly when it is made of blanks
    only: then [tokenize] gives the EOF token at 0 alone and
    [parseExpression] fails with the one error 'Empty expression' at 0,
    without parsing (whatever the fuel); on any other input
    [parseExpression] goes on to the lexer and the parser. *)
Theorem blank_input_is_empty_expression (input : string) :
  (allWhitespace input = true ->
   Lexer.tokenize input = Some [Token.mk EOF EmptyString 0]
   /\ forall fuel,
        parseExpression fuel input
        = Some (ParseResult.mk false None
                  (Some [ParseError.mk "Empty expression" 0
                           "Enter an arithmetic expression or C program"])))
  /\ (allWhitespace input = false ->
      forall fuel,
        parseExpression fuel input
        = match Lexer.tokenize input with
          | Some tokens => Parser.parse tokens fuel
          | None => None
          end).
Proof.
  split; intros H.
  - apply trim_blank in H. split.
    + unfold Lexer.tokenize. rewrite H. reflexivity.
    + intros fuel. unfold parseExpression. rewrite H. reflexivity.
  - intros fuel. unfold parseExpression.
    destruct (String.eqb (Lexer.trim input) EmptyString) eqn:E;
      [|reflexivity].
    apply String.eqb_eq, trim_blank in E. rewrite E in H. discriminate.
Qed.

Lemma blank_input_is_empty_expression_witness :
  allWhitespace "   " = true
  /\ parseExpression 0 "   "
     = Some (ParseResult.mk false None
               (Some [ParseError.mk "Empty expression" 0
                        "Enter an arithmetic expression or C program"])).
Proof.
  split; [reflexivity|].
  apply (proj1 (blank_input_is_empty_expression "   ")). reflexivity.
Defined.

(** X6. When the tokens of an input hold an INVALID token, [parseExpression]
    fails with exactly one error, for the first such token: its message and
    suggestion quote the character and its position is the token's. No
    production runs: the result does not depend on the fuel. *)
Theorem invalid_character_stops_parse
    (source : string) (tokens : list Token.t) (t : Token.t) (fuel : nat) :
  Lexer.tokenize source = Some tokens ->
  find (fun t => Parser.hasType t INVALID) tokens = Some t ->
  parseExpression fuel source
  = Some (ParseResult.mk false None
            (Some [ParseError.mk
                     ("Invalid character '" ++ Token.value t ++ "'")
                     (Token.position t)
                     ("Remove '" ++ Token.value t
                      ++ "' or use valid characters")])).
Proof.
  intros Htok Hfind. unfold parseExpression.
  destruct (String.eqb (Lexer.trim source) EmptyString) eqn:E.
  - apply String.eqb_eq in E.
    unfold Lexer.tokenize in Htok. rewrite E in Htok.
    injection Htok as <-. discriminate Hfind.
  - rewrite Htok. unfold Parser.parse. rewrite Hfind. reflexivity.
Qed.

Lemma invalid_character_stops_parse_witness :
  Lexer.tokenize "case 1: x"
  = Some [Token.mk KEYWORD "case" 0; Token.mk NUMBER "1" 5;
          Token.mk INVALID ":" 6; Token.mk IDENTIFIER "x" 8;
          Token.mk EOF EmptyString 9]
  /\ parseExpression 0 "case 1: x"
     = Some (ParseResult.mk false None
               (Some [ParseError.mk "Invalid character ':'" 6
                        "Remove ':' or use valid characters"])).
Proof.
  split; [vm_compute; reflexivity|].
  apply (invalid_character_stops_parse "case 1: x"
           [Token.mk KEYWORD "case" 0; Token.mk NUMBER "1" 5;
            Token.mk INVALID ":" 6; Token.mk IDENTIFIER "x" 8;
            Token.mk EOF EmptyString 9]
           (Token.mk INVALID ":" 6) 0).
  - vm_compute; reflexivity.
  - reflexivity.
Defined.

(* ================================================================== *)
(** * The results of the parser *)

Section ParserErrors.

Import Parser.

Variable tokens : list Token.t.
Hypothesis tokens_nonempty : tokens <> [].

Lemma currentToken_ok (s : state) :
  exists tok, currentToken tokens s = Ok tok s.
Proof.
  unfold currentToken.
  destruct (tokenAt tokens (current s)) as [tok|]; [now exists tok|].
  destruct (tokenAt tokens (Z.of_nat (List.length tokens) - 1)) as [tok|] eqn:E;
    [now exists tok|].
  exfalso. unfold tokenAt in E.
  destruct tokens as [|t l]; [now apply tokens_nonempty|].
  replace (Z.of_nat (List.length (t :: l)) - 1)%Z
    with (Z.of_nat (List.length l)) in E by (simpl List.length; lia).
  destruct (Z.of_nat (List.length l) <? 0)%Z eqn:Hneg;
    [apply Z.ltb_lt in Hneg; lia|].
  rewrite Nat2Z.id in E. apply nth_error_None in E. simpl in E. lia.
Qed.

Lemma twe_ret {A} (a : A) : throwsWithError (ret a).
Proof. intros s. exact I. Qed.

Lemma twe_outOfFuel {A} : throwsWithError (@outOfFuel A).
Proof. intros s. exact I. Qed.

Lemma twe_bind {A B} (m : M A) (k : A -> M B) :
  throwsWithError m -> (forall a, throwsWithError (k a)) ->
  throwsWithError (bind m k).
Proof.
  intros Hm Hk s. unfold bind. specialize (Hm s).
  destruct (m s) as [a s1|s1|]; [|exact Hm | exact I].
  apply Hk.
Qed.

Lemma twe_pushError (message : string) (position : nat)
                    (suggestion : string) :
  throwsWithError (pushError message position suggestion).
Proof. intros s. exact I. Qed.

Lemma twe_pushError_throw {A} (message : string) (position : nat)
                          (suggestion : string) :
  throwsWithError
    (bind (pushError message position suggestion) (fun _ => @throw A)).
Proof.
  intros s. unfold bind, pushError, throw, push. cbn [errors].
  destruct (errors s); discriminate.
Qed.

Lemma twe_currentToken : throwsWithError (currentToken tokens).
Proof.
  intros s. destruct (currentToken_ok s) as [tok E]. now rewrite E.
Qed.

Lemma twe_advance : throwsWithError (advance tokens).
Proof.
  intros s. unfold advance, bind.
  destruct (currentToken_ok s) as [tok E]. rewrite E.
  destruct (current s <? Z.of_nat (List.length tokens) - 1)%Z; exact I.
Qed.

Lemma twe_backUp : throwsWithError backUp.
Proof. intros s. exact I. Qed.

Ltac twe_step :=
  first
    [ assumption
    | apply twe_ret
    | apply twe_outOfFuel
    | apply twe_pushError_throw
    | apply twe_pushError
    | apply twe_currentToken
    | apply twe_advance
    | apply twe_backUp
    | apply twe_bind; [|intros ?]
    | match goal with
      | |- throwsWithError (if ?b then _ else _) => destruct b
      | |- throwsWithError (match ?x with _ => _ end) => destruct x
      | H : _ |- throwsWithError _ => apply H
      end ].

Lemma twe_expect (ty : TokenType) (message suggestion : string) :
  throwsWithError (expect tokens ty message suggestion).
Proof. unfold expect. repeat twe_step. Qed.

Lemma twe_skipSemicolon : throwsWithError (skipSemicolon tokens).
Proof. unfold skipSemicolon. repeat twe_step. Qed.

Lemma twe_some {A} (m : M A) : throwsWithError m -> throwsWithError (some m).
Proof. intros H. unfold some. repeat twe_step. Qed.

Ltac twe :=
  repeat first [ apply twe_expect | apply twe_skipSemicolon
               | apply twe_some | twe_step ].

Lemma twe_binaryLoop (level : Token.t -> bool) (next : M ASTNode.t) :
  throwsWithError next ->
  forall fuel l, throwsWithError (binaryLoop tokens fuel level next l).
Proof.
  intros Hnext. induction fuel as [|fuel IH]; intros l; cbn [binaryLoop]; twe.
Qed.

Lemma twe_argumentsLoop (expression : M ASTNode.t) :
  throwsWithError expression ->
  forall fuel args,
    throwsWithError (argumentsLoop tokens fuel expression args).
Proof.
  intros Hnext. induction fuel as [|fuel IH]; intros args;
    cbn [argumentsLoop]; twe.
Qed.

Lemma twe_statementsLoop (stop : Token.t -> bool) (statement : M ASTNode.t) :
  throwsWithError statement ->
  forall fuel statements,
    throwsWithError (statementsLoop tokens fuel stop statement statements).
Proof.
  intros Hnext. induction fuel as [|fuel IH]; intros statements;
    cbn [statementsLoop]; twe.
Qed.

Lemma twe_programLoop (statement : M ASTNode.t) :
  throwsWithError statement ->
  forall fuel statements,
    throwsWithError (programLoop tokens fuel statement statements).
Proof.
  intros Hnext. induction fuel as [|fuel IH]; intros statements;
    cbn [programLoop]; twe.
Qed.

Lemma twe_pointerLoop :
  forall fuel isPointer, throwsWithError (pointerLoop tokens fuel isPointer).
Proof.
  induction fuel as [|fuel IH]; intros isPointer; cbn [pointerLoop]; twe.
Qed.

Lemma twe_parametersLoop :
  forall fuel parameters,
    throwsWithError (parametersLoop tokens fuel parameters).
Proof.
  induction fuel as [|fuel IH]; intros parameters; cbn [parametersLoop]; twe.
Qed.

Lemma twe_switchLoop (expression statement : M ASTNode.t) :
  throwsWithError expression ->
  throwsWithError statement ->
  forall fuel cases defaultCase,
    throwsWithError
      (switchLoop tokens fuel expression statement cases defaultCase).
Proof.
  intros He Hs. induction fuel as [|fuel IH]; intros cases defaultCase;
    cbn [switchLoop];
    repeat first [ apply twe_statementsLoop; exact Hs | progress twe ].
Qed.

Ltac twe_all :=
  repeat first
    [ apply twe_binaryLoop | apply twe_argumentsLoop
    | apply twe_statementsLoop | apply twe_programLoop
    | apply twe_pointerLoop | apply twe_parametersLoop
    | apply twe_switchLoop | progress twe ].

(** Every production records an error before it throws. *)
Lemma productions_throwWithError (fuel : nat) :
  throwsWithError (statement tokens fuel)
  /\ throwsWithError (declaration tokens fuel)
  /\ (forall returnType name isPointer,
        throwsWithError
          (functionDeclaration tokens fuel returnType name isPointer))
  /\ throwsWithError (block tokens fuel)
  /\ throwsWithError (blockOrStatement tokens fuel)
  /\ throwsWithError (ifStatement tokens fuel)
  /\ throwsWithError (whileLoop tokens fuel)
  /\ throwsWithError (doWhileLoop tokens fuel)
  /\ throwsWithError (switchStatement tokens fuel)
  /\ throwsWithError (forLoop tokens fuel)
  /\ throwsWithError (returnStatement tokens fuel)
  /\ throwsWithError (assignmentOrExpression tokens fuel)
  /\ throwsWithError (expression tokens fuel)
  /\ throwsWithError (logicalOr tokens fuel)
  /\ throwsWithError (logicalAnd tokens fuel)
  /\ throwsWithError (equality tokens fuel)
  /\ throwsWithError (relational tokens fuel)
  /\ throwsWithError (additive tokens fuel)
  /\ throwsWithError (multiplicative tokens fuel)
  /\ throwsWithError (power tokens fuel)
  /\ throwsWithError (primary tokens fuel).
Proof.
  induction fuel as [|fuel IH].
  - repeat split; intros; exact twe_outOfFuel.
  - destruct IH as (Hstatement & Hdeclaration & HfunctionDeclaration
                    & Hblock & HblockOrStatement & HifStatement
                    & HwhileLoop & HdoWhileLoop & HswitchStatement
                    & HforLoop & HreturnStatement & HassignmentOrExpression
                    & Hexpression & HlogicalOr & HlogicalAnd & Hequality
                    & Hrelational & Hadditive & Hmultiplicative & Hpower
                    & Hprimary).
    repeat split; intros.
    + cbn [statement]. twe_all.
    + cbn [declaration]. twe_all.
    + cbn [functionDeclaration]. twe_all.
    + cbn [block]. twe_all.
    + cbn [blockOrStatement]. twe_all.
    + cbn [ifStatement]. twe_all.
    + cbn [whileLoop]. twe_all.
    + cbn [doWhileLoop]. twe_all.
    + cbn [switchStatement]. twe_all.
    + cbn [forLoop]. twe_all.
    + cbn [returnStatement]. twe_all.
    + cbn [assignmentOrExpression]. twe_all.
    + cbn [expression]. twe_all.
    + cbn [logicalOr]. twe_all.
    + cbn [logicalAnd]. twe_all.
    + cbn [equality]. twe_all.
    + cbn [relational]. twe_all.
    + cbn [additive]. twe_all.
    + cbn [multiplicative]. twe_all.
    + cbn [power]. twe_all.
    + cbn [primary]. twe_all.
Qed.

Lemma twe_top (fuel : nat) : throwsWithError (top tokens fuel).
Proof.
  pose proof (productions_throwWithError fuel)
    as (Hstatement & _ & _ & _ & _ & _ & _ & _ & _ & _ & _ & _
        & Hexpression & _).
  unfold top, program. twe_all.
Qed.

End ParserErrors.

Lemma currentToken_state (tokens : list Token.t) (s s' : Parser.state)
                         (tok : Token.t) :
  Parser.currentToken tokens s = Parser.Ok tok s' -> s' = s.
Proof.
  unfold Parser.currentToken.
  destruct (Parser.tokenAt tokens (Parser.current s)); [now intros [= _ <-]|].
  destruct (Parser.tokenAt tokens _); [now intros [= _ <-] | discriminate].
Qed.

Lemma tokenize_nonempty (source : string) (tokens : list Token.t) :
  Lexer.tokenize source = Some tokens -> tokens <> [].
Proof.
  unfold Lexer.tokenize. intros H.
  destruct (tokenizeLoop_total (S (String.length (Lexer.trim source)))
              (Lexer.trim source) 0 []) as [toks [Heq _]];
    [lia | constructor |].
  rewrite Heq in H. injection H as <-. unfold push.
  destruct toks; discriminate.
Qed.

(** X7. A result of [parse] is of one of two shapes. A success carries the
    tree and no error list: then the top production completed with that
    tree, recorded no error and left the cursor on an EOF token. A failure
    carries an error list and no tree. *)
Theorem parse_result_shape
    (tokens : list Token.t) (fuel : nat) (r : ParseResult.t) :
  Parser.parse tokens fuel = Some r ->
  (ParseResult.success r = true
   /\ ParseResult.errors r = None
   /\ exists tree s tok,
        ParseResult.tree r = Some tree
        /\ Parser.top tokens fuel Parser.initial = Parser.Ok tree s
        /\ Parser.errors s = []
        /\ Parser.currentToken tokens s = Parser.Ok tok s
        /\ Token.type tok = EOF)
  \/ (ParseResult.success r = false
      /\ ParseResult.tree r = None
      /\ exists errs, ParseResult.errors r = Some errs).
Proof.
  unfold Parser.parse, Parser.failure. intros H.
  destruct (find _ tokens); [injection H as <-; right; simpl; eauto|].
  destruct (Parser.top tokens fuel Parser.initial) as [tree s|s|] eqn:Htop;
    [|injection H as <-; right; simpl; eauto | discriminate].
  destruct (Parser.currentToken tokens s) as [tok s'|s'|] eqn:Hcur;
    [|injection H as <-; right; simpl; eauto
     |injection H as <-; right; simpl; eauto].
  pose proof (currentToken_state _ _ _ _ Hcur) as ->.
  destruct (Parser.hasType tok EOF) eqn:Heof; cbn [negb] in H.
  - destruct (Parser.errors s) as [|e errs] eqn:Herr; simpl in H.
    + injection H as <-. left. simpl. repeat split.
      exists tree, s, tok. repeat split; try assumption.
      unfold Parser.hasType in Heof.
      destruct (Token.type tok); try discriminate Heof. reflexivity.
    + injection H as <-; right; simpl; eauto.
  - unfold push in H. rewrite length_app in H. cbn [List.length] in H.
    replace (0 <? List.length (Parser.errors s) + 1) with true in H
      by (symmetry; apply Nat.ltb_lt; lia).
    injection H as <-; right; simpl; eauto.
Qed.

Lemma parse_result_shape_witness :
  Parser.parse oneTwoTokens 100
  = Some (ParseResult.mk false None
            (Some [ParseError.mk "Unexpected token '2'" 2
                     "Check for missing operators, semicolons, or braces"]))
  /\ exists errs,
       Some [ParseError.mk "Unexpected token '2'" 2
               "Check for missing operators, semicolons, or braces"]
       = Some errs.
Proof.
  assert (H : Parser.parse oneTwoTokens 100
              = Some (ParseResult.mk false None
                        (Some [ParseError.mk "Unexpected token '2'" 2
                                 "Check for missing operators, semicolons, or braces"])))
    by (vm_compute; reflexivity).
  split; [exact H|].
  destruct (parse_result_shape oneTwoTokens 100 _ H)
    as [(Hs & _)|(_ & _ & Herrs)]; [discriminate Hs | exact Herrs].
Defined.

(** X8. Every [throw] of the parser comes after a push on its error list.
    On a list of tokens that is not empty (the lexer gives no empty one), a
    statement or an expression that throws has recorded at least one error;
    and when the top production throws, the failure that [parse] returns
    names these errors, at least one. An exception that the engine raises,
    such as the overflow of the call stack on a deeply nested input, is no
    [throw] of the parser: [parse] catches it as well and returns the
    errors recorded until then, which can be none. *)
Theorem thrown_parse_error_is_recorded :
  (forall tokens fuel s s',
      tokens <> [] ->
      Parser.statement tokens fuel s = Parser.Thrown s'
      \/ Parser.expression tokens fuel s = Parser.Thrown s' ->
      Parser.errors s' <> [])
  /\ (forall tokens fuel s',
        tokens <> [] ->
        find (fun t => Parser.hasType t INVALID) tokens = None ->
        Parser.top tokens fuel Parser.initial = Parser.Thrown s' ->
        exists e errs,
          Parser.errors s' = e :: errs
          /\ Parser.parse tokens fuel
             = Some (ParseResult.mk false None (Some (e :: errs)))).
Proof.
  split.
  - intros tokens fuel s s' Hne H.
    pose proof (productions_throwWithError tokens Hne fuel)
      as (Hstatement & _ & _ & _ & _ & _ & _ & _ & _ & _ & _ & _
          & Hexpression & _).
    destruct H as [H|H].
    + specialize (Hstatement s). now rewrite H in Hstatement.
    + specialize (Hexpression s). now rewrite H in Hexpression.
  - intros tokens fuel s' Hne Hfind Htop.
    pose proof (twe_top tokens Hne fuel Parser.initial) as H.
    rewrite Htop in H.
    destruct (Parser.errors s') as [|e errs] eqn:He; [contradiction|].
    exists e, errs. split; [reflexivity|].
    unfold Parser.parse, Parser.failure. now rewrite Hfind, Htop, He.
Qed.

Lemma thrown_parse_error_is_recorded_witness :
  Lexer.tokenize "(2 + 3" = Some unclosedTokens
  /\ Parser.top unclosedTokens 100 Parser.initial
     = Parser.Thrown
         (Parser.mkState 4
            [ParseError.mk "Missing closing parenthesis" 0
               "Add ')' after position 6"])
  /\ exists e errs,
       [ParseError.mk "Missing closing parenthesis" 0
          "Add ')' after position 6"] = e :: errs
       /\ Parser.parse unclosedTokens 100
          = Some (ParseResult.mk false None (Some (e :: errs))).
Proof.
  assert (H : Parser.top unclosedTokens 100 Parser.initial
              = Parser.Thrown
                  (Parser.mkState 4
                     [ParseError.mk "Missing closing parenthesis" 0
                        "Add ')' after position 6"]))
    by (vm_compute; reflexivity).
  split; [vm_compute; reflexivity|]. split; [exact H|].
  apply (proj2 thrown_parse_error_is_recorded unclosedTokens 100
           (Parser.mkState 4
              [ParseError.mk "Missing closing parenthesis" 0
                 "Add ')' after position 6"])).
  - discriminate.
  - reflexivity.
  - exact H.
Defined.

(* ================================================================== *)
(** * The evaluator and the interpreter on arithmetic *)

Section Arithmetic.

Import Interpreter.

Lemma interpretNode_number (node : ASTNode.t) (n : number) (fuel : nat)
                           (s : state) :
  ASTNode.type node = "number" ->
  ASTNode.value node = Some (NumberValue n) ->
  interpretNode (S fuel) node s = Ok (VNumber n) s.
Proof.
  intros Hty Hval. cbn [interpretNode]. unfold hasType. rewrite Hty, Hval.
  reflexivity.
Qed.

Lemma evaluateAST_number (node : ASTNode.t) (n : number) :
  ASTNode.type node = "number" ->
  ASTNode.value node = Some (NumberValue n) ->
  evaluateAST node = Returns (if Num.toBoolean n then n else Num.zero).
Proof.
  intros Hty Hval.
  destruct node; cbn [ASTNode.type ASTNode.value] in *. subst.
  reflexivity.
Qed.

Lemma arithmetic_operator (op : string) (a b : number) :
  In op ["+"; "-"; "*"; "%"]%string ->
  exists n,
    evaluateOperator (Some op) a b = Returns n
    /\ binaryOperator (Some op) (VNumber a) (VNumber b) = VNumber n.
Proof.
  intros H. cbn [In] in H.
  destruct H as [<-|[<-|[<-|[<-|[]]]]]; eexists; split; reflexivity.
Qed.

Lemma arithmeticTree_agree (d : nat) (node : ASTNode.t) :
  arithmeticTree d node ->
  exists n,
    evaluateAST node = Returns n
    /\ forall fuel s,
         interpretNode (3 * d + 1 + fuel) node s = Ok (VNumber n) s.
Proof.
  induction 1 as [d node n Hty Hval Hnan Hzero
                 |d node l r op Hty Hop Hin Hl Hr Hal IHl Har IHr].
  - exists n. split.
    + rewrite (evaluateAST_number node n Hty Hval).
      destruct n as [[]| | |]; try reflexivity; contradiction.
    + intros fuel s.
      replace (3 * d + 1 + fuel) with (S (3 * d + fuel)) by lia.
      now apply interpretNode_number.
  - destruct IHl as (a & Ha & Hia). destruct IHr as (b & Hb & Hib).
    destruct (arithmetic_operator op a b Hin) as (n & He & Hi).
    exists n. split.
    + rewrite (evaluateAST_binary node l r a b Hty Hl Hr Ha Hb).
      now rewrite Hop.
    + intros fuel s.
      replace (3 * S d + 1 + fuel) with (S (S (S (3 * d + 1 + fuel))))
        by lia.
      rewrite interpretNode_binary by exact Hty.
      rewrite (evaluateBinaryOp_operands _ node s s s (VNumber a) (VNumber b)).
      * now rewrite Hop, Hi.
      * rewrite Hl. cbn [interpretOptional]. apply Hia.
      * rewrite Hr. cbn [interpretOptional]. apply Hib.
Qed.

End Arithmetic.

(** X9. [evaluateAST] returns a number on two kinds of node only: a node of
    type 'number', and a node of type 'binary_op' that has both operands,
    each of which returns a number. On every statement or program type of
    its list it throws the same 'Cannot evaluate C program structure'
    error. *)
Theorem evaluateAST_only_arithmetic :
  (forall node n,
      evaluateAST node = Returns n ->
      ASTNode.type node = "number"
      \/ (ASTNode.type node = "binary_op"
          /\ exists l r a b,
               ASTNode.left node = Some l /\ ASTNode.right node = Some r
               /\ evaluateAST l = Returns a /\ evaluateAST r = Returns b))
  /\ (forall node,
        In (ASTNode.type node) programStructureTypes ->
        evaluateAST node
        = Throws "Cannot evaluate C program structure - this parser focuses on syntax analysis").
Proof.
  split.
  - intros node n H.
    destruct node as [ty va op le ri dt id ini co bo inc el pa rt st si ia
                        ip ar te ca de di].
    cbn [evaluateAST ASTNode.type ASTNode.value ASTNode.left ASTNode.right
         ASTNode.operator] in *.
    destruct (String.eqb ty "number") eqn:E1;
      [left; now apply String.eqb_eq|].
    destruct (String.eqb ty "identifier");
      [destruct va as [[]|]; discriminate|].
    destruct (String.eqb ty "binary_op") eqn:E3;
      [|destruct (Lexer.includes ty programStructureTypes); discriminate].
    destruct le as [l|];
      [|destruct (Lexer.includes ty programStructureTypes); discriminate].
    destruct ri as [r|];
      [|destruct (Lexer.includes ty programStructureTypes); discriminate].
    right. split; [now apply String.eqb_eq|].
    destruct (evaluateAST l) as [a| |] eqn:Ha; try discriminate.
    destruct (evaluateAST r) as [b| |] eqn:Hb; try discriminate.
    exists l, r, a, b. repeat split; assumption.
  - intros node H.
    destruct node as [ty va op le ri dt id ini co bo inc el pa rt st si ia
                        ip ar te ca de di].
    cbn [ASTNode.type] in H. unfold programStructureTypes in H.
    cbn [In] in H.
    repeat (destruct H as [<-|H]; [reflexivity|]). contradiction.
Qed.

Lemma evaluateAST_only_arithmetic_witness :
  evaluateAST (ASTNode.num (Num.ofZ 7)) = Returns (Num.ofZ 7)
  /\ (ASTNode.type (ASTNode.num (Num.ofZ 7)) = "number"
      \/ (ASTNode.type (ASTNode.num (Num.ofZ 7)) = "binary_op"
          /\ exists l r a b,
               ASTNode.left (ASTNode.num (Num.ofZ 7)) = Some l
               /\ ASTNode.right (ASTNode.num (Num.ofZ 7)) = Some r
               /\ evaluateAST l = Returns a /\ evaluateAST r = Returns b))
  /\ evaluateAST loopForever
     = Throws "Cannot evaluate C program structure - this parser focuses on syntax analysis".
Proof.
  split; [reflexivity|]. split.
  - apply (proj1 evaluateAST_only_arithmetic _ (Num.ofZ 7)). reflexivity.
  - apply (proj2 evaluateAST_only_arithmetic loopForever).
    left; reflexivity.
Defined.

(** X10. Division by zero. The evaluator throws 'Division by zero' on a
    '/' node whose right operand evaluates to a zero of either sign,
    whatever the left operand. The interpreter does not fail on it: it
    gives NaN when the left operand is a zero or NaN, and otherwise the
    infinity whose sign is the sign of the left operand, reversed when the
    zero is the negative one. *)
Theorem division_by_zero :
  (forall node l r a sign,
      ASTNode.type node = "binary_op" ->
      ASTNode.operator node = Some "/" ->
      ASTNode.left node = Some l ->
      ASTNode.right node = Some r ->
      evaluateAST l = Returns a ->
      evaluateAST r = Returns (S754_zero sign) ->
      evaluateAST node = Throws "Division by zero")
  /\ (forall fuel node s s1 s2 a sign,
        ASTNode.operator node = Some "/" ->
        Interpreter.interpretOptional fuel (ASTNode.left node) s
        = Interpreter.Ok (VNumber a) s1 ->
        Interpreter.interpretOptional fuel (ASTNode.right node) s1
        = Interpreter.Ok (VNumber (S754_zero sign)) s2 ->
        Interpreter.evaluateBinaryOp (S fuel) node s
        = Interpreter.Ok
            (VNumber
               match a with
               | S754_finite sa _ _ | S754_infinity sa =>
                   S754_infinity (xorb sa sign)
               | _ => NaN
               end) s2).
Proof.
  split.
  - intros node l r a sign Hty Hop Hl Hr Ha Hq.
    rewrite (evaluateAST_binary node l r a _ Hty Hl Hr Ha Hq), Hop.
    reflexivity.
  - intros fuel node s s1 s2 a sign Hop Hl Hr.
    rewrite (evaluateBinaryOp_operands fuel node s s1 s2 _ _ Hl Hr), Hop.
    destruct a; reflexivity.
Qed.

Lemma division_by_zero_witness :
  evaluateAST fiveByZero = Throws "Division by zero"
  /\ Interpreter.evaluateBinaryOp 3 fiveByZero Interpreter.initial
     = Interpreter.Ok (VNumber PosInf) Interpreter.initial.
Proof.
  split.
  - apply (proj1 division_by_zero fiveByZero (ASTNode.num (Num.ofZ 5))
             (ASTNode.num (Num.ofZ 0)) (Num.ofZ 5) false);
      reflexivity.
  - exact (proj2 division_by_zero 2 fiveByZero Interpreter.initial
             Interpreter.initial Interpreter.initial
             (Num.ofZ 5) false eq_refl eq_refl eq_refl).
Defined.

(** The zero divisor can be the negative zero: the program
    [printf(1 / (0 * (0 - 1)))] prints minus infinity. *)
Lemma division_by_negative_zero :
  run 100 "printf(1 / (0 * (0 - 1)))"
  = Some (Interpreter.Result
            (ExecutionResult.mk ["-Infinity"] VNull [] None)).
Proof. vm_compute; reflexivity. Qed.

(** X11. On a tree made of literals that are neither NaN nor the negative
    zero and of the operators [+], [-], [*] and [%], the interpreter
    computes the number the evaluator returns, and leaves its state
    unchanged. *)
Theorem interpreter_agrees_on_arithmetic (d : nat) (node : ASTNode.t) :
  arithmeticTree d node ->
  exists n,
    evaluateAST node = Returns n
    /\ forall fuel s,
         Interpreter.interpretNode (3 * d + 1 + fuel) node s
         = Interpreter.Ok (VNumber n) s.
Proof. exact (arithmeticTree_agree d node). Qed.

Lemma interpreter_agrees_on_arithmetic_witness :
  arithmeticTree 2 twoPlusThreeTimesFour
  /\ exists n,
       evaluateAST twoPlusThreeTimesFour = Returns n
       /\ forall fuel s,
            Interpreter.interpretNode (3 * 2 + 1 + fuel)
              twoPlusThreeTimesFour s
            = Interpreter.Ok (VNumber n) s.
Proof.
  assert (H : arithmeticTree 2 twoPlusThreeTimesFour).
  { eapply (arithmetic_binary 1 _ _ _ "+"); try reflexivity.
    - left; reflexivity.
    - eapply (arithmetic_literal 1 _ (Num.ofZ 2));
        try reflexivity; discriminate.
    - eapply (arithmetic_binary 0 _ _ _ "*"); try reflexivity.
      + right; right; left; reflexivity.
      + eapply (arithmetic_literal 0 _ (Num.ofZ 3));
          try reflexivity; discriminate.
      + eapply (arithmetic_literal 0 _ (Num.ofZ 4));
          try reflexivity; discriminate. }
  split; [exact H|].
  exact (interpreter_agrees_on_arithmetic 2 twoPlusThreeTimesFour H).
Defined.

(** X12. The comparison and logical operators of the interpreter yield 1
    or 0, whatever the operands. *)
Theorem boolean_operators_yield_one_or_zero
    (op : string) (l r : value) :
  In op booleanOperators ->
  Interpreter.binaryOperator (Some op) l r = Interpreter.one
  \/ Interpreter.binaryOperator (Some op) l r = Interpreter.zero.
Proof.
  intros H. unfold booleanOperators in H. cbn [In] in H.
  unfold Interpreter.binaryOperator.
  repeat (destruct H as [<-|H];
          [cbn [equals String.eqb Ascii.eqb Bool.eqb];
           match goal with
           | |- context [Interpreter.ofBool ?b] => destruct b
           end; [left | right]; reflexivity|]).
  contradiction.
Qed.

Lemma boolean_operators_yield_one_or_zero_witness :
  In "<=" booleanOperators
  /\ Interpreter.binaryOperator (Some "<=") VNull (VNumber (Num.ofZ 3))
     = Interpreter.one.
Proof.
  assert (H : In "<=" booleanOperators)
    by (right; right; right; right; left; reflexivity).
  split; [exact H|].
  destruct (boolean_operators_yield_one_or_zero "<=" VNull
              (VNumber (Num.ofZ 3)) H) as [E|E].
  - exact E.
  - discriminate E.
Defined.

(** X13. Calling a name that is neither the output primitive nor in the
    function table throws 'Function NAME not defined' before any argument
    is evaluated, with the state as it was; [execute] on such a call
    returns the message as its error, with no output and [null] as return
    value. *)
Theorem undefined_function_is_reported
    (fuel : nat) (name : string) (args : list ASTNode.t)
    (s : Interpreter.state) :
  name <> "printf" ->
  JsMap.get (Interpreter.functions s) (Some name) = None ->
  Interpreter.callFunction (S fuel) (Some name) args s
  = Interpreter.Thrown ("Function " ++ name ++ " not defined") s
  /\ forall node,
       ASTNode.type node = "function_call" ->
       ASTNode.identifier node = Some name ->
       executeProgram (S (S fuel)) node
       = Interpreter.Result
           (ExecutionResult.mk [] VNull []
              (Some ("Function " ++ name ++ " not defined"))).
Proof.
  intros Hname Hget.
  assert (Heq : equals (Some name) "printf" = false).
  { apply equals_false. intros [= E]. contradiction. }
  split.
  - rewrite callFunction_unfold by exact Heq. now rewrite Hget.
  - intros node Hty Hid.
    unfold executeProgram, Interpreter.execute.
    cbn [Interpreter.interpretNode]. unfold Interpreter.hasType.
    rewrite Hty, Hid. cbn [String.eqb Ascii.eqb Bool.eqb].
    rewrite callFunction_unfold by exact Heq. reflexivity.
Qed.

Lemma undefined_function_is_reported_witness :
  "g" <> "printf"
  /\ executeProgram 2 callOfG
     = Interpreter.Result
         (ExecutionResult.mk [] VNull [] (Some "Function g not defined")).
Proof.
  assert (H : "g" <> "printf") by discriminate.
  split; [exact H|].
  apply (proj2 (undefined_function_is_reported 0 "g" [] Interpreter.initial
                  H eq_refl) callOfG); reflexivity.
Defined.

(* ================================================================== *)
(** * What every run of the interpreter keeps *)

Section Keeps.

Import Interpreter.

Variable R : state -> state -> Prop.
Variable P : string -> Prop.

Hypothesis R_refl : forall s, R s s.
Hypothesis R_trans : forall s1 s2 s3, R s1 s2 -> R s2 s3 -> R s1 s3.
Hypothesis R_setVariables : forall s v, R s (setVariables s v).
Hypothesis R_setFunctions : forall s f, R s (setFunctions s f).
Hypothesis R_setReturnValue : forall s v, R s (setReturnValue s v).
Hypothesis R_setBreakFlag : forall s b, R s (setBreakFlag s b).
Hypothesis R_setContinueFlag : forall s b, R s (setContinueFlag s b).
Hypothesis R_push :
  forall s line, R s (setOutput s (push (output s) line)).
Hypothesis P_typeError : P typeErrorUndefined.
Hypothesis P_function :
  forall name, P ("Function " ++ showString name ++ " not defined").

Lemma keeps_ret {A} (a : A) : keeps R P (ret a).
Proof. intros s. apply R_refl. Qed.

Lemma keeps_get : keeps R P get.
Proof. intros s. apply R_refl. Qed.

Lemma keeps_outOfFuel {A} : keeps R P (@outOfFuel A).
Proof. intros s. exact I. Qed.

Lemma keeps_notModelled {A} : keeps R P (@notModelled A).
Proof. intros s. exact I. Qed.

Lemma keeps_throw {A} (message : string) :
  P message -> keeps R P (@throw A message).
Proof. intros H s. split; [apply R_refl | exact H]. Qed.

Lemma keeps_modify (f : state -> state) :
  (forall s, R s (f s)) -> keeps R P (modify f).
Proof. intros H s. apply H. Qed.

Lemma keeps_bind {A B} (m : M A) (k : A -> M B) :
  keeps R P m -> (forall a, keeps R P (k a)) -> keeps R P (bind m k).
Proof.
  intros Hm Hk s. unfold bind. specialize (Hm s).
  destruct (m s) as [a s1|e s1| |]; try exact Hm.
  specialize (Hk a s1).
  destruct (k a s1) as [b s2|e s2| |]; try exact I.
  - eapply R_trans; eassumption.
  - destruct Hk as [Hr Hp]. split; [eapply R_trans; eassumption | exact Hp].
Qed.

Ltac keeps_step :=
  first
    [ assumption
    | apply keeps_ret
    | apply keeps_get
    | apply keeps_outOfFuel
    | apply keeps_notModelled
    | apply keeps_throw; first [apply P_typeError | apply P_function]
    | apply keeps_modify; intros ?;
      first [ apply R_setVariables | apply R_setFunctions
            | apply R_setReturnValue | apply R_setBreakFlag
            | apply R_setContinueFlag | apply R_push ]
    | apply keeps_bind; [|intros ?]
    | match goal with
      | |- keeps _ _ (if ?b then _ else _) => destruct b
      | |- keeps _ _ (match ?x with _ => _ end) => destruct x
      | H : _ |- keeps _ _ _ => apply H
      end ].

(** Every method of the interpreter keeps [R] and throws in [P]. *)
Lemma interpreter_keeps (fuel : nat) :
  (forall node, keeps R P (interpretNode fuel node))
  /\ (forall nodes lastValue,
        keeps R P (interpretArray fuel nodes lastValue))
  /\ (forall node, keeps R P (interpretOptional fuel node))
  /\ (forall body, keeps R P (interpretBody fuel body))
  /\ (forall node, keeps R P (whileLoop fuel node))
  /\ (forall node, keeps R P (doWhileLoop fuel node))
  /\ (forall node, keeps R P (forLoop fuel node))
  /\ (forall testValue cases matched executeDefault,
        keeps R P (switchCases fuel testValue cases matched executeDefault))
  /\ (forall args, keeps R P (evaluateArguments fuel args))
  /\ (forall name args, keeps R P (callFunction fuel name args))
  /\ (forall node, keeps R P (evaluateBinaryOp fuel node)).
Proof.
  induction fuel as [|fuel IH].
  - repeat split; intros; exact keeps_outOfFuel.
  - destruct IH as (HinterpretNode & HinterpretArray & HinterpretOptional
                    & HinterpretBody & HwhileLoop & HdoWhileLoop & HforLoop
                    & HswitchCases & HevaluateArguments & HcallFunction
                    & HevaluateBinaryOp).
    repeat split; intros.
    + cbn [interpretNode]. repeat keeps_step.
    + cbn [interpretArray]. repeat keeps_step.
    + cbn [interpretOptional]. repeat keeps_step.
    + cbn [interpretBody]. repeat keeps_step.
    + cbn [whileLoop]. repeat keeps_step.
    + cbn [doWhileLoop]. repeat keeps_step.
    + cbn [forLoop]. repeat keeps_step.
    + cbn [switchCases]. repeat keeps_step.
    + cbn [evaluateArguments]. repeat keeps_step.
    + cbn [callFunction]. repeat keeps_step.
    + cbn [evaluateBinaryOp]. repeat keeps_step.
Qed.

End Keeps.

Lemma outputGrows_refl (s : Interpreter.state) : outputGrows s s.
Proof. exists []. now rewrite app_nil_r. Qed.

Lemma outputGrows_trans (s1 s2 s3 : Interpreter.state) :
  outputGrows s1 s2 -> outputGrows s2 s3 -> outputGrows s1 s3.
Proof.
  intros [m1 H1] [m2 H2]. exists (m1 ++ m2)%list.
  now rewrite H2, H1, app_assoc.
Qed.

(** X14. The output is only ever appended to: whatever a node does, and
    whether it returns or throws, the lines written before it are still in
    front of the output, in order. *)
Theorem output_is_append_only
    (fuel : nat) (node : ASTNode.t) (s s' : Interpreter.state) :
  endsIn (Interpreter.interpretNode fuel node s) s' ->
  outputGrows s s'.
Proof.
  intros H.
  assert (K : keeps outputGrows (fun _ => True)
                (Interpreter.interpretNode fuel node)).
  { apply interpreter_keeps;
      try (intros; exact I);
      try (intros; exists []; cbn; now rewrite app_nil_r).
    - exact outputGrows_trans.
    - intros s0 line. exists [line]. reflexivity. }
  specialize (K s). unfold endsIn in H.
  destruct (Interpreter.interpretNode fuel node s) as [v s1|e s1| |];
    try contradiction; subst s1; [exact K | exact (proj1 K)].
Qed.

Lemma output_is_append_only_witness :
  endsIn (Interpreter.interpretNode 5 printOne sampleState) onePrinted
  /\ outputGrows sampleState onePrinted.
Proof.
  split; [vm_compute; reflexivity|].
  apply (output_is_append_only 5 printOne sampleState onePrinted).
  vm_compute; reflexivity.
Defined.

(* ================================================================== *)
(** * The nodes of the parser, as the interpreter reads them *)

Section ParserShapes.

Import Parser.

Variable tokens : list Token.t.

Lemma yields_any {A} (m : M A) : yields (fun _ => True) m.
Proof. intros s. destruct (m s); exact I. Qed.

Lemma yields_ret {A} (Q : A -> Prop) (a : A) : Q a -> yields Q (ret a).
Proof. intros H s. exact H. Qed.

Lemma yields_outOfFuel {A} (Q : A -> Prop) : yields Q (@outOfFuel A).
Proof. intros s. exact I. Qed.

Lemma yields_throw {A} (Q : A -> Prop) : yields Q (@throw A).
Proof. intros s. exact I. Qed.

Lemma yields_bind {A B} (P : A -> Prop) (Q : B -> Prop)
                  (m : M A) (k : A -> M B) :
  yields P m -> (forall a, P a -> yields Q (k a)) -> yields Q (bind m k).
Proof.
  intros Hm Hk s. unfold bind. specialize (Hm s).
  destruct (m s) as [a s1|s1|]; [|exact I | exact I].
  apply Hk. exact Hm.
Qed.

Lemma yields_some (m : M ASTNode.t) :
  yields shaped m -> yields shapedOption (some m).
Proof.
  intros H. unfold some. apply (yields_bind shaped); [exact H|].
  intros a Ha. apply yields_ret. exact Ha.
Qed.

(** A left-associative level returns its first operand or a 'binary_op'
    node with both operands. *)
Lemma yields_binaryLoop (level : Token.t -> bool) (next : M ASTNode.t) :
  forall fuel l,
    shaped l -> yields shaped (binaryLoop tokens fuel level next l).
Proof.
  induction fuel as [|fuel IH]; intros l Hl; cbn [binaryLoop].
  - apply yields_outOfFuel.
  - apply (yields_bind (fun _ => True)); [apply yields_any|].
    intros tok _. destruct (level tok); [|now apply yields_ret].
    apply (yields_bind (fun _ => True)); [apply yields_any|]. intros op _.
    apply (yields_bind (fun _ => True)); [apply yields_any|]. intros r _.
    apply IH. reflexivity.
Qed.

Ltac ys_step :=
  first
    [ assumption
    | match goal with
      | H : forall _ _ _, yields _ _
        |- yields _ (functionDeclaration _ _ _ _ _) => apply H
      end
    | apply yields_outOfFuel
    | apply yields_throw
    | apply yields_ret;
      first [ exact I
            | match goal with H : _ |- _ => exact H end
            | exact (eq_refl true) ]
    | apply yields_some; assumption
    | apply yields_binaryLoop; assumption
    | match goal with
      | |- yields _ (if ?b then _ else _) => destruct b
      | |- yields _ (match ?x with _ => _ end) => destruct x
      end
    | eapply yields_bind; [eassumption | intros ? ?]
    | apply (yields_bind shapedOption);
      [ solve [repeat ys_step] | intros [?|] ?; cbv beta iota ]
    | apply (yields_bind (fun _ => True)); [apply yields_any | intros ? _] ].

(** Every production returns a node of the shape [parserShape]. *)
Lemma productions_shaped (fuel : nat) :
  yields shaped (statement tokens fuel)
  /\ yields shaped (declaration tokens fuel)
  /\ (forall returnType name isPointer,
        yields shaped
          (functionDeclaration tokens fuel returnType name isPointer))
  /\ yields shaped (block tokens fuel)
  /\ yields shaped (blockOrStatement tokens fuel)
  /\ yields shaped (ifStatement tokens fuel)
  /\ yields shaped (whileLoop tokens fuel)
  /\ yields shaped (doWhileLoop tokens fuel)
  /\ yields shaped (switchStatement tokens fuel)
  /\ yields shaped (forLoop tokens fuel)
  /\ yields shaped (returnStatement tokens fuel)
  /\ yields shaped (assignmentOrExpression tokens fuel)
  /\ yields shaped (expression tokens fuel)
  /\ yields shaped (logicalOr tokens fuel)
  /\ yields shaped (logicalAnd tokens fuel)
  /\ yields shaped (equality tokens fuel)
  /\ yields shaped (relational tokens fuel)
  /\ yields shaped (additive tokens fuel)
  /\ yields shaped (multiplicative tokens fuel)
  /\ yields shaped (power tokens fuel)
  /\ yields shaped (primary tokens fuel).
Proof.
  induction fuel as [|fuel IH].
  - repeat split; intros; apply yields_outOfFuel.
  - destruct IH as (Hstatement & Hdeclaration & HfunctionDeclaration
                    & Hblock & HblockOrStatement & HifStatement
                    & HwhileLoop & HdoWhileLoop & HswitchStatement
                    & HforLoop & HreturnStatement & HassignmentOrExpression
                    & Hexpression & HlogicalOr & HlogicalAnd & Hequality
                    & Hrelational & Hadditive & Hmultiplicative & Hpower
                    & Hprimary).
    repeat split; intros.
    + cbn [statement]. repeat ys_step.
    + cbn [declaration]. repeat ys_step.
    + cbn [functionDeclaration]. repeat ys_step.
    + cbn [block]. repeat ys_step.
    + cbn [blockOrStatement]. repeat ys_step.
    + cbn [ifStatement]. repeat ys_step.
    + cbn [whileLoop]. repeat ys_step.
    + cbn [doWhileLoop]. repeat ys_step.
    + cbn [switchStatement]. repeat ys_step.
    + cbn [forLoop]. repeat ys_step.
    + cbn [returnStatement]. repeat ys_step.
    + cbn [assignmentOrExpression]. repeat ys_step.
    + cbn [expression]. repeat ys_step.
    + cbn [logicalOr]. repeat ys_step.
    + cbn [logicalAnd]. repeat ys_step.
    + cbn [equality]. repeat ys_step.
    + cbn [relational]. repeat ys_step.
    + cbn [additive]. repeat ys_step.
    + cbn [multiplicative]. repeat ys_step.
    + cbn [power]. repeat ys_step.
    + cbn [primary]. repeat ys_step.
Qed.

Lemma top_shaped (fuel : nat) : yields shaped (top tokens fuel).
Proof.
  pose proof (productions_shaped fuel)
    as (_ & _ & _ & _ & _ & _ & _ & _ & _ & _ & _ & _ & Hexpression & _).
  unfold top, program. repeat ys_step.
Qed.

End ParserShapes.

Lemma shaped_not_interpreterOnly (node : ASTNode.t) :
  shaped node -> ~ In (ASTNode.type node) interpreterOnlyTypes.
Proof.
  unfold shaped, parserShape. intros H Hin.
  unfold interpreterOnlyTypes in Hin. cbn [In] in Hin.
  repeat (destruct Hin as [E|Hin];
          [rewrite <- E in H; cbn in H; discriminate|]).
  exact Hin.
Qed.

Lemma parse_top (tokens : list Token.t) (fuel : nat) (node : ASTNode.t) :
  Parser.parse tokens fuel = Some (ParseResult.mk true (Some node) None) ->
  exists s, Parser.top tokens fuel Parser.initial = Parser.Ok node s.
Proof.
  unfold Parser.parse, Parser.failure.
  destruct (find _ tokens); [discriminate|].
  destruct (Parser.top tokens fuel Parser.initial) as [tree s|s|];
    [|discriminate|discriminate].
  destruct (Parser.currentToken tokens s) as [tok s1|s1|];
    [|discriminate|discriminate].
  destruct (0 <? _); [discriminate|].
  intros [= <-]. now exists s.
Qed.

(** X16. Every node that a statement, an expression or a successful
    [parse] returns has the shape [parserShape] of its type: a 'binary_op'
    has its operator and both operands, an 'if_statement' and a
    'while_loop' have condition and body, an 'assignment' has no [right]
    and an 'identifier' no [identifier] property. Its type is none of
    'function_declaration', 'do_while_loop', 'switch_statement',
    'return_statement', 'break_statement', 'continue_statement' and
    'unary_op', for which the interpreter has a case. *)
Theorem parser_node_shapes
    (tokens : list Token.t) (fuel : nat) (s s' : Parser.state)
    (node : ASTNode.t) :
  Parser.statement tokens fuel s = Parser.Ok node s'
  \/ Parser.expression tokens fuel s = Parser.Ok node s'
  \/ Parser.parse tokens fuel
     = Some (ParseResult.mk true (Some node) None) ->
  parserShape node = true
  /\ ~ In (ASTNode.type node) interpreterOnlyTypes.
Proof.
  intros H.
  assert (Hshape : shaped node).
  { pose proof (productions_shaped tokens fuel)
      as (Hstatement & _ & _ & _ & _ & _ & _ & _ & _ & _ & _ & _
          & Hexpression & _).
    destruct H as [H|[H|H]].
    - specialize (Hstatement s). now rewrite H in Hstatement.
    - specialize (Hexpression s). now rewrite H in Hexpression.
    - apply parse_top in H as [s1 H].
      pose proof (top_shaped tokens fuel Parser.initial) as Htop.
      now rewrite H in Htop. }
  split; [exact Hshape | now apply shaped_not_interpreterOnly].
Qed.

Lemma parser_node_shapes_witness :
  (Parser.statement oneIdentifier 100 Parser.initial
   = Parser.Ok parsedX Parser.initial
   \/ Parser.expression oneIdentifier 100 Parser.initial
      = Parser.Ok parsedX Parser.initial
   \/ Parser.parse oneIdentifier 100
      = Some (ParseResult.mk true (Some parsedX) None))
  /\ parserShape parsedX = true
  /\ ~ In (ASTNode.type parsedX) interpreterOnlyTypes.
Proof.
  assert (H : Parser.parse oneIdentifier 100
              = Some (ParseResult.mk true (Some parsedX) None))
    by (vm_compute; reflexivity).
  split; [right; right; exact H|].
  apply (parser_node_shapes oneIdentifier 100 Parser.initial Parser.initial
           parsedX).
  right. right. exact H.
Defined.

Section ParsedTrees.

Import Interpreter.

Lemma interpretNode_program (fuel : nat) (statements : list ASTNode.t)
                            (s : state) :
  interpretNode (S fuel)
    (ASTNode.node "program" [ASTNode.Statements statements]) s
  = interpretArray fuel statements VUndefined s.
Proof. reflexivity. Qed.

Lemma interpretArray_cons (fuel : nat) (stmt : ASTNode.t)
                          (rest : list ASTNode.t) (lastValue : value)
                          (s : state) :
  exits s || continueFlag s = false ->
  interpretArray (S fuel) (stmt :: rest) lastValue s
  = bind (interpretNode fuel stmt)
         (fun v => interpretArray fuel rest v) s.
Proof.
  intros H. cbn [interpretArray]. unfold bind at 1. unfold get.
  now rewrite H.
Qed.

Lemma interpretNode_assignment_without_right
    (fuel : nat) (node : ASTNode.t) (s : state) :
  ASTNode.type node = "assignment" ->
  ASTNode.right node = None ->
  interpretNode (S (S fuel)) node s = Thrown typeErrorUndefined s.
Proof.
  intros Hty Hright. cbn [interpretNode]. unfold hasType. rewrite Hty.
  cbn [String.eqb Ascii.eqb Bool.eqb]. unfold bind.
  cbn [interpretOptional]. now rewrite Hright.
Qed.

End ParsedTrees.

(** X17. The interpreter cannot run an assignment of the parser: the node
    has no [right] property, which the interpreter evaluates, so it throws
    the TypeError of a missing node before any variable is set. A program
    whose first statement is such an assignment ends with that error,
    with no output. *)
Theorem parsed_assignment_throws
    (fuel : nat) (node : ASTNode.t) (rest : list ASTNode.t)
    (s : Interpreter.state) :
  parserShape node = true ->
  ASTNode.type node = "assignment" ->
  Interpreter.interpretNode (S (S fuel)) node s
  = Interpreter.Thrown Interpreter.typeErrorUndefined s
  /\ executeProgram (S (S (S (S fuel))))
       (ASTNode.node "program" [ASTNode.Statements (node :: rest)])
     = Interpreter.Result typeErrorResult.
Proof.
  intros Hshape Hty.
  assert (Hright : ASTNode.right node = None).
  { unfold parserShape in Hshape. rewrite Hty in Hshape.
    cbn [String.eqb Ascii.eqb Bool.eqb] in Hshape.
    apply andb_prop in Hshape as [_ H]. unfold absent, present in H.
    destruct (ASTNode.right node); [discriminate | reflexivity]. }
  split; [now apply interpretNode_assignment_without_right|].
  unfold executeProgram, Interpreter.execute.
  rewrite interpretNode_program.
  rewrite interpretArray_cons by reflexivity.
  unfold Interpreter.bind.
  rewrite interpretNode_assignment_without_right by assumption.
  reflexivity.
Qed.

Lemma parsed_assignment_throws_witness :
  parseExpression 100 "x = 5;"
  = Some (ParseResult.mk true
            (Some (ASTNode.node "program" [ASTNode.Statements [assignFive]]))
            None)
  /\ parserShape assignFive = true
  /\ ASTNode.type assignFive = "assignment"
  /\ Interpreter.interpretNode 2 assignFive sampleState
     = Interpreter.Thrown Interpreter.typeErrorUndefined sampleState
  /\ executeProgram 4
       (ASTNode.node "program" [ASTNode.Statements [assignFive]])
     = Interpreter.Result typeErrorResult.
Proof.
  split; [vm_compute; reflexivity|].
  split; [reflexivity|]. split; [reflexivity|].
  apply (parsed_assignment_throws 0 assignFive [] sampleState);
    reflexivity.
Defined.

(** X18. The interpreter reads a variable reference of the parser under
    the key [undefined]: the parser stores the name in [value], the
    interpreter looks [identifier] up. The reference evaluates to the
    variable of that key, or to 0 when there is none, whatever the name
    and whatever the variable of that name holds. *)
Theorem parsed_variable_ignores_its_name
    (fuel : nat) (node : ASTNode.t) (s : Interpreter.state) :
  parserShape node = true ->
  ASTNode.type node = "identifier" ->
  Interpreter.interpretNode (S fuel) node s
  = Interpreter.Ok
      (match JsMap.get (Interpreter.variables s) None with
       | Some v => v
       | None => Interpreter.zero
       end) s.
Proof.
  intros Hshape Hty.
  assert (Hid : ASTNode.identifier node = None).
  { unfold parserShape in Hshape. rewrite Hty in Hshape.
    cbn [String.eqb Ascii.eqb Bool.eqb] in Hshape.
    apply andb_prop in Hshape as [H _]. unfold absent, present in H.
    destruct (ASTNode.identifier node); [discriminate | reflexivity]. }
  rewrite interpretNode_identifier by assumption. now rewrite Hid.
Qed.

Lemma parsed_variable_ignores_its_name_witness :
  Parser.parse oneIdentifier 100
  = Some (ParseResult.mk true (Some parsedX) None)
  /\ JsMap.get (Interpreter.variables sampleState) (Some "x")
     = Some (VNumber (Num.ofZ 1))
  /\ parserShape parsedX = true
  /\ ASTNode.type parsedX = "identifier"
  /\ Interpreter.interpretNode 1 parsedX sampleState
     = Interpreter.Ok Interpreter.zero sampleState.
Proof.
  split; [vm_compute; reflexivity|].
  split; [reflexivity|]. split; [reflexivity|]. split; [reflexivity|].
  apply (parsed_variable_ignores_its_name 0 parsedX sampleState);
    reflexivity.
Defined.

(** X19. A sign in front of an operand. The parser makes of [-e] and [+e]
    a 'binary_op' with the operator 'unary_neg' or 'unary_pos' and the
    left operand 0. The evaluator negates or keeps the value of [e]; the
    interpreter has no case for these operators and gives 0 whenever [e]
    evaluates. *)
Theorem unary_sign_is_zero_in_interpreter
    (sign : string) (operand : ASTNode.t) :
  In sign ["unary_neg"; "unary_pos"] ->
  (forall n,
      evaluateAST operand = Returns n ->
      evaluateAST (Parser.binary sign (ASTNode.num Num.zero) operand)
      = Returns (if String.eqb sign "unary_neg" then Num.neg n else n))
  /\ (forall fuel s v s',
        Interpreter.interpretNode fuel operand s = Interpreter.Ok v s' ->
        Interpreter.interpretNode (3 + fuel)
          (Parser.binary sign (ASTNode.num Num.zero) operand) s
        = Interpreter.Ok Interpreter.zero s').
Proof.
  intros Hsign. split.
  - intros n Hn.
    rewrite (evaluateAST_binary
               (Parser.binary sign (ASTNode.num Num.zero) operand)
               (ASTNode.num Num.zero) operand Num.zero n);
      try reflexivity; [|exact Hn].
    change (ASTNode.operator
              (Parser.binary sign (ASTNode.num Num.zero) operand))
      with (Some sign).
    destruct Hsign as [<-|[<-|[]]]; reflexivity.
  - intros fuel s v s' H.
    destruct fuel as [|fuel]; [discriminate|].
    change (3 + S fuel) with (S (S (S (S fuel)))).
    rewrite interpretNode_binary by reflexivity.
    rewrite (evaluateBinaryOp_operands (S (S fuel)) _ s s s'
               Interpreter.zero v).
    + f_equal. apply binaryOperator_default.
      change (ASTNode.operator
                (Parser.binary sign (ASTNode.num Num.zero) operand))
        with (Some sign).
      destruct Hsign as [<-|[<-|[]]]; reflexivity.
    + reflexivity.
    + exact H.
Qed.

Lemma unary_sign_is_zero_in_interpreter_witness :
  parseExpression 100 "-5"
  = Some (ParseResult.mk true (Some minusFive) None)
  /\ evaluateAST minusFive = Returns (Num.ofZ (-5))
  /\ Interpreter.interpretNode 4 minusFive Interpreter.initial
     = Interpreter.Ok Interpreter.zero Interpreter.initial.
Proof.
  split; [vm_compute; reflexivity|].
  destruct (unary_sign_is_zero_in_interpreter "unary_neg"
              (ASTNode.num (Num.ofZ 5))) as [He Hi];
    [left; reflexivity|].
  split.
  - exact (He (Num.ofZ 5) eq_refl).
  - exact (Hi 1 Interpreter.initial (VNumber (Num.ofZ 5))
              Interpreter.initial eq_refl).
Defined.

(* ================================================================== *)
(** * Loops, calls and truth values in the interpreter *)

Section Calls.

Import Interpreter.

Lemma strictEquals_null (v : value) :
  strictEquals v VNull = false <-> v <> VNull.
Proof.
  destruct v; cbn; split; intros H; try discriminate; try reflexivity.
  now contradiction H.
Qed.

Lemma callFunction_not_null (fuel : nat) (name : option string)
                            (args : list ASTNode.t) (s s' : state)
                            (v : value) :
  callFunction fuel name args s = Ok v s' -> v <> VNull.
Proof.
  intros H. destruct fuel as [|fuel]; [discriminate|].
  destruct (equals name "printf") eqn:En.
  - cbn [callFunction] in H. rewrite En in H.
    unfold bind, modify, ret, notModelled in H.
    destruct (evaluateArguments fuel args s) as [vs s1| | |];
      try discriminate.
    destruct (mapString vs); try discriminate.
    injection H as <- <-. unfold zero. discriminate.
  - rewrite callFunction_unfold in H by exact En.
    destruct (JsMap.get (functions s) name); try discriminate.
    destruct (evaluateArguments fuel args s) as [vs s1| | |];
      try discriminate.
    destruct (interpretBody fuel _ _) as [b s2| | |]; try discriminate.
    injection H as <- <-.
    destruct (strictEquals (returnValue s2) VNull) eqn:E.
    + unfold zero. discriminate.
    + now apply strictEquals_null.
Qed.

Lemma interpretNode_return (fuel : nat) (e : ASTNode.t) (s : state) :
  interpretNode (S fuel) (returnOf e) s
  = bind (interpretNode fuel e)
         (fun r => bind (modify (fun s => setReturnValue s r))
                        (fun _ => ret r)) s.
Proof. reflexivity. Qed.

Lemma interpretArray_exits (fuel : nat) (nodes : list ASTNode.t)
                           (lastValue : value) (s : state) :
  exits s = true ->
  interpretArray (S fuel) nodes lastValue s = Ok lastValue s.
Proof.
  intros H. cbn [interpretArray]. destruct nodes; [reflexivity|].
  unfold bind, get. now rewrite H.
Qed.

End Calls.

(** X20. A loop statement that completes returns [null] and leaves the
    break flag down: a [break] ends the innermost loop only. *)
Theorem loops_clear_the_break_flag
    (fuel : nat) (node : ASTNode.t) (s s' : Interpreter.state)
    (v : value) :
  In (ASTNode.type node) ["while_loop"; "do_while_loop"; "for_loop"] ->
  Interpreter.interpretNode fuel node s = Interpreter.Ok v s' ->
  v = VNull /\ Interpreter.breakFlag s' = false.
Proof.
  intros Hty H. destruct fuel as [|fuel]; [discriminate|].
  cbn [Interpreter.interpretNode] in H. unfold Interpreter.hasType in H.
  cbn [In] in Hty.
  destruct Hty as [E|[E|[E|[]]]]; rewrite <- E in H;
    cbn [String.eqb Ascii.eqb Bool.eqb] in H;
    unfold Interpreter.bind, Interpreter.modify, Interpreter.ret in H;
    repeat match type of H with
           | context [match ?x with _ => _ end] =>
               destruct x; try discriminate
           end;
    injection H as <- <-; split; reflexivity.
Qed.

Lemma loops_clear_the_break_flag_witness :
  In (ASTNode.type breakingLoop) ["while_loop"; "do_while_loop"; "for_loop"]
  /\ Interpreter.interpretNode 10 breakingLoop sampleState
     = Interpreter.Ok VNull sampleState
  /\ VNull = VNull
  /\ Interpreter.breakFlag sampleState = false.
Proof.
  split; [left; reflexivity|].
  split; [vm_compute; reflexivity|].
  apply (loops_clear_the_break_flag 10 breakingLoop sampleState sampleState
           VNull).
  - left. reflexivity.
  - vm_compute; reflexivity.
Defined.

(** X21. Scoping is dynamic: the body of a function reads the variables of
    its caller. A function whose body is [return x;], [x] being none of
    its parameters, returns the value [x] has where it is called (0 when
    [x] is not set or is [null]), and the call leaves the variables of the
    caller as they were. *)
Theorem callee_reads_caller_variables
    (fuel : nat) (name : option string) (func : FunctionDef.t)
    (args : list ASTNode.t) (s s1 : Interpreter.state) (vs : list value)
    (x : string) :
  equals name "printf" = false ->
  JsMap.get (Interpreter.functions s) name = Some func ->
  FunctionDef.body func = Some (Single (returnOf (variableNode x))) ->
  (forall q, In q (FunctionDef.params func) -> Parameter_.name q <> x) ->
  Interpreter.evaluateArguments (S (S (S fuel))) args s
  = Interpreter.Ok vs s1 ->
  Interpreter.callFunction (S (S (S (S fuel)))) name args s
  = Interpreter.Ok
      (match JsMap.get (Interpreter.variables s1) (Some x) with
       | Some v =>
           if Interpreter.strictEquals v VNull then Interpreter.zero else v
       | None => Interpreter.zero
       end)
      (Interpreter.setVariables s1 (Interpreter.variables s)).
Proof.
  intros Hname Hget Hbody Hparams Hargs.
  rewrite callFunction_unfold by exact Hname.
  rewrite Hget, Hargs, Hbody.
  cbn [Interpreter.interpretBody]. rewrite interpretNode_return.
  unfold Interpreter.bind at 1.
  rewrite interpretNode_identifier by reflexivity.
  change (ASTNode.identifier (variableNode x)) with (Some x).
  cbn [Interpreter.variables Interpreter.setReturnValue
       Interpreter.setVariables].
  rewrite bindParameters_other by exact Hparams.
  destruct (JsMap.get (Interpreter.variables s1) (Some x)) as [v|];
    [|reflexivity].
  unfold Interpreter.bind, Interpreter.modify, Interpreter.ret.
  cbn [Interpreter.returnValue Interpreter.setReturnValue].
  reflexivity.
Qed.

Lemma callee_reads_caller_variables_witness :
  Interpreter.callFunction 4 (Some "getX") [] stateWithGetX
  = Interpreter.Ok (VNumber (Num.ofZ 1)) stateWithGetX.
Proof.
  apply (callee_reads_caller_variables 0 (Some "getX") getX []
           stateWithGetX stateWithGetX [] "x").
  - reflexivity.
  - reflexivity.
  - reflexivity.
  - intros q [<-|[]]. discriminate.
  - reflexivity.
Defined.

(** X22. A call that completes never gives [null]: a function that ends
    without a return gives 0. The return slot after a call of a defined
    function is the one the caller had when the arguments had been
    evaluated, so a [return] in the callee does not end the caller. *)
Theorem call_result_is_never_null
    (fuel : nat) (name : option string) (args : list ASTNode.t)
    (s s' : Interpreter.state) (v : value) :
  Interpreter.callFunction fuel name args s = Interpreter.Ok v s' ->
  v <> VNull
  /\ (equals name "printf" = false ->
      exists vs s1,
        Interpreter.evaluateArguments (Nat.pred fuel) args s
        = Interpreter.Ok vs s1
        /\ Interpreter.returnValue s' = Interpreter.returnValue s1).
Proof.
  intros H. split; [exact (callFunction_not_null _ _ _ _ _ _ H)|].
  intros Hname. destruct fuel as [|fuel]; [discriminate|].
  rewrite callFunction_unfold in H by exact Hname.
  destruct (JsMap.get (Interpreter.functions s) name); try discriminate.
  cbn [Nat.pred].
  destruct (Interpreter.evaluateArguments fuel args s) as [vs s1| | |];
    try discriminate.
  destruct (Interpreter.interpretBody fuel _ _) as [b s2| | |];
    try discriminate.
  injection H as <- <-. exists vs, s1. split; reflexivity.
Qed.

Lemma call_result_is_never_null_witness :
  Interpreter.callFunction 4 (Some "getX") [] stateWithGetX
  = Interpreter.Ok (VNumber (Num.ofZ 1)) stateWithGetX
  /\ VNumber (Num.ofZ 1) <> VNull.
Proof.
  split; [reflexivity|].
  apply (call_result_is_never_null 4 (Some "getX") [] stateWithGetX
           stateWithGetX (VNumber (Num.ofZ 1))).
  reflexivity.
Defined.

(** X23. When the interpreter has run a declaration of [main], the return
    slot is set (to 0 when [main] returned nothing), and every statement
    list run in that state stops at once: the statements that follow the
    declaration of [main] in a program are not run. *)
Theorem statements_after_main_are_skipped
    (fuel : nat) (node : ASTNode.t) (s s' : Interpreter.state)
    (v : value) :
  ASTNode.type node = "function_declaration" ->
  ASTNode.identifier node = Some "main" ->
  Interpreter.interpretNode fuel node s = Interpreter.Ok v s' ->
  v = VNull
  /\ Interpreter.returnValue s' <> VNull
  /\ forall fuel' rest lastValue,
       Interpreter.interpretArray (S fuel') rest lastValue s'
       = Interpreter.Ok lastValue s'.
Proof.
  intros Hty Hid H. destruct fuel as [|fuel]; [discriminate|].
  cbn [Interpreter.interpretNode] in H. unfold Interpreter.hasType in H.
  rewrite Hty, Hid in H.
  cbn [String.eqb Ascii.eqb Bool.eqb equals] in H.
  unfold Interpreter.bind in H. unfold Interpreter.modify at 1 in H.
  destruct (Interpreter.callFunction fuel (Some "main") [] _)
    as [r s2| | |] eqn:Hcall; try discriminate.
  unfold Interpreter.modify, Interpreter.ret in H.
  injection H as <- <-.
  apply callFunction_not_null in Hcall.
  split; [reflexivity|]. split; [exact Hcall|].
  intros fuel' rest lastValue. apply interpretArray_exits.
  unfold Interpreter.exits. cbn [Interpreter.returnValue
                                 Interpreter.setReturnValue].
  apply strictEquals_null in Hcall. now rewrite Hcall.
Qed.

Lemma statements_after_main_are_skipped_witness :
  Interpreter.interpretNode 10 mainReturningZero Interpreter.initial
  = Interpreter.Ok VNull mainDone
  /\ Interpreter.returnValue mainDone <> VNull
  /\ Interpreter.interpretArray 3 [printOne] VUndefined mainDone
     = Interpreter.Ok VUndefined mainDone.
Proof.
  split; [vm_compute; reflexivity|].
  destruct (statements_after_main_are_skipped 10 mainReturningZero
              Interpreter.initial mainDone VNull eq_refl eq_refl)
    as (_ & Hr & Hskip); [vm_compute; reflexivity|].
  split; [exact Hr | exact (Hskip 2 [printOne] VUndefined)].
Defined.

(** X24. Conditions and logical operators disagree on NaN. [isTruthy],
    which decides [if] and the loops, takes every value but the zeros,
    [null] and [undefined] as true, NaN included. The operators [&&],
    [||] and [!] take NaN as false: [&&] with a NaN operand gives 0, [||]
    with a NaN operand gives the truth value of the other operand, and [!]
    of NaN gives 1. The remainder by a zero of a finite number is NaN. *)
Theorem conditions_take_NaN_as_true :
  (forall v,
      Interpreter.isTruthy v = Interpreter.toBoolean v || isNaN v)
  /\ (forall v,
        Interpreter.binaryOperator (Some "&&") (VNumber NaN) v
        = Interpreter.zero
        /\ Interpreter.binaryOperator (Some "&&") v (VNumber NaN)
           = Interpreter.zero)
  /\ (forall v,
        Interpreter.binaryOperator (Some "||") (VNumber NaN) v
        = Interpreter.ofBool (Interpreter.toBoolean v)
        /\ Interpreter.binaryOperator (Some "||") v (VNumber NaN)
           = Interpreter.ofBool (Interpreter.toBoolean v))
  /\ (forall l,
        Interpreter.binaryOperator (Some "!") l (VNumber NaN)
        = Interpreter.one)
  /\ (forall s m e sign,
        Interpreter.binaryOperator (Some "%")
          (VNumber (S754_finite s m e)) (VNumber (S754_zero sign))
        = VNumber NaN).
Proof.
  split; [|split; [|split; [|split]]].
  - intros [| |[[]|[]| |[] m e]]; reflexivity.
  - intros v. split; [reflexivity|].
    unfold Interpreter.binaryOperator.
    cbn [equals String.eqb Ascii.eqb Bool.eqb Interpreter.toBoolean
         Num.toBoolean].
    now rewrite andb_false_r.
  - intros v. split; [reflexivity|].
    unfold Interpreter.binaryOperator.
    cbn [equals String.eqb Ascii.eqb Bool.eqb Interpreter.toBoolean
         Num.toBoolean].
    now rewrite orb_false_r.
  - intros l. reflexivity.
  - intros s m e sign. reflexivity.
Qed.
